(** * dmc-nav: pane orchestration, tree flattening and viewport arithmetic

    A shallow embedding of the Go sources of dmc-nav (nav.go, viewer.go,
    viewer_markdown.go, the JSON viewer, the editor and the application
    model) together with the properties the specification states about them.

    Conventions of the embedding
    - Go [int] is a 64-bit two's complement integer: values are [Z], and every
      addition, subtraction and negation goes through [GoInt.wrap].
    - Go strings are byte strings ([string]); [strings.ToLower] is modelled on
      the ASCII range.
    - A Go [error] is [option string]: [None] is [nil].
    - A function that can hit a runtime panic (index out of range) returns
      [option]; [None] is the panic.
    - A [*JSONNode] is the address of a node of the tree built by [buildTree]:
      the sequence of child indices leading to it from the root. *)

From Stdlib Require Import ZArith Lia Ascii.
From Stdlib Require OrderedTypeEx.
From stdpp Require Import gmap strings list fin_maps sorting pretty.

Local Open Scope Z_scope.
Set Warnings "-register-all".

(** ** Go integers *)

Module GoInt.

Definition minInt : Z := - 2 ^ 63.
Definition maxInt : Z := 2 ^ 63 - 1.

Definition wrap (z : Z) : Z := (z + 2 ^ 63) mod 2 ^ 64 - 2 ^ 63.

Definition add (a b : Z) : Z := wrap (a + b).
Definition sub (a b : Z) : Z := wrap (a - b).
Definition neg (a : Z) : Z := wrap (- a).
(** [a / b] of Go truncates toward zero. *)
Definition quot (a b : Z) : Z := wrap (Z.quot a b).

(** [len(s)] *)
Definition len {A} (s : list A) : Z := Z.of_nat (length s).

(** [s[i]]; [None] is the index-out-of-range panic. *)
Definition index {A} (s : list A) (i : Z) : option A :=
  if (i <? 0) || (len s <=? i) then None else s !! Z.to_nat i.

Definition inRange (z : Z) : Prop := minInt <= z <= maxInt.

Lemma wrap_inRange z : inRange (wrap z).
Proof.
  unfold inRange, wrap, minInt, maxInt.
  pose proof (Z.mod_pos_bound (z + 2 ^ 63) (2 ^ 64) ltac:(lia)). lia.
Qed.

Lemma wrap_id z : inRange z -> wrap z = z.
Proof.
  unfold inRange, wrap, minInt, maxInt. intros H.
  rewrite Z.mod_small by lia. lia.
Qed.

Lemma len_nonneg {A} (s : list A) : 0 <= len s.
Proof. unfold len. lia. Qed.

Lemma index_Some {A} (s : list A) i :
  0 <= i < len s -> exists x, index s i = Some x.
Proof.
  intros [H0 H1]. unfold index.
  destruct (Z.ltb_spec i 0); [lia|].
  destruct (Z.leb_spec (len s) i); [lia|]. simpl.
  destruct (lookup_lt_is_Some_2 s (Z.to_nat i)) as [x Hx]; [unfold len in *; lia|].
  eauto.
Qed.

Lemma index_None {A} (s : list A) i :
  i < 0 \/ len s <= i -> index s i = None.
Proof.
  intros H. unfold index.
  destruct (Z.ltb_spec i 0); [done|].
  destruct (Z.leb_spec (len s) i); [done|]. lia.
Qed.

End GoInt.

(** ** Go strings *)

Module GoString.

Local Open Scope char_scope.

(** [strings.ToLower] on ASCII letters; other bytes are kept. *)
Definition lowerByte (c : Ascii.ascii) : Ascii.ascii :=
  let n := Ascii.nat_of_ascii c in
  if (Nat.leb 65 n && Nat.leb n 90)%bool
  then Ascii.ascii_of_nat (n + 32) else c.

Fixpoint ToLower (s : string) : string :=
  match s with
  | EmptyString => EmptyString
  | String c rest => String (lowerByte c) (ToLower rest)
  end.

(** [strings.HasPrefix(s, prefix)] *)
Definition HasPrefix (s prefix : string) : bool := String.prefix prefix s.

(** The backward scan of [filepath.Ext]: [Some r] when the scan from the
    end of [path] stops inside [path] (at a dot, with the suffix from that
    dot, or at a separator, with the empty string). *)
Fixpoint extScan (path : string) : option string :=
  match path with
  | EmptyString => None
  | String c rest =>
      match extScan rest with
      | Some r => Some r
      | None =>
          if Ascii.eqb c "."%char then Some path
          else if Ascii.eqb c "/"%char then Some EmptyString
          else None
      end
  end.

(** [filepath.Ext(path)] *)
Definition Ext (path : string) : string := default EmptyString (extScan path).

(** [strings.Split(s, "\n")] *)
Fixpoint SplitLines (s : string) : list string :=
  match s with
  | EmptyString => [EmptyString]
  | String c rest =>
      let r := SplitLines rest in
      if Ascii.eqb c "010"%char then EmptyString :: r
      else match r with
           | h :: t => String c h :: t
           | [] => [String c EmptyString]
           end
  end.

(** [s < t] of Go: byte-wise lexicographic order. *)
Definition lt (s t : string) : bool := String.ltb s t.

End GoString.

(** [error]: [None] is [nil]. *)
Definition error : Type := option string.

(** [k] is one of the listed key names ([case "j", "down":]). *)
Definition keyIs (k : string) (names : list string) : bool :=
  existsb (String.eqb k) names.
Arguments keyIs : simpl never.

(** ** Decoded JSON values and the JSON tree *)

(** What [json.Unmarshal] stores into an [any]: [nil], [bool], [float64]
    (kept as its bit pattern, never interpreted here), [string], [[]any] and
    [map[string]any].  A Go map has no order: it is a [gmap]. *)
Inductive GoValue :=
| VNil
| VBool (b : bool)
| VFloat64 (bits : Z)
| VString (s : string)
| VSlice (v : list GoValue)
| VMap (v : gmap string GoValue).

(** [type JSONNode struct] *)
Inductive JSONNode := mkJSONNode {
  Key : string;
  Value : GoValue;
  Children : list JSONNode;
  Expanded : bool;
  Depth : Z;
  IsArray : bool
}.

Definition JSONNode_setExpanded (node : JSONNode) (b : bool) : JSONNode :=
  mkJSONNode (Key node) (Value node) (Children node) b (Depth node) (IsArray node).

(** Induction over a node and, inside it, over its children. *)
Lemma JSONNode_nested_ind (P : JSONNode -> Prop) :
  (forall key value children expanded depth isArray,
      Forall P children ->
      P (mkJSONNode key value children expanded depth isArray)) ->
  forall node, P node.
Proof.
  intros step. fix IH 1. intros [key value children expanded depth isArray].
  apply step. induction children as [|c cs IHcs]; constructor; [apply IH | exact IHcs].
Qed.

(** A [*JSONNode] inside the tree: the child indices from the root. *)
Definition Ptr : Type := list nat.

Section BuildTree.

(** The order in which [for k, val := range v] visits a map is left
    unspecified by Go and differs from run to run.  Each iteration builds
    one child, independently of the others; [rangeOrder] stands for the
    order the runtime picks, as a rearrangement of the children listed in
    the map's own enumeration. *)
Variable rangeOrder : list JSONNode -> list JSONNode.

(** [func buildTree(key string, value any, depth int) *JSONNode] *)
Fixpoint buildTree (key : string) (value : GoValue) (depth : Z) : JSONNode :=
  match value with
  | VMap v =>
      let children :=
        map_fold (fun k val children =>
                    children ++ [buildTree k val (GoInt.add depth 1)]) [] v in
      mkJSONNode key value (rangeOrder children) false depth false
  | VSlice v =>
      let children :=
        (fix loop (i : nat) (v : list GoValue) : list JSONNode :=
           match v with
           | [] => []
           | val :: rest =>
               buildTree ("[" +:+ pretty i +:+ "]") val (GoInt.add depth 1)
               :: loop (S i) rest
           end) 0%nat v in
      mkJSONNode key value children false depth true
  | _ => mkJSONNode key value [] false depth false
  end.

End BuildTree.

(** ** Messages and commands of the event loop *)

(** [tea.Msg]: the message types the application switches on.
    [FileSelectedMsg] is declared outside the files at hand; the field
    [Path] is the one [App.Update] reads from it. *)
Inductive Msg :=
| KeyMsg (key : string)
| WindowSizeMsg (Width Height : Z)
| FileSelectedMsg (Path : string)
| FileLoadedMsg (Path Content : string) (Err : error)
| MarkdownLoadedMsg (Path Content : string) (Err : error)
| JSONLoadedMsg (Path : string) (Root : option JSONNode) (Err : error)
| EditorOpenMsg (Path Content : string) (Err : error)
| EditorSavedMsg (Path : string) (Err : error)
| EditorCancelledMsg (Path : string)
| OtherMsg.

(** [tea.Cmd]: the closures the components return, named by what they do
    when the runtime executes them. *)
Inductive Cmd :=
| tea_Quit
| TextLoadCmd (path : string)      (* reads [path], yields a [FileLoadedMsg] *)
| MarkdownLoadCmd (path : string)  (* renders [path], yields a [MarkdownLoadedMsg] *)
| JSONLoadCmd (path : string)      (* parses [path], yields a [JSONLoadedMsg] *)
| EditorOpenCmd (path : string)    (* reads [path], yields an [EditorOpenMsg] *)
| EditorSaveCmd                    (* writes the editor's buffer, yields an [EditorSavedMsg] *)
| EditorCancelCmd                  (* yields an [EditorCancelledMsg] *)
| TextareaCmd (id : nat).          (* a command of the textarea widget *)

(** ** The world outside the program *)

(** [os.DirEntry] as far as [loadDir] looks at it. *)
Record DirEntry := mkDirEntry { de_Name : string; de_IsDir : bool }.

(** The text-area widget of the editor ([textarea.Model]), as far as the
    editor drives it. *)
Record Textarea := mkTextarea {
  ta_value : string;
  ta_focus : bool;
  ta_width : Z;
  ta_height : Z
}.

(** Library and system calls whose results the program only consumes. *)
Record Env := mkEnv {
  (** [os.ReadDir(dir)]: [None] when it returns an error. *)
  os_ReadDir : string -> option (list DirEntry);
  (** [sort.Slice(files, less)]: the slice after sorting. *)
  sort_Slice : (DirEntry -> DirEntry -> bool) -> list DirEntry -> list DirEntry;
  (** [filepath.Join(dir, name)] and [filepath.Dir(path)]. *)
  filepath_Join : string -> string -> string;
  filepath_Dir : string -> string;
  (** [textarea.Model.Update(msg)]. *)
  textarea_Update : Textarea -> Msg -> Textarea * option Cmd
}.

(** A [for] loop over a slice whose body can fail (a panic, or fuel running
    out): the loop stops at the first failure. *)
Fixpoint forEach {A S} (body : S -> A -> option S) (xs : list A) (s : S) : option S :=
  match xs with
  | [] => Some s
  | x :: rest =>
      match body s x with
      | Some s' => forEach body rest s'
      | None => None
      end
  end.

(** ** nav.go: the navigation pane *)

Module NavPane.

(** [type FileEntry struct] *)
Record FileEntry := mkFileEntry {
  Name : string;
  Path : string;
  IsDir : bool;
  Expanded : bool;
  Depth : Z
}.

(** [type NavPane struct] *)
Record t := mk {
  width : Z;
  height : Z;
  focused : bool;
  root : string;
  entries : list FileEntry;
  cursor : Z;
  offset : Z
}.

Definition set_cursor (n : t) (c : Z) : t :=
  mk (width n) (height n) (focused n) (root n) (entries n) c (offset n).
Definition set_offset (n : t) (o : Z) : t :=
  mk (width n) (height n) (focused n) (root n) (entries n) (cursor n) o.
Definition set_entries (n : t) (es : list FileEntry) : t :=
  mk (width n) (height n) (focused n) (root n) es (cursor n) (offset n).
Definition set_root (n : t) (r : string) : t :=
  mk (width n) (height n) (focused n) r (entries n) (cursor n) (offset n).

(** [func (n *NavPane) SetSize(width, height int)] *)
Definition SetSize (n : t) (w h : Z) : t :=
  mk w h (focused n) (root n) (entries n) (cursor n) (offset n).

(** [func (n *NavPane) SetFocused(focused bool)] *)
Definition SetFocused (n : t) (f : bool) : t :=
  mk (width n) (height n) f (root n) (entries n) (cursor n) (offset n).

(** [func (n *NavPane) SelectedPath() string]: the slice is indexed only
    under the guard; [None] would be the index-out-of-range panic. *)
Definition SelectedPath (n : t) : option string :=
  if (0 <=? cursor n) && (cursor n <? GoInt.len (entries n))
  then Path <$> GoInt.index (entries n) (cursor n)
  else Some "".

(** The visible height [adjustOffset] works with. *)
Definition visibleHeight (n : t) : Z :=
  let visibleHeight := GoInt.sub (height n) 2 in
  if visibleHeight <? 1 then 1 else visibleHeight.

(** [func (n *NavPane) adjustOffset()] *)
Definition adjustOffset (n : t) : t :=
  let visibleHeight := visibleHeight n in
  (* Scroll up if cursor above viewport *)
  let n := if cursor n <? offset n then set_offset n (cursor n) else n in
  (* Scroll down if cursor below viewport *)
  if cursor n >=? GoInt.add (offset n) visibleHeight
  then set_offset n (GoInt.add (GoInt.sub (cursor n) visibleHeight) 1)
  else n.

(** [func (n *NavPane) moveCursor(delta int)] *)
Definition moveCursor (n : t) (delta : Z) : t :=
  let n := set_cursor n (GoInt.add (cursor n) delta) in
  let n := if cursor n <? 0 then set_cursor n 0 else n in
  let n := if cursor n >=? GoInt.len (entries n)
           then set_cursor n (GoInt.sub (GoInt.len (entries n)) 1) else n in
  adjustOffset n.

(** The comparison closure that [loadDir] gives to [sort.Slice]. *)
Definition less (fi fj : DirEntry) : bool :=
  let iDir := de_IsDir fi in
  let jDir := de_IsDir fj in
  if negb (Bool.eqb iDir jDir) then iDir
  else GoString.lt (GoString.ToLower (de_Name fi)) (GoString.ToLower (de_Name fj)).

(** The [continue] test of [loadDir]: hidden files, except [.git]. *)
Definition skipped (name : string) : bool :=
  GoString.HasPrefix name "." && negb (String.eqb name ".git").

Section WithEnv.

Variable env : Env.

(** [func (n *NavPane) loadDir(dir string, depth int)], on the [entries]
    field it appends to.  The recursion follows directories, which the
    file system does not bound: [fuel] bounds its depth and [None] is
    running out of it. *)
Fixpoint loadDir (fuel : nat) (dir : string) (depth : Z)
    (entries : list FileEntry) : option (list FileEntry) :=
  match fuel with
  | O => None
  | S fuel =>
      match os_ReadDir env dir with
      | None => Some entries
      | Some files =>
          (* Sort: directories first, then alphabetically *)
          let files := sort_Slice env less files in
          forEach (fun entries f =>
            let name := de_Name f in
            (* Skip hidden files (except .git for now) *)
            if skipped name then Some entries
            else
              let path := filepath_Join env dir name in
              let entry := mkFileEntry name path (de_IsDir f) false depth in
              let entries := entries ++ [entry] in
              (* If directory is expanded, load its contents *)
              if IsDir entry && Expanded entry
              then loadDir fuel path (GoInt.add depth 1) entries
              else Some entries) files entries
      end
  end.

(** [func (n *NavPane) loadEntries()] *)
Definition loadEntries (fuel : nat) (n : t) : option t :=
  set_entries n <$> loadDir fuel (root n) 0 [].

(** The index of the first entry with the given path, as the
    [for i, e := range n.entries] loops of [toggleOrOpen] and
    [goToParent] find it. *)
Fixpoint findPath (path : string) (i : Z) (es : list FileEntry) : option Z :=
  match es with
  | [] => None
  | e :: rest =>
      if String.eqb (Path e) path then Some i
      else findPath path (GoInt.add i 1) rest
  end.

(** [func (n *NavPane) toggleOrOpen()].  [entry] points into the slice
    that [loadEntries] then replaces: the flipped flag stays in the old
    backing array. *)
Definition toggleOrOpen (fuel : nat) (n : t) : option t :=
  if (cursor n <? 0) || (cursor n >=? GoInt.len (entries n)) then Some n
  else
    match GoInt.index (entries n) (cursor n) with
    | None => None
    | Some entry =>
        if IsDir entry then
          let entry :=
            mkFileEntry (Name entry) (Path entry) (IsDir entry)
                        (negb (Expanded entry)) (Depth entry) in
          n ← loadEntries fuel n;
          (* Try to keep cursor on same entry after reload *)
          Some match findPath (Path entry) 0 (entries n) with
               | Some i => set_cursor n i
               | None => n
               end
        else Some n
    end.

(** [func (n *NavPane) goToParent()] *)
Definition goToParent (fuel : nat) (n : t) : option t :=
  let parent := filepath_Dir env (root n) in
  if negb (String.eqb parent (root n)) then
    let oldRoot := root n in
    let n := set_root n parent in
    n ← loadEntries fuel n;
    (* Try to select the directory we came from *)
    Some match findPath oldRoot 0 (entries n) with
         | Some i => adjustOffset (set_cursor n i)
         | None => n
         end
  else Some n.

(** [func (n *NavPane) Update(msg tea.Msg) (tea.Model, tea.Cmd)]; the
    command is always [nil]. *)
Definition Update (fuel : nat) (n : t) (msg : Msg) : option t :=
  if negb (focused n) then Some n
  else
    match msg with
    | KeyMsg key =>
        if keyIs key ["j"; "down"] then Some (moveCursor n 1)
        else if keyIs key ["k"; "up"] then Some (moveCursor n (-1))
        else if keyIs key ["g"] then Some (set_offset (set_cursor n 0) 0)
        else if keyIs key ["G"] then
          Some (adjustOffset (set_cursor n (GoInt.sub (GoInt.len (entries n)) 1)))
        else if keyIs key ["enter"; "l"] then toggleOrOpen fuel n
        else if keyIs key ["h"; "backspace"] then goToParent fuel n
        else Some n
    | _ => Some n
    end.


End WithEnv.

End NavPane.

(** ** viewer.go: the plain-text viewer *)

Module TextViewer.

(** [type TextViewer struct] *)
Record t := mk {
  width : Z;
  height : Z;
  focused : bool;
  path : string;
  content : string;
  lines : list string;
  offset : Z;
  err : error
}.

Definition set_offset (t0 : t) (o : Z) : t :=
  mk (width t0) (height t0) (focused t0) (path t0) (content t0) (lines t0) o (err t0).

(** [func NewTextViewer() *TextViewer] *)
Definition NewTextViewer : t := mk 0 0 false "" "" [] 0 None.

(** [func (t *TextViewer) scroll(delta int)] *)
Definition scroll (t0 : t) (delta : Z) : t :=
  let t0 := set_offset t0 (GoInt.add (offset t0) delta) in
  let t0 := if offset t0 <? 0 then set_offset t0 0 else t0 in
  let maxOffset := GoInt.add (GoInt.sub (GoInt.len (lines t0)) (height t0)) 2 in
  let maxOffset := if maxOffset <? 0 then 0 else maxOffset in
  if offset t0 >? maxOffset then set_offset t0 maxOffset else t0.

(** [func (t *TextViewer) Update(msg tea.Msg) (tea.Model, tea.Cmd)]; the
    command is always [nil]. *)
Definition Update (t0 : t) (msg : Msg) : t :=
  match msg with
  | FileLoadedMsg Path Content Err =>
      if String.eqb Path (path t0) then
        mk (width t0) (height t0) (focused t0) (path t0)
           Content (GoString.SplitLines Content) 0 Err
      else t0
  | KeyMsg key =>
      if negb (focused t0) then t0
      else if keyIs key ["j"; "down"] then scroll t0 1
      else if keyIs key ["k"; "up"] then scroll t0 (-1)
      else if keyIs key ["d"; "ctrl+d"] then scroll t0 (GoInt.quot (height t0) 2)
      else if keyIs key ["u"; "ctrl+u"] then
        scroll t0 (GoInt.quot (GoInt.neg (height t0)) 2)
      else if keyIs key ["g"] then set_offset t0 0
      else if keyIs key ["G"] then
        set_offset t0
          (Z.max 0 (GoInt.add (GoInt.sub (GoInt.len (lines t0)) (height t0)) 2))
      else t0
  | _ => t0
  end.

(** [func (t *TextViewer) SetSize(width, height int)] *)
Definition SetSize (t0 : t) (w h : Z) : t :=
  mk w h (focused t0) (path t0) (content t0) (lines t0) (offset t0) (err t0).

(** [func (t *TextViewer) SetFocused(focused bool)] *)
Definition SetFocused (t0 : t) (f : bool) : t :=
  mk (width t0) (height t0) f (path t0) (content t0) (lines t0) (offset t0) (err t0).

(** [func (t *TextViewer) CanView(path string) bool] *)
Definition CanView (path : string) : bool :=
  (* TextViewer is the fallback, handles everything *)
  true.

(** [func (t *TextViewer) Load(path string) tea.Cmd] *)
Definition Load (t0 : t) (p : string) : t * Cmd :=
  (mk (width t0) (height t0) (focused t0) p (content t0) (lines t0) (offset t0) (err t0),
   TextLoadCmd p).

End TextViewer.

(** ** viewer_markdown.go: the markdown viewer *)

Module MarkdownViewer.

(** [type MarkdownViewer struct] *)
Record t := mk {
  width : Z;
  height : Z;
  focused : bool;
  path : string;
  rendered : string;
  lines : list string;
  offset : Z;
  err : error
}.

Definition set_offset (m : t) (o : Z) : t :=
  mk (width m) (height m) (focused m) (path m) (rendered m) (lines m) o (err m).

(** [func NewMarkdownViewer() *MarkdownViewer] *)
Definition NewMarkdownViewer : t := mk 0 0 false "" "" [] 0 None.

(** [func (m *MarkdownViewer) scroll(delta int)] *)
Definition scroll (m : t) (delta : Z) : t :=
  let m := set_offset m (GoInt.add (offset m) delta) in
  let m := if offset m <? 0 then set_offset m 0 else m in
  let maxOffset := GoInt.add (GoInt.sub (GoInt.len (lines m)) (height m)) 2 in
  let maxOffset := if maxOffset <? 0 then 0 else maxOffset in
  if offset m >? maxOffset then set_offset m maxOffset else m.

(** [func (m *MarkdownViewer) Update(msg tea.Msg) (tea.Model, tea.Cmd)] *)
Definition Update (m : t) (msg : Msg) : t :=
  match msg with
  | MarkdownLoadedMsg Path Content Err =>
      if String.eqb Path (path m) then
        mk (width m) (height m) (focused m) (path m)
           Content (GoString.SplitLines Content) 0 Err
      else m
  | KeyMsg key =>
      if negb (focused m) then m
      else if keyIs key ["j"; "down"] then scroll m 1
      else if keyIs key ["k"; "up"] then scroll m (-1)
      else if keyIs key ["d"; "ctrl+d"] then scroll m (GoInt.quot (height m) 2)
      else if keyIs key ["u"; "ctrl+u"] then
        scroll m (GoInt.quot (GoInt.neg (height m)) 2)
      else if keyIs key ["g"] then set_offset m 0
      else if keyIs key ["G"] then
        set_offset m
          (Z.max 0 (GoInt.add (GoInt.sub (GoInt.len (lines m)) (height m)) 2))
      else m
  | _ => m
  end.

(** [func (m *MarkdownViewer) SetSize(width, height int)] *)
Definition SetSize (m : t) (w h : Z) : t :=
  mk w h (focused m) (path m) (rendered m) (lines m) (offset m) (err m).

(** [func (m *MarkdownViewer) SetFocused(focused bool)] *)
Definition SetFocused (m : t) (f : bool) : t :=
  mk (width m) (height m) f (path m) (rendered m) (lines m) (offset m) (err m).

(** [func (m *MarkdownViewer) CanView(path string) bool] *)
Definition CanView (path : string) : bool :=
  let ext := GoString.ToLower (GoString.Ext path) in
  String.eqb ext ".md" || String.eqb ext ".markdown".

(** [func (m *MarkdownViewer) Load(path string) tea.Cmd] *)
Definition Load (m : t) (p : string) : t * Cmd :=
  (mk (width m) (height m) (focused m) p (rendered m) (lines m) (offset m) (err m),
   MarkdownLoadCmd p).

End MarkdownViewer.

(** ** The JSON viewer *)

Module JSONViewer.

(** [type JSONViewer struct]; [root] is [None] for a [nil] pointer. *)
Record t := mk {
  width : Z;
  height : Z;
  focused : bool;
  path : string;
  root : option JSONNode;
  cursor : Z;
  offset : Z;
  err : error
}.

Definition set_cursor (j : t) (c : Z) : t :=
  mk (width j) (height j) (focused j) (path j) (root j) c (offset j) (err j).
Definition set_offset (j : t) (o : Z) : t :=
  mk (width j) (height j) (focused j) (path j) (root j) (cursor j) o (err j).
Definition set_root (j : t) (r : option JSONNode) : t :=
  mk (width j) (height j) (focused j) (path j) r (cursor j) (offset j) (err j).

(** [func NewJSONViewer() *JSONViewer] *)
Definition NewJSONViewer : t := mk 0 0 false "" None 0 0 None.

(** [func (j *JSONViewer) collectVisible(node *JSONNode, nodes *[]*JSONNode)]:
    [p] is the address of [node]; the slice holds each pointer together
    with the node it points at. *)
Fixpoint collectVisible (p : Ptr) (node : JSONNode)
    (nodes : list (Ptr * JSONNode)) : list (Ptr * JSONNode) :=
  let nodes := nodes ++ [(p, node)] in
  if Expanded node then
    (fix loop (i : nat) (children : list JSONNode)
         (nodes : list (Ptr * JSONNode)) : list (Ptr * JSONNode) :=
       match children with
       | [] => nodes
       | child :: rest => loop (S i) rest (collectVisible (p ++ [i]) child nodes)
       end) 0%nat (Children node) nodes
  else nodes.

(** [func (j *JSONViewer) visibleNodes() []*JSONNode] *)
Definition visibleNodes (j : t) : list (Ptr * JSONNode) :=
  match root j with
  | None => []
  | Some r => collectVisible [] r []
  end.

(** A write through a [*JSONNode]: the node at address [p] becomes
    [f] of itself; the rest of the tree is untouched. *)
Fixpoint updateAt (f : JSONNode -> JSONNode) (p : Ptr) (node : JSONNode) : JSONNode :=
  match p with
  | [] => f node
  | i :: p' =>
      mkJSONNode (Key node) (Value node)
                 (alter (updateAt f p') i (Children node))
                 (Expanded node) (Depth node) (IsArray node)
  end.

(** [func (j *JSONViewer) ensureVisible()] *)
Definition ensureVisible (j : t) : t :=
  let viewHeight := GoInt.sub (height j) 2 in
  let j := if cursor j <? offset j then set_offset j (cursor j) else j in
  if cursor j >=? GoInt.add (offset j) viewHeight
  then set_offset j (GoInt.add (GoInt.sub (cursor j) viewHeight) 1)
  else j.

(** [node.Expanded = !node.Expanded] and [node.Expanded = false] on the
    node the pointer [p] addresses. *)
Definition flipExpanded (j : t) (p : Ptr) : t :=
  set_root j (updateAt (fun n => JSONNode_setExpanded n (negb (Expanded n))) p <$> root j).
Definition clearExpanded (j : t) (p : Ptr) : t :=
  set_root j (updateAt (fun n => JSONNode_setExpanded n false) p <$> root j).

(** [func (j *JSONViewer) Update(msg tea.Msg) (tea.Model, tea.Cmd)]; the
    command is always [nil].  [None] is the panic of [visible[j.cursor]]
    with an index out of range. *)
Definition Update (j : t) (msg : Msg) : option t :=
  match msg with
  | JSONLoadedMsg Path Root Err =>
      if String.eqb Path (path j) then
        Some (mk (width j) (height j) (focused j) (path j) Root 0 0 Err)
      else Some j
  | KeyMsg key =>
      if negb (focused j) then Some j
      else
        let visible := visibleNodes j in
        if keyIs key ["j"; "down"] then
          if cursor j <? GoInt.sub (GoInt.len visible) 1
          then Some (ensureVisible (set_cursor j (GoInt.add (cursor j) 1)))
          else Some j
        else if keyIs key ["k"; "up"] then
          if cursor j >? 0
          then Some (ensureVisible (set_cursor j (GoInt.sub (cursor j) 1)))
          else Some j
        else if keyIs key ["enter"; "l"; "right"] then
          if cursor j <? GoInt.len visible then
            '(p, node) ← GoInt.index visible (cursor j);
            if GoInt.len (Children node) >? 0
            then Some (flipExpanded j p)
            else Some j
          else Some j
        else if keyIs key ["h"; "left"] then
          (* Collapse current node or go to parent *)
          if cursor j <? GoInt.len visible then
            '(p, node) ← GoInt.index visible (cursor j);
            if Expanded node && (GoInt.len (Children node) >? 0)
            then Some (clearExpanded j p)
            else Some j
          else Some j
        else if keyIs key ["d"; "ctrl+d"] then
          let j := set_cursor j (GoInt.add (cursor j) (GoInt.quot (height j) 2)) in
          let j := if cursor j >=? GoInt.len visible
                   then set_cursor j (GoInt.sub (GoInt.len visible) 1) else j in
          Some (ensureVisible j)
        else if keyIs key ["u"; "ctrl+u"] then
          let j := set_cursor j (GoInt.sub (cursor j) (GoInt.quot (height j) 2)) in
          let j := if cursor j <? 0 then set_cursor j 0 else j in
          Some (ensureVisible j)
        else if keyIs key ["g"] then Some (set_offset (set_cursor j 0) 0)
        else if keyIs key ["G"] then
          Some (ensureVisible (set_cursor j (GoInt.sub (GoInt.len visible) 1)))
        else Some j
  | _ => Some j
  end.

(** [func (j *JSONViewer) SetSize(width, height int)] *)
Definition SetSize (j : t) (w h : Z) : t :=
  mk w h (focused j) (path j) (root j) (cursor j) (offset j) (err j).

(** [func (j *JSONViewer) SetFocused(focused bool)] *)
Definition SetFocused (j : t) (f : bool) : t :=
  mk (width j) (height j) f (path j) (root j) (cursor j) (offset j) (err j).

(** [func (j *JSONViewer) CanView(path string) bool] *)
Definition CanView (path : string) : bool :=
  let ext := GoString.ToLower (GoString.Ext path) in
  String.eqb ext ".json".

(** [func (j *JSONViewer) Load(path string) tea.Cmd] *)
Definition Load (j : t) (p : string) : t * Cmd :=
  (mk (width j) (height j) (focused j) p (root j) (cursor j) (offset j) (err j),
   JSONLoadCmd p).


End JSONViewer.

(** ** viewer.go: the viewer router *)

Module ViewerRouter.

(** The three viewer objects that [NewViewerRouter] allocates; a [Viewer]
    interface value held by the router points to one of them. *)
Inductive Viewer := Markdown | JSON | Text.

(** [type ViewerRouter struct], with the viewer objects its pointers
    refer to. *)
Record t := mk {
  viewers : list Viewer;
  current : option Viewer;
  width : Z;
  height : Z;
  focused : bool;
  md : MarkdownViewer.t;
  jsonv : JSONViewer.t;
  text : TextViewer.t
}.

Definition set_current (r : t) (c : option Viewer) : t :=
  mk (viewers r) c (width r) (height r) (focused r) (md r) (jsonv r) (text r).
Definition set_md (r : t) (m : MarkdownViewer.t) : t :=
  mk (viewers r) (current r) (width r) (height r) (focused r) m (jsonv r) (text r).
Definition set_jsonv (r : t) (j : JSONViewer.t) : t :=
  mk (viewers r) (current r) (width r) (height r) (focused r) (md r) j (text r).
Definition set_text (r : t) (x : TextViewer.t) : t :=
  mk (viewers r) (current r) (width r) (height r) (focused r) (md r) (jsonv r) x.

(** [func NewViewerRouter() *ViewerRouter] *)
Definition NewViewerRouter : t :=
  mk [Markdown; JSON; Text] (* order matters: specific viewers before fallback *)
     (Some Text) 0 0 false
     MarkdownViewer.NewMarkdownViewer JSONViewer.NewJSONViewer TextViewer.NewTextViewer.

(** The methods of the [Viewer] interface, dispatched on the object. *)
Definition CanView (v : Viewer) (path : string) : bool :=
  match v with
  | Markdown => MarkdownViewer.CanView path
  | JSON => JSONViewer.CanView path
  | Text => TextViewer.CanView path
  end.

Definition viewerSetSize (r : t) (v : Viewer) (w h : Z) : t :=
  match v with
  | Markdown => set_md r (MarkdownViewer.SetSize (md r) w h)
  | JSON => set_jsonv r (JSONViewer.SetSize (jsonv r) w h)
  | Text => set_text r (TextViewer.SetSize (text r) w h)
  end.

Definition viewerSetFocused (r : t) (v : Viewer) (f : bool) : t :=
  match v with
  | Markdown => set_md r (MarkdownViewer.SetFocused (md r) f)
  | JSON => set_jsonv r (JSONViewer.SetFocused (jsonv r) f)
  | Text => set_text r (TextViewer.SetFocused (text r) f)
  end.

Definition viewerLoad (r : t) (v : Viewer) (path : string) : t * Cmd :=
  match v with
  | Markdown => let '(m, c) := MarkdownViewer.Load (md r) path in (set_md r m, c)
  | JSON => let '(j, c) := JSONViewer.Load (jsonv r) path in (set_jsonv r j, c)
  | Text => let '(x, c) := TextViewer.Load (text r) path in (set_text r x, c)
  end.

Definition viewerUpdate (r : t) (v : Viewer) (msg : Msg) : option t :=
  match v with
  | Markdown => Some (set_md r (MarkdownViewer.Update (md r) msg))
  | JSON => set_jsonv r <$> JSONViewer.Update (jsonv r) msg
  | Text => Some (set_text r (TextViewer.Update (text r) msg))
  end.

(** [func (r *ViewerRouter) Update(msg tea.Msg) (tea.Model, tea.Cmd)]; the
    viewers return no command. *)
Definition Update (r : t) (msg : Msg) : option t :=
  match current r with
  | None => Some r
  | Some v => viewerUpdate r v msg
  end.

(** [func (r *ViewerRouter) SetSize(width, height int)] *)
Definition SetSize (r : t) (w h : Z) : t :=
  let r := mk (viewers r) (current r) w h (focused r) (md r) (jsonv r) (text r) in
  foldl (fun r v => viewerSetSize r v w h) r (viewers r).

(** [func (r *ViewerRouter) SetFocused(focused bool)] *)
Definition SetFocused (r : t) (f : bool) : t :=
  let r := mk (viewers r) (current r) (width r) (height r) f (md r) (jsonv r) (text r) in
  match current r with
  | Some v => viewerSetFocused r v f
  | None => r
  end.

(** The search of [OpenFile]'s loop: the first viewer of the slice whose
    [CanView] accepts [path]. *)
Fixpoint firstCanView (vs : list Viewer) (path : string) : option Viewer :=
  match vs with
  | [] => None
  | v :: rest => if CanView v path then Some v else firstCanView rest path
  end.

(** [func (r *ViewerRouter) OpenFile(path string) tea.Cmd]; [None] is the
    panic of [r.viewers[0]] on an empty slice. *)
Definition OpenFile (r : t) (path : string) : option (t * Cmd) :=
  (* Find first viewer that can handle this file *)
  match firstCanView (viewers r) path with
  | Some v =>
      let r := set_current r (Some v) in
      let r := viewerSetSize r v (width r) (height r) in
      let r := viewerSetFocused r v (focused r) in
      Some (viewerLoad r v path)
  | None =>
      (* Fallback to first viewer (text) *)
      v ← GoInt.index (viewers r) 0;
      let r := set_current r (Some v) in
      Some (viewerLoad r v path)
  end.

End ViewerRouter.

(** ** editor.go: the editor *)

Module Editor.

(** [type Editor struct] *)
Record t := mk {
  width : Z;
  height : Z;
  focused : bool;
  path : string;
  textarea : Textarea;
  modified : bool;
  err : error;
  status : string
}.

Definition set_textarea (e : t) (ta : Textarea) : t :=
  mk (width e) (height e) (focused e) (path e) ta (modified e) (err e) (status e).

(** [func NewEditor() *Editor] *)
Definition NewEditor : t := mk 0 0 false "" (mkTextarea "" false 0 0) false None "".

(** [func (e *Editor) updateSize()] *)
Definition updateSize (e : t) : t :=
  let ta := textarea e in
  set_textarea e (mkTextarea (ta_value ta) (ta_focus ta)
                             (width e) (GoInt.sub (height e) 3)).

(** [func (e *Editor) SetSize(width, height int)] *)
Definition SetSize (e : t) (w h : Z) : t :=
  updateSize (mk w h (focused e) (path e) (textarea e) (modified e) (err e) (status e)).

(** [func (e *Editor) SetFocused(focused bool)] *)
Definition SetFocused (e : t) (f : bool) : t :=
  let ta := textarea e in
  mk (width e) (height e) f (path e)
     (mkTextarea (ta_value ta) f (ta_width ta) (ta_height ta))
     (modified e) (err e) (status e).

(** [func (e *Editor) Open(path string) tea.Cmd] *)
Definition Open (e : t) (p : string) : t * Cmd :=
  (mk (width e) (height e) (focused e) p (textarea e) (modified e) (err e) (status e),
   EditorOpenCmd p).

(** [func (e *Editor) Update(msg tea.Msg) (tea.Model, tea.Cmd)] *)
Definition Update (env : Env) (e : t) (msg : Msg) : t * list Cmd :=
  match msg with
  | EditorOpenMsg Path Content Err =>
      let ta := textarea e in
      let ta := mkTextarea Content true (ta_width ta) (ta_height ta) in
      (updateSize (mk (width e) (height e) (focused e) Path ta false Err ""), [])
  | KeyMsg key =>
      if negb (focused e) then (e, [])
      else if keyIs key ["ctrl+s"] then (e, [EditorSaveCmd])
      else if keyIs key ["esc"] then (e, [EditorCancelCmd])
      else
        let '(ta, cmd) := textarea_Update env (textarea e) msg in
        (mk (width e) (height e) (focused e) (path e) ta true (err e) (status e),
         option_list cmd)
  | _ =>
      let '(ta, cmd) := textarea_Update env (textarea e) msg in
      (set_textarea e ta, option_list cmd)
  end.

(** The message the closure of [save] yields: the write's error, if any. *)
Definition savedMsg (e : t) (writeErr : error) : Msg := EditorSavedMsg (path e) writeErr.

(** [func isTextFile(path string) bool] *)
Definition isTextFile (path : string) : bool :=
  let ext := GoString.ToLower (GoString.Ext path) in
  existsb (String.eqb ext)
    [".txt"; ".md"; ".markdown"; ".go"; ".py"; ".js"; ".ts";
     ".json"; ".yaml"; ".yml"; ".toml"; ".html"; ".css"; ".xml";
     ".sh"; ".bash"; ".zsh"; ".c"; ".h"; ".cpp"; ".hpp";
     ".rs"; ".rb"; ".java"; ".sql"; ".graphql";
     ".conf"; ".cfg"; ".ini"; ".gitignore"; ".dockerignore"; ""].

End Editor.

(** ** The application model *)

Module App.

(** [type Focus int] *)
Inductive Focus := FocusNav | FocusViewer.

(** [type Mode int] *)
Inductive Mode := ModeNav | ModeViewer | ModeEditor.

(** [type App struct] *)
Record t := mk {
  width : Z;
  height : Z;
  ready : bool;
  focus : Focus;
  mode : Mode;
  nav : NavPane.t;
  viewer : ViewerRouter.t;
  editor : Editor.t;
  editPath : string (* path being edited *)
}.

Definition set_nav (a : t) (n : NavPane.t) : t :=
  mk (width a) (height a) (ready a) (focus a) (mode a) n (viewer a) (editor a) (editPath a).
Definition set_viewer (a : t) (v : ViewerRouter.t) : t :=
  mk (width a) (height a) (ready a) (focus a) (mode a) (nav a) v (editor a) (editPath a).
Definition set_editor (a : t) (e : Editor.t) : t :=
  mk (width a) (height a) (ready a) (focus a) (mode a) (nav a) (viewer a) e (editPath a).
Definition set_focus (a : t) (f : Focus) : t :=
  mk (width a) (height a) (ready a) f (mode a) (nav a) (viewer a) (editor a) (editPath a).
Definition set_mode (a : t) (m : Mode) : t :=
  mk (width a) (height a) (ready a) (focus a) m (nav a) (viewer a) (editor a) (editPath a).
Definition set_editPath (a : t) (p : string) : t :=
  mk (width a) (height a) (ready a) (focus a) (mode a) (nav a) (viewer a) (editor a) p.

Definition Focus_eqb (f g : Focus) : bool :=
  match f, g with
  | FocusNav, FocusNav | FocusViewer, FocusViewer => true
  | _, _ => false
  end.

Definition Mode_eqb (m k : Mode) : bool :=
  match m, k with
  | ModeNav, ModeNav | ModeViewer, ModeViewer | ModeEditor, ModeEditor => true
  | _, _ => false
  end.

(** [int(float64(a.width) * navPaneRatio)] with [navPaneRatio = 0.25]: for
    a width below 2^53 the conversion to [float64] and the multiplication
    by a power of two are exact, and the conversion back truncates toward
    zero. *)
Definition navWidth (a : t) : Z := Z.quot (width a) 4.

(** [func (a *App) cycleFocus()] *)
Definition cycleFocus (a : t) : t :=
  let a := if Focus_eqb (focus a) FocusNav
           then set_focus a FocusViewer else set_focus a FocusNav in
  let a := set_nav a (NavPane.SetFocused (nav a) (Focus_eqb (focus a) FocusNav)) in
  set_viewer a (ViewerRouter.SetFocused (viewer a) (Focus_eqb (focus a) FocusViewer)).

(** [func (a *App) updatePaneSizes()] *)
Definition updatePaneSizes (a : t) : t :=
  let navWidth := navWidth a in
  let rightWidth := GoInt.sub (GoInt.sub (width a) navWidth) 1 in
  let a := set_nav a (NavPane.SetSize (nav a) navWidth (height a)) in
  let a := set_viewer a (ViewerRouter.SetSize (viewer a) rightWidth (height a)) in
  set_editor a (Editor.SetSize (editor a) rightWidth (height a)).

Section WithEnv.

Variable env : Env.
(** Depth bound for the directory walk of the navigation pane. *)
Variable fuel : nat.

(** [func (a *App) updateFocusedPane(msg tea.Msg) tea.Cmd]; neither pane
    returns a command. *)
Definition updateFocusedPane (a : t) (msg : Msg) : option t :=
  if Focus_eqb (focus a) FocusNav
  then set_nav a <$> NavPane.Update env fuel (nav a) msg
  else set_viewer a <$> ViewerRouter.Update (viewer a) msg.

(** [func (a *App) Update(msg tea.Msg) (tea.Model, tea.Cmd)]: the new
    model and the batch of commands. *)
Definition Update (a : t) (msg : Msg) : option (t * list Cmd) :=
  match msg with
  | KeyMsg key =>
      (* In editor mode, only editor handles keys (except ctrl+c for emergency exit) *)
      if Mode_eqb (mode a) ModeEditor then
        if keyIs key ["ctrl+c"] then Some (a, [tea_Quit])
        else
          let '(e, cmds) := Editor.Update env (editor a) msg in
          Some (set_editor a e, cmds)
      else if keyIs key ["q"; "ctrl+c"] then Some (a, [tea_Quit])
      else if keyIs key ["tab"] then Some (cycleFocus a, [])
      else if keyIs key ["e"]
              && (Focus_eqb (focus a) FocusViewer
                  && negb (String.eqb (editPath a) "")
                  && Editor.isTextFile (editPath a)) then
        (* Open editor for current file (if viewing a text file) *)
        let a := set_mode a ModeEditor in
        let a := set_editor a
                   (Editor.SetSize (editor a)
                      (GoInt.sub (GoInt.sub (width a) (navWidth a)) 1) (height a)) in
        let a := set_editor a (Editor.SetFocused (editor a) true) in
        let a := set_viewer a (ViewerRouter.SetFocused (viewer a) false) in
        let '(e, cmd) := Editor.Open (editor a) (editPath a) in
        Some (set_editor a e, [cmd])
      else
        (* Forward key events to focused pane *)
        a ← updateFocusedPane a msg; Some (a, [])
  | WindowSizeMsg Width Height =>
      let a := mk Width Height true (focus a) (mode a)
                  (nav a) (viewer a) (editor a) (editPath a) in
      Some (updatePaneSizes a, [])
  | FileSelectedMsg Path =>
      (* Track path for potential editing *)
      let a := set_editPath a Path in
      (* Open file in viewer *)
      '(v, cmd) ← ViewerRouter.OpenFile (viewer a) Path;
      Some (set_viewer a v, [cmd])
  | FileLoadedMsg _ _ _ | MarkdownLoadedMsg _ _ _ | JSONLoadedMsg _ _ _ =>
      (* Forward to viewer *)
      v ← ViewerRouter.Update (viewer a) msg;
      Some (set_viewer a v, [])
  | EditorOpenMsg _ _ _ =>
      (* Forward to editor *)
      let '(e, cmds) := Editor.Update env (editor a) msg in
      Some (set_editor a e, cmds)
  | EditorSavedMsg Path Err =>
      (* Return to viewer mode and refresh *)
      let a := set_mode a ModeViewer in
      let a := set_editor a (Editor.SetFocused (editor a) false) in
      let a := set_viewer a (ViewerRouter.SetFocused (viewer a) true) in
      let a := set_focus a FocusViewer in
      (* Reload file in viewer to show changes *)
      match Err with
      | None =>
          '(v, cmd) ← ViewerRouter.OpenFile (viewer a) Path;
          Some (set_viewer a v, [cmd])
      | Some _ => Some (a, [])
      end
  | EditorCancelledMsg Path =>
      (* Return to viewer mode without saving *)
      let a := set_mode a ModeViewer in
      let a := set_editor a (Editor.SetFocused (editor a) false) in
      let a := set_viewer a (ViewerRouter.SetFocused (viewer a) true) in
      let a := set_focus a FocusViewer in
      Some (a, [])
  | OtherMsg => Some (a, [])
  end.

End WithEnv.

(** What [View] puts on the right-hand side as an error text: in editor
    mode the editor's [err] (when a file is open), otherwise the [err] of
    the current viewer (when it has a path). *)
Definition shownError (a : t) : error :=
  if Mode_eqb (mode a) ModeEditor then
    if String.eqb (Editor.path (editor a)) "" then None else Editor.err (editor a)
  else
    let r := viewer a in
    match ViewerRouter.current r with
    | None => None
    | Some ViewerRouter.Markdown =>
        if String.eqb (MarkdownViewer.path (ViewerRouter.md r)) "" then None
        else MarkdownViewer.err (ViewerRouter.md r)
    | Some ViewerRouter.JSON =>
        if String.eqb (JSONViewer.path (ViewerRouter.jsonv r)) "" then None
        else JSONViewer.err (ViewerRouter.jsonv r)
    | Some ViewerRouter.Text =>
        if String.eqb (TextViewer.path (ViewerRouter.text r)) "" then None
        else TextViewer.err (ViewerRouter.text r)
    end.

(** The status line of the editor, the other place [View] can put a
    message: shown in editor mode when it is not empty. *)
Definition shownStatus (a : t) : string :=
  if Mode_eqb (mode a) ModeEditor then Editor.status (editor a) else "".

End App.

(** * Properties *)

(** ** Integer arithmetic without wrap-around *)

Definition smallInt (z : Z) : Prop := - 2 ^ 62 < z < 2 ^ 62.

Lemma GoInt_add_small a b : smallInt a -> smallInt b -> GoInt.add a b = a + b.
Proof.
  unfold smallInt, GoInt.add. intros Ha Hb. apply GoInt.wrap_id.
  unfold GoInt.inRange, GoInt.minInt, GoInt.maxInt. lia.
Qed.

Lemma GoInt_sub_small a b : smallInt a -> smallInt b -> GoInt.sub a b = a - b.
Proof.
  unfold smallInt, GoInt.sub. intros Ha Hb. apply GoInt.wrap_id.
  unfold GoInt.inRange, GoInt.minInt, GoInt.maxInt. lia.
Qed.

Lemma GoInt_quot2_small a : 0 <= a -> smallInt a -> GoInt.quot a 2 = a / 2.
Proof.
  unfold smallInt, GoInt.quot. intros H0 Ha.
  rewrite Z.quot_div_nonneg by lia.
  apply GoInt.wrap_id. unfold GoInt.inRange, GoInt.minInt, GoInt.maxInt.
  pose proof (Z.div_pos a 2 H0 ltac:(lia)).
  pose proof (Z.div_le_upper_bound a 2 a ltac:(lia) ltac:(lia)). lia.
Qed.

(** Rewrites the machine operations whose operands are visibly small. *)
Ltac go_arith :=
  repeat first
    [ rewrite GoInt_add_small by (unfold smallInt; lia)
    | rewrite GoInt_sub_small by (unfold smallInt; lia) ].

(** ** The navigation pane's viewport *)


Lemma NavPane_visibleHeight_eq n :
  0 <= NavPane.height n < 2 ^ 62 ->
  NavPane.visibleHeight n = Z.max 1 (NavPane.height n - 2).
Proof.
  intros H. unfold NavPane.visibleHeight. go_arith.
  destruct (Z.ltb_spec (NavPane.height n - 2) 1); lia.
Qed.

Lemma NavPane_adjustOffset_fields n :
  NavPane.entries (NavPane.adjustOffset n) = NavPane.entries n /\
  NavPane.height (NavPane.adjustOffset n) = NavPane.height n /\
  NavPane.cursor (NavPane.adjustOffset n) = NavPane.cursor n.
Proof.
  unfold NavPane.adjustOffset.
  destruct (NavPane.cursor n <? NavPane.offset n); simpl;
    match goal with |- context [if ?b then _ else _] => destruct b end; done.
Qed.



(** A decided key list is a membership. *)
Lemma keyIs_In key names : keyIs key names = true -> In key names.
Proof.
  unfold keyIs. rewrite existsb_exists. intros (x & Hx & He).
  apply String.eqb_eq in He. by subst.
Qed.

(** Decides the [case] tests of a key switch once the key is known. *)
Ltac decide_keys :=
  repeat match goal with
    | |- context [keyIs ?k ?l] =>
        let b := eval vm_compute in (keyIs k l) in
        change (keyIs k l) with b
    end;
  cbv iota.





Lemma NavPane_moveCursor_fields n delta :
  NavPane.entries (NavPane.moveCursor n delta) = NavPane.entries n /\
  NavPane.height (NavPane.moveCursor n delta) = NavPane.height n.
Proof.
  unfold NavPane.moveCursor. cbv zeta.
  match goal with |- context [NavPane.adjustOffset ?x] =>
    destruct (NavPane_adjustOffset_fields x) as (-> & -> & _) end.
  simpl. destruct (_ <? 0); simpl; destruct (_ >=? _); simpl; done.
Qed.




(** ** The JSON viewer's viewport *)


Lemma JSONViewer_ensureVisible_fields j :
  JSONViewer.root (JSONViewer.ensureVisible j) = JSONViewer.root j /\
  JSONViewer.height (JSONViewer.ensureVisible j) = JSONViewer.height j /\
  JSONViewer.cursor (JSONViewer.ensureVisible j) = JSONViewer.cursor j.
Proof.
  unfold JSONViewer.ensureVisible. cbv zeta.
  destruct (JSONViewer.cursor j <? JSONViewer.offset j); simpl;
    match goal with |- context [if ?b then _ else _] => destruct b end; done.
Qed.






(** ** A sample world *)

Module Sample.

(** Insertion sort, one way [sort.Slice] can meet its contract. *)
Fixpoint insertBy {A} (less : A -> A -> bool) (x : A) (l : list A) : list A :=
  match l with
  | [] => [x]
  | y :: rest => if less x y then x :: l else y :: insertBy less x rest
  end.

Definition sortBy {A} (less : A -> A -> bool) (l : list A) : list A :=
  foldr (insertBy less) [] l.

(** A file system with the directory [/proj] holding [b.txt], [A.txt] and
    the directory [sub], an empty directory [/empty], and nothing else. *)
Definition readDir (dir : string) : option (list DirEntry) :=
  if String.eqb dir "/proj" then
    Some [mkDirEntry "b.txt" false; mkDirEntry "A.txt" false; mkDirEntry "sub" true]
  else if String.eqb dir "/empty" then Some []
  else None.

Definition env : Env :=
  mkEnv readDir (@sortBy DirEntry)
        (fun dir name => dir +:+ "/" +:+ name)
        (fun _ => "/")
        (fun ta _ => (ta, None)).

(** A scalar leaf and a root with nine leaves: ten visible nodes. *)
Definition leaf (i : nat) : JSONNode :=
  mkJSONNode ("[" +:+ pretty i +:+ "]") VNil [] false 1 false.

Definition root10 : JSONNode :=
  mkJSONNode "" (VSlice (replicate 9 VNil)) (leaf <$> seq 0 9) true 0 true.

(** A focused JSON viewer on [root10] with the given height, cursor and
    offset. *)
Definition viewer10 (height cursor offset : Z) : JSONViewer.t :=
  JSONViewer.mk 80 height true "/proj/data.json" (Some root10) cursor offset None.

(** A focused navigation pane over an empty listing. *)
Definition emptyPane : NavPane.t := NavPane.mk 20 24 true "/empty" [] 0 0.

End Sample.

(** ** C1: the viewport invariant *)




(** The listing of [/proj] in the sample world (see C6). *)
Definition projEntries : list NavPane.FileEntry :=
  [NavPane.mkFileEntry "sub" "/proj/sub" true false 0;
   NavPane.mkFileEntry "A.txt" "/proj/A.txt" false false 0;
   NavPane.mkFileEntry "b.txt" "/proj/b.txt" false false 0].

Definition projPane : NavPane.t := NavPane.mk 20 24 true "/proj" projEntries 0 0.




(** ** C7: half-page moves *)







(** ** C10: the selected path *)

(** C10: [SelectedPath] never indexes outside the entries: it always
    returns, it returns the empty string whenever the cursor is outside the
    bounds of the list (in particular for an empty list), and the path of
    the entry under the cursor otherwise. *)
Theorem SelectedPath_guarded (n : NavPane.t) :
  (exists s, NavPane.SelectedPath n = Some s) /\
  (NavPane.cursor n < 0 \/ GoInt.len (NavPane.entries n) <= NavPane.cursor n ->
   NavPane.SelectedPath n = Some "") /\
  (NavPane.entries n = [] -> NavPane.SelectedPath n = Some "") /\
  (forall e, GoInt.index (NavPane.entries n) (NavPane.cursor n) = Some e ->
             NavPane.SelectedPath n = Some (NavPane.Path e)).
Proof.
  unfold NavPane.SelectedPath.
  destruct (Z.leb_spec 0 (NavPane.cursor n)) as [H0|H0];
    destruct (Z.ltb_spec (NavPane.cursor n) (GoInt.len (NavPane.entries n))) as [H1|H1];
    simpl.
  - destruct (GoInt.index_Some (NavPane.entries n) (NavPane.cursor n)) as [e He]; [lia|].
    rewrite He. simpl. split_and!.
    + eauto.
    + lia.
    + intros Hnil. rewrite Hnil in H1. unfold GoInt.len in H1. simpl in H1. lia.
    + by intros ? [= <-].
  - rewrite GoInt.index_None by lia. split_and!; eauto. intros ? [=].
  - rewrite GoInt.index_None by lia. split_and!; eauto. intros ? [=].
  - rewrite GoInt.index_None by lia. split_and!; eauto. intros ? [=].
Qed.

(** C10 at a pane whose cursor a move over an empty list has taken to -1,
    and at a pane with the cursor on its second entry. *)
Lemma SelectedPath_guarded_witness :
  NavPane.SelectedPath (NavPane.moveCursor Sample.emptyPane 1) = Some "" /\
  NavPane.SelectedPath (NavPane.moveCursor projPane 1) = Some "/proj/A.txt".
Proof.
  split.
  - apply (proj1 (proj2 (SelectedPath_guarded _))). left. vm_compute. reflexivity.
  - apply (proj2 (proj2 (proj2 (SelectedPath_guarded _)))
             (NavPane.mkFileEntry "A.txt" "/proj/A.txt" false false 0)).
    vm_compute. reflexivity.
Defined.

(** ** C2: the visible sequence *)

(** [f i x] for every element [x] of a list with its index [i], counting
    from [i0], concatenated. *)
Fixpoint flatMapi {A B} (f : nat -> A -> list B) (i0 : nat) (l : list A) : list B :=
  match l with
  | [] => []
  | x :: rest => f i0 x ++ flatMapi f (S i0) rest
  end.

(** The address [q] inside child [i], seen from the parent; and an address
    inside the node at [p], seen from the root. *)
Definition under (i : nat) (qn : Ptr * JSONNode) : Ptr * JSONNode := (i :: qn.1, qn.2).
Definition below (p : Ptr) (qn : Ptr * JSONNode) : Ptr * JSONNode := (p ++ qn.1, qn.2).

(** Every node of a tree with its address, in depth-first pre-order. *)
Fixpoint allNodes (node : JSONNode) : list (Ptr * JSONNode) :=
  ([], node) :: flatMapi (fun i child => under i <$> allNodes child) 0%nat (Children node).

(** The node at an address. *)
Fixpoint nodeAt (node : JSONNode) (q : Ptr) : option JSONNode :=
  match q with
  | [] => Some node
  | i :: q' => child ← Children node !! i; nodeAt child q'
  end.

(** All proper ancestors of the node at [q] have [Expanded = true]. *)
Fixpoint ancestorsExpanded (node : JSONNode) (q : Ptr) : bool :=
  match q with
  | [] => true
  | i :: q' =>
      Expanded node &&
      match Children node !! i with
      | Some child => ancestorsExpanded child q'
      | None => false
      end
  end.

(** The visible sequence as the specification words it: of all nodes in
    depth-first pre-order, those without a collapsed ancestor. *)
Definition visibleSpec (node : JSONNode) : list (Ptr * JSONNode) :=
  filter (fun qn => Is_true (ancestorsExpanded node qn.1)) (allNodes node).

(** The loop of [collectVisible] over the children, from index [i]. *)
Fixpoint collectChildren (p : Ptr) (i : nat) (children : list JSONNode)
    (nodes : list (Ptr * JSONNode)) : list (Ptr * JSONNode) :=
  match children with
  | [] => nodes
  | child :: rest =>
      collectChildren p (S i) rest (JSONViewer.collectVisible (p ++ [i]) child nodes)
  end.

Lemma collectVisible_unfold p node nodes :
  JSONViewer.collectVisible p node nodes =
  let nodes := nodes ++ [(p, node)] in
  if Expanded node then collectChildren p 0 (Children node) nodes else nodes.
Proof.
  destruct node as [key value children expanded depth isArray].
  cbn [JSONViewer.collectVisible Expanded Children]. cbv zeta.
  destruct expanded; [|done].
  generalize (nodes ++ [(p, mkJSONNode key value children true depth isArray)]).
  generalize 0%nat.
  induction children as [|c cs IH]; intros i acc; [done|].
  cbn [collectChildren]. rewrite <- IH. reflexivity.
Qed.

Lemma flatMapi_app {A B} (f : nat -> A -> list B) i (l1 l2 : list A) :
  flatMapi f i (l1 ++ l2) = flatMapi f i l1 ++ flatMapi f (i + length l1) l2.
Proof.
  revert i. induction l1 as [|x l1 IH]; intros i; simpl.
  - by rewrite Nat.add_0_r.
  - rewrite IH, <- app_assoc. do 3 f_equal. lia.
Qed.

Lemma flatMapi_ext {A B} (f g : nat -> A -> list B) i (l : list A) :
  (forall k x, l !! k = Some x -> f (i + k)%nat x = g (i + k)%nat x) ->
  flatMapi f i l = flatMapi g i l.
Proof.
  revert i. induction l as [|x l IH]; intros i H; simpl; [done|].
  f_equal.
  - specialize (H 0%nat x eq_refl). by rewrite Nat.add_0_r in H.
  - apply IH. intros k y Hk. specialize (H (S k) y Hk).
    by replace (S i + k)%nat with (i + S k)%nat by lia.
Qed.

Lemma filter_flatMapi {A B} (P : B -> Prop) `{!forall b, Decision (P b)}
    (f : nat -> A -> list B) i (l : list A) :
  filter P (flatMapi f i l) = flatMapi (fun k x => filter P (f k x)) i l.
Proof.
  revert i. induction l as [|x l IH]; intros i; simpl; [done|].
  by rewrite filter_app, IH.
Qed.

Lemma fmap_flatMapi {A B C} (g : B -> C) (f : nat -> A -> list B) i (l : list A) :
  g <$> flatMapi f i l = flatMapi (fun k x => g <$> f k x) i l.
Proof.
  revert i. induction l as [|x l IH]; intros i; simpl; [done|].
  by rewrite fmap_app, IH.
Qed.

Lemma flatMapi_nil {A B} i (l : list A) :
  flatMapi (fun _ _ => @nil B) i l = [].
Proof. revert i. induction l; intros; simpl; auto. Qed.

(** The children loop appends, child by child, what [collectVisible] adds
    for each child. *)
Lemma collectChildren_flatMapi p children :
  Forall (fun child => forall q nodes,
            JSONViewer.collectVisible q child nodes
            = nodes ++ (below q <$> visibleSpec child)) children ->
  forall i nodes,
    collectChildren p i children nodes
    = nodes ++ flatMapi (fun k child => below (p ++ [k]) <$> visibleSpec child) i children.
Proof.
  induction 1 as [|child rest Hc _ IH]; intros i nodes; simpl.
  - by rewrite app_nil_r.
  - rewrite Hc, IH. by rewrite <- app_assoc.
Qed.

Lemma filter_under node k child (l : list (Ptr * JSONNode)) :
  Children node !! k = Some child ->
  filter (fun qn => Is_true (ancestorsExpanded node qn.1)) (under k <$> l)
  = if Expanded node
    then under k <$> filter (fun qn => Is_true (ancestorsExpanded child qn.1)) l
    else [].
Proof.
  intros Hk. induction l as [|[q m] l IHl]; [by destruct (Expanded node)|].
  assert (Hq : ancestorsExpanded node (k :: q)
               = Expanded node && ancestorsExpanded child q).
  { cbn [ancestorsExpanded]. by rewrite Hk. }
  rewrite fmap_cons, !filter_cons, IHl.
  change ((under k (q, m)).1) with (k :: q). rewrite Hq.
  change ((q, m).1) with q.
  destruct (Expanded node); cbn [andb].
  - destruct (decide (Is_true (ancestorsExpanded child q))); by rewrite ?fmap_cons.
  - by destruct (decide (Is_true false)).
Qed.

Lemma visibleSpec_unfold node :
  visibleSpec node =
  ([], node) ::
  if Expanded node
  then flatMapi (fun k child => under k <$> visibleSpec child) 0 (Children node)
  else [].
Proof.
  unfold visibleSpec at 1. destruct node as [key value children expanded depth isArray].
  cbn [allNodes Children]. rewrite filter_cons_True by exact I. f_equal.
  rewrite filter_flatMapi. cbn [Expanded].
  set (node := mkJSONNode key value children expanded depth isArray).
  assert (Hext : flatMapi (fun k child =>
                    filter (fun qn => Is_true (ancestorsExpanded node qn.1))
                           (under k <$> allNodes child)) 0 children
                 = flatMapi (fun k child =>
                      if expanded then under k <$> visibleSpec child else []) 0 children).
  { apply (flatMapi_ext _ _ 0). intros k child Hk. simpl.
    by rewrite (filter_under node k child). }
  rewrite Hext. destruct expanded; [done|]. apply flatMapi_nil.
Qed.

(** [collectVisible] appends exactly the visible sequence of the
    specification, at the address it was called with. *)
Lemma collectVisible_visibleSpec node : forall p nodes,
  JSONViewer.collectVisible p node nodes = nodes ++ (below p <$> visibleSpec node).
Proof.
  induction node as [key value children expanded depth isArray IH]
    using JSONNode_nested_ind.
  intros p nodes. rewrite collectVisible_unfold, visibleSpec_unfold.
  cbn [Expanded Children]. cbv zeta.
  rewrite fmap_cons. unfold below at 1. cbn [fst snd]. rewrite app_nil_r.
  destruct expanded.
  - rewrite (collectChildren_flatMapi p children IH).
    rewrite <- app_assoc. cbn [app]. do 2 f_equal.
    rewrite fmap_flatMapi. apply (flatMapi_ext _ _ 0). intros k child _. simpl.
    rewrite <- list_fmap_compose. apply list_fmap_ext. intros _ [q m] _.
    unfold below, under. simpl. by rewrite <- app_assoc.
  - reflexivity.
Qed.

Lemma below_nil (l : list (Ptr * JSONNode)) : below [] <$> l = l.
Proof.
  induction l as [|[q m] l IH]; [done|]. rewrite fmap_cons, IH. reflexivity.
Qed.

Lemma visibleNodes_visibleSpec j :
  JSONViewer.visibleNodes j = from_option visibleSpec [] (JSONViewer.root j).
Proof.
  unfold JSONViewer.visibleNodes. destruct (JSONViewer.root j) as [r|]; [|done].
  simpl. rewrite collectVisible_visibleSpec. simpl. apply below_nil.
Qed.

(** The addresses of [allNodes] are the addresses of the tree. *)
Lemma elem_of_flatMapi {A B} (f : nat -> A -> list B) i (l : list A) b :
  b ∈ flatMapi f i l <-> exists k x, l !! k = Some x /\ b ∈ f (i + k)%nat x.
Proof.
  revert i. induction l as [|x l IH]; intros i; simpl.
  - split; [by intros ?%elem_of_nil|by intros (k & y & [=] & _)].
  - rewrite elem_of_app, IH. split.
    + intros [Hb|(k & y & Hk & Hb)].
      * exists 0%nat, x. by rewrite Nat.add_0_r.
      * exists (S k), y. split; [done|]. by replace (i + S k)%nat with (S i + k)%nat by lia.
    + intros ([|k] & y & Hk & Hb); simpl in Hk.
      * left. injection Hk as ->. by rewrite Nat.add_0_r in Hb.
      * right. exists k, y. split; [done|].
        by replace (S i + k)%nat with (i + S k)%nat by lia.
Qed.

Lemma allNodes_nodeAt node : forall q m,
  (q, m) ∈ allNodes node <-> nodeAt node q = Some m.
Proof.
  induction node as [key value children expanded depth isArray IH]
    using JSONNode_nested_ind.
  intros q m. cbn [allNodes Children]. rewrite elem_of_cons, elem_of_flatMapi.
  rewrite Forall_lookup in IH. split.
  - intros [[= -> ->]|(k & child & Hk & Hin)]; [done|].
    apply list_elem_of_fmap in Hin as ([q' m'] & [= -> ->] & Hin).
    apply (IH k child Hk) in Hin. cbn [nodeAt Children fst]. simpl. by rewrite Hk.
  - destruct q as [|k q']; cbn [nodeAt Children].
    + intros [= <-]. by left.
    + intros Hq. right. destruct (children !! k) as [child|] eqn:Hk; [|done].
      simpl in Hq. exists k, child. split; [done|].
      apply list_elem_of_fmap. exists (q', m). split; [done|]. by apply (IH k child Hk).
Qed.

Lemma visibleSpec_elem node q m :
  (q, m) ∈ visibleSpec node <-> nodeAt node q = Some m /\ ancestorsExpanded node q = true.
Proof.
  unfold visibleSpec. rewrite list_elem_of_filter, allNodes_nodeAt. simpl.
  rewrite Is_true_true. tauto.
Qed.

(** ** Toggling changes flags only *)

(** A tree with every [Expanded] flag cleared: what a toggle cannot change. *)
Fixpoint eraseExpanded (node : JSONNode) : JSONNode :=
  mkJSONNode (Key node) (Value node) (eraseExpanded <$> Children node)
             false (Depth node) (IsArray node).

Lemma fmap_alter_absorb {A B} (h : A -> B) (g : A -> A) i (l : list A) :
  (forall x, l !! i = Some x -> h (g x) = h x) -> h <$> alter g i l = h <$> l.
Proof.
  revert i. induction l as [|x l IH]; intros i Hg; [done|].
  destruct i as [|i]; simpl.
  - f_equal. by apply Hg.
  - f_equal. apply IH. intros y Hy. by apply Hg.
Qed.

Lemma updateAt_eraseExpanded f p : forall node,
  (forall n, eraseExpanded (f n) = eraseExpanded n) ->
  eraseExpanded (JSONViewer.updateAt f p node) = eraseExpanded node.
Proof.
  induction p as [|i p IH]; intros node Hf; simpl; [by apply Hf|].
  destruct node as [key value children expanded depth isArray]. simpl.
  f_equal. apply fmap_alter_absorb. intros child _. by apply IH.
Qed.

Lemma setExpanded_eraseExpanded n b :
  eraseExpanded (JSONNode_setExpanded n b) = eraseExpanded n.
Proof. by destruct n. Qed.

Lemma flatMapi_fmap {A A' B} (g : A -> A') (f : nat -> A' -> list B) i (l : list A) :
  flatMapi f i (g <$> l) = flatMapi (fun k x => f k (g x)) i l.
Proof.
  revert i. induction l as [|x l IH]; intros i; simpl; [done|]. by rewrite IH.
Qed.

Lemma allNodes_eraseExpanded node :
  allNodes (eraseExpanded node)
  = (fun qn => (qn.1, eraseExpanded qn.2)) <$> allNodes node.
Proof.
  induction node as [key value children expanded depth isArray IH]
    using JSONNode_nested_ind.
  cbn [eraseExpanded allNodes Children Key Value Depth IsArray].
  rewrite fmap_cons. f_equal.
  rewrite flatMapi_fmap, fmap_flatMapi. rewrite Forall_lookup in IH.
  apply (flatMapi_ext _ _ 0). intros k child Hk. simpl.
  rewrite (IH k child Hk), <- !list_fmap_compose. by apply list_fmap_ext.
Qed.

Lemma allNodes_length_erase a b :
  eraseExpanded a = eraseExpanded b -> length (allNodes a) = length (allNodes b).
Proof.
  intros H. apply (f_equal allNodes) in H. rewrite !allNodes_eraseExpanded in H.
  apply (f_equal length) in H. by rewrite !length_fmap in H.
Qed.

Lemma visibleSpec_length node :
  (1 <= length (visibleSpec node) <= length (allNodes node))%nat.
Proof.
  split.
  - rewrite visibleSpec_unfold. simpl. lia.
  - apply length_filter.
Qed.

(** A JSON viewer showing a tree: there is a root, and the sizes are those of
    a terminal and of a document that fits in memory. *)
Definition TreeLoaded (j : JSONViewer.t) : Prop :=
  exists r, JSONViewer.root j = Some r /\
            GoInt.len (allNodes r) < 2 ^ 62 /\
            0 <= JSONViewer.cursor j < 2 ^ 62 /\
            0 <= JSONViewer.height j < 2 ^ 62.

(** Two viewers show the same tree up to [Expanded] flags. *)
Definition sameTree (j j' : JSONViewer.t) : Prop :=
  eraseExpanded <$> JSONViewer.root j' = eraseExpanded <$> JSONViewer.root j.

(** What one key can do to the tree: nothing, or set the [Expanded] flag of
    one node that is in the tree and has children. *)
Definition toggled (j j' : JSONViewer.t) : Prop :=
  JSONViewer.root j' = JSONViewer.root j \/
  exists r p m f,
    JSONViewer.root j = Some r /\ nodeAt r p = Some m /\ Children m <> [] /\
    (forall n, exists b, f n = JSONNode_setExpanded n b) /\
    JSONViewer.root j' = Some (JSONViewer.updateAt f p r).

Lemma TreeLoaded_visible j :
  TreeLoaded j -> 1 <= GoInt.len (JSONViewer.visibleNodes j) < 2 ^ 62.
Proof.
  intros (r & Hr & Hs & _). rewrite visibleNodes_visibleSpec, Hr. simpl.
  pose proof (visibleSpec_length r). unfold GoInt.len in *. lia.
Qed.

Lemma TreeLoaded_cursor j c :
  TreeLoaded j -> 0 <= c < 2 ^ 62 ->
  TreeLoaded (JSONViewer.ensureVisible (JSONViewer.set_cursor j c)) /\
  toggled j (JSONViewer.ensureVisible (JSONViewer.set_cursor j c)).
Proof.
  intros (r & Hr & Hs & Hc & Hh) Hc'.
  destruct (JSONViewer_ensureVisible_fields (JSONViewer.set_cursor j c)) as (Hr' & Hh' & Hc'').
  split.
  - exists r. rewrite Hr', Hh', Hc''. done.
  - left. by rewrite Hr'.
Qed.

Lemma toggled_sameTree j j' : toggled j j' -> sameTree j j'.
Proof.
  unfold sameTree. intros [->|(r & p & m & f & Hr & _ & _ & Hf & ->)]; [done|].
  rewrite Hr. simpl. f_equal. apply updateAt_eraseExpanded.
  intros n. destruct (Hf n) as [b ->]. by destruct n.
Qed.

Lemma TreeLoaded_update j r p m f :
  TreeLoaded j -> JSONViewer.root j = Some r ->
  nodeAt r p = Some m -> Children m <> [] ->
  (forall n, exists b, f n = JSONNode_setExpanded n b) ->
  TreeLoaded (JSONViewer.set_root j (JSONViewer.updateAt f p <$> JSONViewer.root j)) /\
  toggled j (JSONViewer.set_root j (JSONViewer.updateAt f p <$> JSONViewer.root j)).
Proof.
  intros (r' & Hr' & Hs & Hc & Hh) Hr Hp Hm Hf.
  assert (r' = r) as -> by congruence.
  assert (Ht : toggled j (JSONViewer.set_root j (JSONViewer.updateAt f p <$> JSONViewer.root j))).
  { right. exists r, p, m, f. rewrite Hr. by split_and!. }
  split; [|done]. apply toggled_sameTree in Ht. unfold sameTree in Ht.
  rewrite Hr in Ht |- *. simpl in Ht |- *. injection Ht as Ht.
  exists (JSONViewer.updateAt f p r). split; [done|]. split; [|simpl; lia].
  unfold GoInt.len in *. by rewrite (allNodes_length_erase _ r Ht).
Qed.

(** The node the cursor is on, when it is on one, is a node of the tree at
    the address the visible sequence gives for it. *)
Lemma visibleNodes_index j r i p node :
  JSONViewer.root j = Some r ->
  GoInt.index (JSONViewer.visibleNodes j) i = Some (p, node) ->
  nodeAt r p = Some node.
Proof.
  intros Hr Hi. unfold GoInt.index in Hi.
  destruct ((i <? 0) || (GoInt.len (JSONViewer.visibleNodes j) <=? i)); [done|].
  apply list_elem_of_lookup_2 in Hi.
  rewrite visibleNodes_visibleSpec, Hr in Hi. simpl in Hi.
  by apply visibleSpec_elem in Hi as [? _].
Qed.

Lemma Children_len_pos (node : JSONNode) :
  (GoInt.len (Children node) >? 0) = true -> Children node <> [].
Proof. intros H Hn. rewrite Hn in H. done. Qed.

(** No key makes a viewer that shows a tree panic, and a key changes at
    most one [Expanded] flag, of a node with children. *)
Lemma JSONViewer_key_loaded j key :
  TreeLoaded j ->
  exists j', JSONViewer.Update j (KeyMsg key) = Some j' /\ TreeLoaded j' /\ toggled j j'.
Proof.
  intros Hj. pose proof (TreeLoaded_visible j Hj) as Hv.
  pose proof Hj as (r & Hr & Hs & Hc & Hh).
  assert (Hq : GoInt.quot (JSONViewer.height j) 2 = JSONViewer.height j / 2).
  { apply GoInt_quot2_small; unfold smallInt; lia. }
  assert (Hq2 : 0 <= JSONViewer.height j / 2 < 2 ^ 62).
  { split.
    - apply Z.div_pos; lia.
    - apply Z.div_lt_upper_bound; lia. }
  assert (Hsame : TreeLoaded j /\ toggled j j) by (split; [done|by left]).
  unfold JSONViewer.Update.
  set (total := GoInt.len (JSONViewer.visibleNodes j)) in *.
  destruct (JSONViewer.focused j); cbn [negb]; [|by eauto].
  destruct (keyIs key ["j"; "down"]).
  { go_arith. destruct (Z.ltb_spec (JSONViewer.cursor j) (total - 1)); [|by eauto].
    eexists; split; [reflexivity|]. apply TreeLoaded_cursor; [done|lia]. }
  destruct (keyIs key ["k"; "up"]).
  { destruct (Z.gtb_spec (JSONViewer.cursor j) 0); [|by eauto].
    eexists; split; [reflexivity|]. go_arith. apply TreeLoaded_cursor; [done|lia]. }
  destruct (keyIs key ["enter"; "l"; "right"]).
  { destruct (Z.ltb_spec (JSONViewer.cursor j) total); [|by eauto].
    destruct (GoInt.index_Some (JSONViewer.visibleNodes j) (JSONViewer.cursor j))
      as [[p node] Hi]; [lia|]. rewrite Hi. simpl.
    destruct (GoInt.len (Children node) >? 0) eqn:Hch; [|by eauto].
    eexists; split; [reflexivity|].
    apply (TreeLoaded_update j r p node); try done.
    - by eapply visibleNodes_index.
    - by apply Children_len_pos.
    - intros n. by eexists. }
  destruct (keyIs key ["h"; "left"]).
  { destruct (Z.ltb_spec (JSONViewer.cursor j) total); [|by eauto].
    destruct (GoInt.index_Some (JSONViewer.visibleNodes j) (JSONViewer.cursor j))
      as [[p node] Hi]; [lia|]. rewrite Hi. simpl.
    destruct (Expanded node); cbn [andb]; [|by eauto].
    destruct (GoInt.len (Children node) >? 0) eqn:Hch; [|by eauto].
    eexists; split; [reflexivity|].
    apply (TreeLoaded_update j r p node); try done.
    - by eapply visibleNodes_index.
    - by apply Children_len_pos.
    - intros n. by eexists. }
  destruct (keyIs key ["d"; "ctrl+d"]).
  { rewrite Hq. cbn [JSONViewer.cursor JSONViewer.set_cursor]. go_arith.
    eexists; split; [reflexivity|].
    destruct (Z.geb_spec (JSONViewer.cursor j + JSONViewer.height j / 2) total).
    - change (JSONViewer.set_cursor (JSONViewer.set_cursor j ?a) ?c)
        with (JSONViewer.set_cursor j c).
      apply TreeLoaded_cursor; [done|lia].
    - apply TreeLoaded_cursor; [done|lia]. }
  destruct (keyIs key ["u"; "ctrl+u"]).
  { rewrite Hq. cbn [JSONViewer.cursor JSONViewer.set_cursor]. go_arith.
    eexists; split; [reflexivity|].
    destruct (Z.ltb_spec (JSONViewer.cursor j - JSONViewer.height j / 2) 0).
    - change (JSONViewer.set_cursor (JSONViewer.set_cursor j ?a) ?c)
        with (JSONViewer.set_cursor j c).
      apply TreeLoaded_cursor; [done|lia].
    - apply TreeLoaded_cursor; [done|lia]. }
  destruct (keyIs key ["g"]).
  { eexists; split; [reflexivity|]. split; [|by left].
    exists r. simpl. split_and!; try done; lia. }
  destruct (keyIs key ["G"]).
  { eexists; split; [reflexivity|]. go_arith. apply TreeLoaded_cursor; [done|lia]. }
  by eauto.
Qed.

Lemma sameTree_trans j1 j2 j3 : sameTree j1 j2 -> sameTree j2 j3 -> sameTree j1 j3.
Proof. unfold sameTree. congruence. Qed.

(** Runs of key presses, with a property of the tree that single keys
    preserve. *)
Lemma JSONViewer_keys_preserve (Q : option JSONNode -> Prop) :
  (forall j j', TreeLoaded j -> toggled j j' ->
                Q (JSONViewer.root j) -> Q (JSONViewer.root j')) ->
  forall keys j,
  TreeLoaded j -> Q (JSONViewer.root j) ->
  exists j', forEach (fun j key => JSONViewer.Update j (KeyMsg key)) keys j = Some j'
             /\ TreeLoaded j' /\ sameTree j j' /\ Q (JSONViewer.root j').
Proof.
  intros HQ. induction keys as [|key keys IH]; intros j Hj Hq;
    cbn [forEach]; cbv beta.
  - exists j. split_and!; [done|done|reflexivity|done].
  - destruct (JSONViewer_key_loaded j key Hj) as (j1 & -> & Hj1 & Ht1).
    destruct (IH j1 Hj1 (HQ j j1 Hj Ht1 Hq)) as (j' & ? & ? & ? & ?).
    exists j'. split_and!; try done.
    eapply sameTree_trans; [by apply toggled_sameTree|done].
Qed.

Lemma JSONViewer_keys_loaded keys j :
  TreeLoaded j ->
  exists j', forEach (fun j key => JSONViewer.Update j (KeyMsg key)) keys j = Some j'
             /\ TreeLoaded j' /\ sameTree j j'.
Proof.
  intros Hj.
  destruct (JSONViewer_keys_preserve (fun _ => True) (fun _ _ _ _ _ => I) keys j Hj I)
    as (j' & ? & ? & ? & _).
  by exists j'.
Qed.

(** C2: the visible sequence that [visibleNodes] computes is, for every
    state of the viewer, the depth-first pre-order listing of the tree's
    nodes restricted to those all of whose ancestors are expanded: the root
    always, and no node below a collapsed one.  From a loaded tree every
    sequence of key presses (expanding, collapsing, moving) runs without a
    panic and changes nothing in the tree but [Expanded] flags, so the
    characterisation holds after each of them. *)
Theorem visible_sequence_exact :
  (forall j, JSONViewer.visibleNodes j
             = from_option visibleSpec [] (JSONViewer.root j)) /\
  (forall r q m, (q, m) ∈ visibleSpec r
                 <-> nodeAt r q = Some m /\ ancestorsExpanded r q = true) /\
  (forall r, ([], r) ∈ visibleSpec r) /\
  (forall j keys, TreeLoaded j ->
     exists j', forEach (fun j key => JSONViewer.Update j (KeyMsg key)) keys j = Some j'
                /\ sameTree j j'
                /\ JSONViewer.visibleNodes j'
                   = from_option visibleSpec [] (JSONViewer.root j')).
Proof.
  split_and!.
  - apply visibleNodes_visibleSpec.
  - apply visibleSpec_elem.
  - intros r. by apply visibleSpec_elem.
  - intros j keys Hj.
    destruct (JSONViewer_keys_loaded keys j Hj) as (j' & ? & ? & ?).
    exists j'. split_and!; try done. apply visibleNodes_visibleSpec.
Qed.

(** A loaded ten-node tree satisfies the hypothesis of C2, whatever keys
    follow. *)
Lemma visible_sequence_witness :
  exists j', forEach (fun j key => JSONViewer.Update j (KeyMsg key))
               ["h"; "enter"; "j"; "l"; "G"; "left"] (Sample.viewer10 7 0 0) = Some j'
             /\ sameTree (Sample.viewer10 7 0 0) j'
             /\ JSONViewer.visibleNodes j'
                = from_option visibleSpec [] (JSONViewer.root j').
Proof.
  apply (proj2 (proj2 (proj2 visible_sequence_exact))).
  exists Sample.root10. split; [reflexivity|].
  assert (GoInt.len (allNodes Sample.root10) = 10) as -> by (vm_compute; reflexivity).
  simpl. lia.
Defined.

(** ** Decoded values: induction through slices and maps *)

Fixpoint valueHeight (v : GoValue) : nat :=
  match v with
  | VSlice l => S (foldr (fun x n => Nat.max (valueHeight x) n) 0%nat l)
  | VMap m => S (map_fold (fun _ x n => Nat.max (valueHeight x) n) 0%nat m)
  | _ => 0%nat
  end.

Lemma valueHeight_slice l x :
  x ∈ l -> (valueHeight x < valueHeight (VSlice l))%nat.
Proof.
  intros Hx. cbn [valueHeight]. apply Nat.lt_succ_r.
  induction Hx as [x l|x y l _ IH]; simpl; lia.
Qed.

Lemma valueHeight_map (m : gmap string GoValue) k x :
  m !! k = Some x -> (valueHeight x < valueHeight (VMap m))%nat.
Proof.
  intros Hx. cbn [valueHeight]. apply Nat.lt_succ_r.
  rewrite map_fold_foldr. apply elem_of_map_to_list in Hx.
  induction (map_to_list m) as [|[k' y] l IH]; [by apply elem_of_nil in Hx|].
  apply elem_of_cons in Hx as [[= <- <-]|Hx]; simpl; [lia|].
  specialize (IH Hx). lia.
Qed.

Lemma GoValue_nested_ind (P : GoValue -> Prop) :
  P VNil -> (forall b, P (VBool b)) -> (forall bits, P (VFloat64 bits)) ->
  (forall s, P (VString s)) ->
  (forall l, Forall P l -> P (VSlice l)) ->
  (forall m : gmap string GoValue, map_Forall (fun _ x => P x) m -> P (VMap m)) ->
  forall v, P v.
Proof.
  intros Hnil Hbool Hfloat Hstr Hslice Hmap.
  assert (Hall : forall n v, (valueHeight v < n)%nat -> P v).
  { induction n as [|n IHn]; intros v Hv; [lia|].
    destruct v as [| | | |l|m]; auto.
    - apply Hslice, Forall_forall. intros x Hx. apply IHn.
      pose proof (valueHeight_slice l x Hx). lia.
    - apply Hmap. intros k x Hx. apply IHn.
      pose proof (valueHeight_map m k x Hx). lia. }
  intros v. apply (Hall (S (valueHeight v))). lia.
Qed.

(** ** C8: the order of children in the JSON tree *)

(** An admissible iteration order rearranges and does nothing else. *)
Definition validOrder (rangeOrder : list JSONNode -> list JSONNode) : Prop :=
  forall l, rangeOrder l ≡ₚ l.

(** The loop of [buildTree] over an array, from index [i]. *)
Fixpoint buildItems (rangeOrder : list JSONNode -> list JSONNode) (depth : Z)
    (i : nat) (v : list GoValue) : list JSONNode :=
  match v with
  | [] => []
  | val :: rest =>
      buildTree rangeOrder ("[" +:+ pretty i +:+ "]") val (GoInt.add depth 1)
      :: buildItems rangeOrder depth (S i) rest
  end.

Lemma buildTree_VSlice ro key l depth :
  buildTree ro key (VSlice l) depth
  = mkJSONNode key (VSlice l) (buildItems ro depth 0 l) false depth true.
Proof.
  cbn [buildTree]. f_equal. generalize 0%nat.
  induction l as [|val rest IH]; intros i; [done|].
  cbn [buildItems]. by rewrite <- IH.
Qed.

Lemma buildTree_VMap ro key (m : gmap string GoValue) depth :
  buildTree ro key (VMap m) depth
  = mkJSONNode key (VMap m)
      (ro (reverse ((fun kv => buildTree ro kv.1 kv.2 (GoInt.add depth 1))
                      <$> map_to_list m)))
      false depth false.
Proof.
  cbn [buildTree]. f_equal. f_equal. rewrite map_fold_foldr.
  induction (map_to_list m) as [|[k val] l IH]; [done|].
  cbn [foldr uncurry]. rewrite IH, fmap_cons, reverse_cons. reflexivity.
Qed.

Lemma buildItems_lookup ro depth l : forall i0 i,
  buildItems ro depth i0 l !! i
  = (fun val => buildTree ro ("[" +:+ pretty (i0 + i)%nat +:+ "]") val (GoInt.add depth 1))
      <$> l !! i.
Proof.
  induction l as [|val rest IH]; intros i0 i; [done|].
  destruct i as [|i]; cbn [buildItems lookup list_lookup].
  - by rewrite Nat.add_0_r.
  - simpl. rewrite IH. by replace (S i0 + i)%nat with (i0 + S i)%nat by lia.
Qed.

(** The decoder stores the members of a JSON object, in document order, into
    a Go map: the document order is gone. *)
Definition decodeObject (members : list (string * GoValue)) : GoValue :=
  VMap (list_to_map members).

(** C8, as stated, fails for objects.  The two spellings of one object
    decode to the same map, so no tree can keep the order of both; and on
    that map two admissible iteration orders build the children in two
    different orders. *)
Lemma C8_counterexample_object_order :
  decodeObject [("a", VBool true); ("b", VBool false)]
  = decodeObject [("b", VBool false); ("a", VBool true)] /\
  validOrder id /\ validOrder reverse /\
  Key <$> Children (buildTree id ""
                      (decodeObject [("b", VBool false); ("a", VBool true)]) 0)
  = ["b"; "a"] /\
  Key <$> Children (buildTree reverse ""
                      (decodeObject [("b", VBool false); ("a", VBool true)]) 0)
  = ["a"; "b"].
Proof.
  split_and!.
  - vm_compute. reflexivity.
  - intros l. reflexivity.
  - intros l. apply reverse_Permutation.
  - vm_compute. reflexivity.
  - vm_compute. reflexivity.
Qed.

(** C8 (amended): the children of an array node are in index order, child
    [i] being the tree of element [i] under the key "[i]"; the children of
    an object node are one child per key of the decoded map, in the order
    in which the runtime happens to iterate the map, which is some
    rearrangement and not the order of the document. *)
Theorem buildTree_children_order (rangeOrder : list JSONNode -> list JSONNode)
    (key : string) (depth : Z) :
  validOrder rangeOrder ->
  (forall (l : list GoValue) (i : nat),
      Children (buildTree rangeOrder key (VSlice l) depth) !! i
      = (fun val => buildTree rangeOrder ("[" +:+ pretty i +:+ "]") val (GoInt.add depth 1))
          <$> l !! i) /\
  (forall m : gmap string GoValue,
      Children (buildTree rangeOrder key (VMap m) depth)
      ≡ₚ (fun kv => buildTree rangeOrder kv.1 kv.2 (GoInt.add depth 1)) <$> map_to_list m) /\
  (forall m : gmap string GoValue,
      NoDup (Key <$> Children (buildTree rangeOrder key (VMap m) depth)) /\
      forall k, k ∈ Key <$> Children (buildTree rangeOrder key (VMap m) depth)
                <-> is_Some (m !! k)).
Proof.
  intros Hro.
  assert (Hperm : forall m : gmap string GoValue,
    Children (buildTree rangeOrder key (VMap m) depth)
    ≡ₚ (fun kv => buildTree rangeOrder kv.1 kv.2 (GoInt.add depth 1)) <$> map_to_list m).
  { intros m. rewrite buildTree_VMap. cbn [Children].
    rewrite (Hro _). apply reverse_Permutation. }
  assert (Hkeys : forall m : gmap string GoValue,
    Key <$> Children (buildTree rangeOrder key (VMap m) depth) ≡ₚ (map_to_list m).*1).
  { intros m. rewrite (Hperm m), <- list_fmap_compose.
    assert (Heq : (Key ∘ (fun kv => buildTree rangeOrder kv.1 kv.2 (GoInt.add depth 1)))
                    <$> map_to_list m = (map_to_list m).*1).
    { apply list_fmap_ext. intros _ [k v] _. simpl. by destruct v. }
    by rewrite Heq. }
  split_and!.
  - intros l i. rewrite buildTree_VSlice. cbn [Children].
    by rewrite buildItems_lookup.
  - exact Hperm.
  - intros m. split.
    + rewrite (Hkeys m). apply NoDup_fst_map_to_list.
    + intros k. rewrite (Hkeys m). rewrite list_elem_of_fmap. split.
      * intros ([k' v] & -> & Hin). apply elem_of_map_to_list in Hin. by eexists.
      * intros [v Hv]. exists (k, v). split; [done|]. by apply elem_of_map_to_list.
Qed.

(** C8 at the identity order. *)
Lemma buildTree_children_order_witness :
  Children (buildTree id "" (VMap {[ "a" := VBool true ]}) 0)
  ≡ₚ (fun kv => buildTree id kv.1 kv.2 (GoInt.add 0 1))
       <$> map_to_list ({[ "a" := VBool true ]} : gmap string GoValue).
Proof.
  apply (proj1 (proj2 (buildTree_children_order id "" 0 (fun l => Permutation_refl l)))).
Defined.

(** ** C9: childless nodes and the [Expanded] flag *)















(** ** C6: directory listings *)

(** The entry that [loadDir] appends for a directory entry it keeps. *)
Definition entryOf (env : Env) (dir : string) (depth : Z) (f : DirEntry) : NavPane.FileEntry :=
  NavPane.mkFileEntry (de_Name f) (filepath_Join env dir (de_Name f)) (de_IsDir f) false depth.

(** What [loadDir] appends for a directory: nothing when it cannot be read,
    otherwise the kept entries of the sorted listing. *)
Definition listed (env : Env) (dir : string) (depth : Z) : list NavPane.FileEntry :=
  match os_ReadDir env dir with
  | None => []
  | Some files =>
      entryOf env dir depth
        <$> filter (fun f => NavPane.skipped (de_Name f) = false)
                   (sort_Slice env NavPane.less files)
  end.

(** One level of fuel is enough: a fresh entry is never expanded, so
    [loadDir] never calls itself. *)
Lemma loadDir_listed env fuel dir depth entries :
  NavPane.loadDir env (S fuel) dir depth entries = Some (entries ++ listed env dir depth).
Proof.
  unfold listed. cbn [NavPane.loadDir].
  destruct (os_ReadDir env dir) as [files|]; [|by rewrite app_nil_r].
  generalize (sort_Slice env NavPane.less files). clear files. intros files.
  revert entries. induction files as [|f files IH]; intros entries.
  - simpl. by rewrite app_nil_r.
  - cbn [forEach]. cbv beta zeta.
    destruct (NavPane.skipped (de_Name f)) eqn:Hs.
    + rewrite IH. by rewrite filter_cons_False by congruence.
    + cbn [NavPane.IsDir NavPane.Expanded]. rewrite andb_false_r.
      rewrite IH. rewrite filter_cons_True by done.
      rewrite fmap_cons, <- app_assoc. reflexivity.
Qed.







(** *** The comparison is a strict weak order *)










(** *** Insertion sort meets the contract *)




(** *** The scenario of the specification *)






(** ** C9, continued: reachable trees *)









(** ** C4: dispatch *)


(** The router was built by [NewViewerRouter]: its registration order is
    markdown, JSON, text. *)
Definition registered (r : ViewerRouter.t) : Prop :=
  ViewerRouter.viewers r = ViewerRouter.viewers ViewerRouter.NewViewerRouter.




(** With the fallback registered, the search always finds a viewer. *)
Lemma firstCanView_registered r path :
  registered r ->
  exists v, ViewerRouter.firstCanView (ViewerRouter.viewers r) path = Some v /\
            (v = ViewerRouter.Text <->
             ViewerRouter.CanView ViewerRouter.Markdown path = false /\
             ViewerRouter.CanView ViewerRouter.JSON path = false).
Proof.
  intros ->. simpl.
  destruct (MarkdownViewer.CanView path); [|destruct (JSONViewer.CanView path)];
    eexists; (split; [reflexivity|]); split; try done; by intros [? ?].
Qed.

Lemma viewerLoad_fields r v path :
  ViewerRouter.viewers (ViewerRouter.viewerLoad r v path).1 = ViewerRouter.viewers r /\
  ViewerRouter.current (ViewerRouter.viewerLoad r v path).1 = ViewerRouter.current r.
Proof. by destruct v. Qed.




Example dispatch_examples :
  ViewerRouter.current <$> (fst <$> ViewerRouter.OpenFile ViewerRouter.NewViewerRouter "/proj/data.JSON")
    = Some (Some ViewerRouter.JSON) /\
  ViewerRouter.current <$> (fst <$> ViewerRouter.OpenFile ViewerRouter.NewViewerRouter "/proj/README.md")
    = Some (Some ViewerRouter.Markdown) /\
  ViewerRouter.current <$> (fst <$> ViewerRouter.OpenFile ViewerRouter.NewViewerRouter "/proj.d/Makefile")
    = Some (Some ViewerRouter.Text).
Proof. vm_compute. done. Qed.

(** ** C3: stale completions *)



(** What [OpenFile] does once its loop has found the viewer [v]. *)
Definition opened (r : ViewerRouter.t) (path : string) (v : ViewerRouter.Viewer)
  : ViewerRouter.t * Cmd :=
  let r := ViewerRouter.set_current r (Some v) in
  let r := ViewerRouter.viewerSetSize r v (ViewerRouter.width r) (ViewerRouter.height r) in
  let r := ViewerRouter.viewerSetFocused r v (ViewerRouter.focused r) in
  ViewerRouter.viewerLoad r v path.

Lemma OpenFile_opened r path :
  registered r ->
  exists v, ViewerRouter.OpenFile r path = Some (opened r path v) /\
            registered (opened r path v).1.
Proof.
  intros Hr. destruct (firstCanView_registered r path Hr) as (v & Hv & _).
  exists v. unfold ViewerRouter.OpenFile. rewrite Hv. split; [done|].
  unfold registered, opened. cbv zeta.
  match goal with |- context [ViewerRouter.viewerLoad ?x ?y ?z] =>
    rewrite (proj1 (viewerLoad_fields x y z)) end.
  by destruct v.
Qed.



(** The application handling a sequence of messages, commands dropped. *)
Definition runApp (env : Env) (fuel : nat) (a : App.t) (msgs : list Msg) : option App.t :=
  forEach (fun a msg => fst <$> App.Update env fuel a msg) msgs a.

(** A sample application: the pane on [/proj], a fresh router and editor. *)
Definition sampleApp : App.t :=
  App.mk 80 24 true App.FocusNav App.ModeNav projPane
         ViewerRouter.NewViewerRouter Editor.NewEditor "".

(** The identity of a load is its path.  When the same path is selected
    twice, both completions carry the expected path and both are applied:
    the one that arrives last is the one shown, whichever load it came
    from. *)
Example same_path_last_arrival_wins :
  (TextViewer.content ∘ ViewerRouter.text ∘ App.viewer)
    <$> runApp Sample.env 1 sampleApp
          [FileSelectedMsg "/proj/A.txt"; FileSelectedMsg "/proj/A.txt";
           FileLoadedMsg "/proj/A.txt" "newer" None;
           FileLoadedMsg "/proj/A.txt" "older" None]
  = Some "older" /\
  (snd <$> App.Update Sample.env 1 sampleApp (FileSelectedMsg "/proj/A.txt"))
  = Some [TextLoadCmd "/proj/A.txt"].
Proof. vm_compute. done. Qed.



(** ** C5: the end of an editing session *)

(** The path a load command loads, for the commands that load. *)
Definition loadedPath (cmd : Cmd) : option string :=
  match cmd with
  | TextLoadCmd p | MarkdownLoadCmd p | JSONLoadCmd p => Some p
  | _ => None
  end.

(** The messages that bring the sample application into an editing session
    on [/proj/A.txt]. *)
Definition editingSession : list Msg :=
  [WindowSizeMsg 80 24;
   FileSelectedMsg "/proj/A.txt";
   FileLoadedMsg "/proj/A.txt" "first line" None;
   KeyMsg "tab";
   KeyMsg "e";
   EditorOpenMsg "/proj/A.txt" "first line" None;
   KeyMsg "x"].

(** C5, as stated, fails in its last part: when the save fails, the
    application leaves the editor exactly as it does on a cancel, and
    nothing that [View] draws (the viewer's error, the editor's error or
    status line) holds the failure. *)
Lemma C5_counterexample_failure_not_surfaced :
  App.mode <$> runApp Sample.env 1 sampleApp editingSession = Some App.ModeEditor /\
  (fun a => (App.mode a, App.focus a, App.shownError a, App.shownStatus a))
    <$> runApp Sample.env 1 sampleApp
          (editingSession ++ [EditorSavedMsg "/proj/A.txt" (Some "permission denied")])
  = Some (App.ModeViewer, App.FocusViewer, None, "") /\
  runApp Sample.env 1 sampleApp
    (editingSession ++ [EditorSavedMsg "/proj/A.txt" (Some "permission denied")])
  = runApp Sample.env 1 sampleApp
      (editingSession ++ [EditorCancelledMsg "/proj/A.txt"]).
Proof. vm_compute. done. Qed.

Lemma SetFocused_registered r f :
  registered r -> registered (ViewerRouter.SetFocused r f).
Proof.
  unfold registered, ViewerRouter.SetFocused. cbv zeta. simpl.
  destruct (ViewerRouter.current r) as [[]|]; done.
Qed.

Lemma SetFocused_focused r f :
  ViewerRouter.focused (ViewerRouter.SetFocused r f) = f.
Proof.
  unfold ViewerRouter.SetFocused. cbv zeta. simpl.
  destruct (ViewerRouter.current r) as [[]|]; done.
Qed.

Lemma opened_fields r path v :
  ViewerRouter.focused (opened r path v).1 = ViewerRouter.focused r /\
  ViewerRouter.current (opened r path v).1 = Some v /\
  loadedPath (opened r path v).2 = Some path.
Proof. by destruct v. Qed.

(** C5 (amended): when the editor's save completion arrives the application
    goes back to viewing with the focus on the viewer, the editor unfocused
    and the viewer focused.  On success it opens the saved path in the
    viewer again, through the same dispatch as a selection, and issues that
    load.  On failure it issues nothing, and the error is not kept: state
    and commands are those of a cancel. *)
Theorem save_completion (env : Env) (fuel : nat) (a : App.t) (path : string) (err : error) :
  registered (App.viewer a) ->
  exists a' cmds,
    App.Update env fuel a (EditorSavedMsg path err) = Some (a', cmds) /\
    App.mode a' = App.ModeViewer /\ App.focus a' = App.FocusViewer /\
    Editor.focused (App.editor a') = false /\
    ViewerRouter.focused (App.viewer a') = true /\
    (err = None ->
       exists cmd r',
         cmds = [cmd] /\ loadedPath cmd = Some path /\
         ViewerRouter.OpenFile (ViewerRouter.SetFocused (App.viewer a) true) path
           = Some (r', cmd) /\
         App.viewer a' = r') /\
    (err <> None ->
       cmds = [] /\
       App.Update env fuel a (EditorCancelledMsg path) = Some (a', cmds)).
Proof.
  intros Hr. cbn [App.Update]. cbv zeta. destruct err as [e|].
  - eexists _, _. split; [reflexivity|]. simpl.
    split_and!; try done. apply SetFocused_focused.
  - pose proof (SetFocused_registered _ true Hr) as Hr'.
    destruct (OpenFile_opened _ path Hr') as (v & Hopen & _).
    simpl App.viewer. rewrite Hopen.
    destruct (opened_fields (ViewerRouter.SetFocused (App.viewer a) true) path v)
      as (Hf & _ & Hl).
    destruct (opened _ path v) as [r' cmd]. simpl in *.
    eexists _, _. split; [reflexivity|]. simpl.
    split_and!; try done.
    + by rewrite Hf, SetFocused_focused.
    + intros _. by exists cmd, r'.
Qed.

(** C5 at the end of the sample editing session, for a save that
    succeeded. *)
Lemma save_completion_witness :
  exists a' cmds,
    App.Update Sample.env 1 sampleApp (EditorSavedMsg "/proj/A.txt" None) = Some (a', cmds) /\
    App.mode a' = App.ModeViewer /\ App.focus a' = App.FocusViewer /\
    cmds = [TextLoadCmd "/proj/A.txt"].
Proof.
  destruct (save_completion Sample.env 1 sampleApp "/proj/A.txt" None eq_refl)
    as (a' & cmds & Hupd & Hmode & Hfocus & _ & _ & Hok & _).
  exists a', cmds. split_and!; try done.
  destruct (Hok eq_refl) as (cmd & r' & -> & _ & Hopen & _).
  vm_compute in Hopen. by injection Hopen as _ <-.
Defined.

(** ** A note on the JSON viewer without a tree *)

(** With no tree loaded the visible sequence is empty; a jump to the end
    then leaves the cursor at -1, and the next expand key indexes the empty
    sequence at -1. *)
Example JSONViewer_no_tree_panics :
  forEach (fun j key => JSONViewer.Update j (KeyMsg key)) ["G"; "enter"]
    (JSONViewer.mk 80 24 true "/proj/data.json" None 0 0 None) = None.
Proof. vm_compute. reflexivity. Qed.

(** * Further properties of the code *)

(** ** nav.go: a cursor move repairs the window *)

(** X1: From any state over a non-empty list, whatever cursor and offset a
    resize or a reload has left behind, one [moveCursor] puts the cursor on
    an entry and inside the window; an offset that was not negative stays
    so. *)
Theorem moveCursor_restores_window (n : NavPane.t) (delta : Z) :
  0 < GoInt.len (NavPane.entries n) < 2 ^ 62 ->
  0 <= NavPane.height n < 2 ^ 62 ->
  smallInt (NavPane.offset n) ->
  let n' := NavPane.moveCursor n delta in
  NavPane.entries n' = NavPane.entries n /\
  0 <= NavPane.cursor n' < GoInt.len (NavPane.entries n) /\
  NavPane.offset n' <= NavPane.cursor n' < NavPane.offset n' + NavPane.visibleHeight n /\
  (0 <= NavPane.offset n -> 0 <= NavPane.offset n').
Proof.
  intros Hl Hh Ho n'. subst n'. unfold smallInt in Ho.
  split; [apply NavPane_moveCursor_fields|].
  pose proof (NavPane_visibleHeight_eq n Hh) as Hvh.
  unfold NavPane.moveCursor. cbv zeta.
  pose proof (GoInt.wrap_inRange (NavPane.cursor n + delta)) as Hw.
  fold (GoInt.add (NavPane.cursor n) delta) in Hw.
  set (c := GoInt.add (NavPane.cursor n) delta) in *. clearbody c.
  unfold GoInt.inRange, GoInt.minInt, GoInt.maxInt in Hw.
  simpl.
  set (total := GoInt.len (NavPane.entries n)) in *.
  assert (Hclamp : exists c', 0 <= c' < total /\
    (let n0 := if c <? 0 then NavPane.set_cursor (NavPane.set_cursor n c) 0
               else NavPane.set_cursor n c in
     if NavPane.cursor n0 >=? GoInt.len (NavPane.entries n0)
     then NavPane.set_cursor n0 (GoInt.sub (GoInt.len (NavPane.entries n0)) 1)
     else n0) = NavPane.set_cursor n c').
  { cbv zeta. destruct (Z.ltb_spec c 0); simpl; fold total.
    - destruct (Z.geb_spec 0 total); [lia|]. exists 0. split; [lia|done].
    - destruct (Z.geb_spec c total).
      + exists (total - 1). split; [lia|]. go_arith. reflexivity.
      + exists c. split; [lia|done]. }
  destruct Hclamp as (c' & Hc' & Heq). cbv zeta in Heq. rewrite Heq.
  unfold NavPane.adjustOffset. cbv zeta.
  change (NavPane.visibleHeight (NavPane.set_cursor n c')) with (NavPane.visibleHeight n).
  set (vh := NavPane.visibleHeight n) in *.
  cbn [NavPane.cursor NavPane.offset NavPane.set_cursor].
  destruct (Z.ltb_spec c' (NavPane.offset n));
    cbn [NavPane.cursor NavPane.offset NavPane.set_offset NavPane.set_cursor]; go_arith.
  - destruct (Z.geb_spec c' (c' + vh)); cbn; lia.
  - destruct (Z.geb_spec c' (NavPane.offset n + vh)); cbn; go_arith; lia.
Qed.

(** The three-entry pane after a resize to a single row and a scroll left
    behind: one move repairs it. *)
Lemma moveCursor_restores_window_witness :
  let n := NavPane.mk 20 3 true "/proj" projEntries 0 2 in
  let n' := NavPane.moveCursor n 1 in
  NavPane.entries n' = NavPane.entries n /\
  0 <= NavPane.cursor n' < GoInt.len (NavPane.entries n) /\
  NavPane.offset n' <= NavPane.cursor n' < NavPane.offset n' + NavPane.visibleHeight n /\
  (0 <= NavPane.offset n -> 0 <= NavPane.offset n').
Proof.
  apply (moveCursor_restores_window (NavPane.mk 20 3 true "/proj" projEntries 0 2) 1).
  - unfold GoInt.len. simpl. lia.
  - simpl. lia.
  - unfold smallInt. simpl. lia.
Defined.

(** ** viewer.go, viewer_markdown.go: the scroll range *)

(** The offsets a viewer of [total] lines and the given height scrolls
    between. *)
Definition scrollRange (total height offset : Z) : Prop :=
  0 <= offset <= Z.max 0 (total - height + 2).

Lemma TextViewer_scroll_range (t0 : TextViewer.t) (delta : Z) :
  0 <= TextViewer.height t0 < 2 ^ 62 ->
  GoInt.len (TextViewer.lines t0) < 2 ^ 62 ->
  let t1 := TextViewer.scroll t0 delta in
  scrollRange (GoInt.len (TextViewer.lines t0)) (TextViewer.height t0) (TextViewer.offset t1) /\
  TextViewer.lines t1 = TextViewer.lines t0 /\
  TextViewer.height t1 = TextViewer.height t0.
Proof.
  intros Hh Hl.
  pose proof (GoInt.len_nonneg (TextViewer.lines t0)) as Hl0.
  unfold TextViewer.scroll. cbv zeta.
  pose proof (GoInt.wrap_inRange (TextViewer.offset t0 + delta)) as Hw.
  fold (GoInt.add (TextViewer.offset t0) delta) in Hw.
  set (c := GoInt.add (TextViewer.offset t0) delta) in *. clearbody c.
  unfold GoInt.inRange, GoInt.minInt, GoInt.maxInt in Hw.
  unfold scrollRange. simpl.
  destruct (Z.ltb_spec c 0); simpl; go_arith;
    destruct (Z.ltb_spec (GoInt.len (TextViewer.lines t0) - TextViewer.height t0 + 2) 0);
    match goal with |- context [?a >? ?b] => destruct (Z.gtb_spec a b) end;
    simpl; split_and!; try done; lia.
Qed.

Lemma MarkdownViewer_scroll_range (m : MarkdownViewer.t) (delta : Z) :
  0 <= MarkdownViewer.height m < 2 ^ 62 ->
  GoInt.len (MarkdownViewer.lines m) < 2 ^ 62 ->
  let m1 := MarkdownViewer.scroll m delta in
  scrollRange (GoInt.len (MarkdownViewer.lines m)) (MarkdownViewer.height m)
              (MarkdownViewer.offset m1) /\
  MarkdownViewer.lines m1 = MarkdownViewer.lines m /\
  MarkdownViewer.height m1 = MarkdownViewer.height m.
Proof.
  intros Hh Hl.
  pose proof (GoInt.len_nonneg (MarkdownViewer.lines m)) as Hl0.
  unfold MarkdownViewer.scroll. cbv zeta.
  pose proof (GoInt.wrap_inRange (MarkdownViewer.offset m + delta)) as Hw.
  fold (GoInt.add (MarkdownViewer.offset m) delta) in Hw.
  set (c := GoInt.add (MarkdownViewer.offset m) delta) in *. clearbody c.
  unfold GoInt.inRange, GoInt.minInt, GoInt.maxInt in Hw.
  unfold scrollRange. simpl.
  destruct (Z.ltb_spec c 0); simpl; go_arith;
    destruct (Z.ltb_spec (GoInt.len (MarkdownViewer.lines m) - MarkdownViewer.height m + 2) 0);
    match goal with |- context [?a >? ?b] => destruct (Z.gtb_spec a b) end;
    simpl; split_and!; try done; lia.
Qed.

(** X2: No key moves the text viewer's offset out of the scroll range: it
    stays between 0 and [max(0, len(lines) - height + 2)], while lines and
    height stay as they are. *)
Theorem TextViewer_keys_scroll_range (t0 : TextViewer.t) (key : string) :
  0 <= TextViewer.height t0 < 2 ^ 62 ->
  GoInt.len (TextViewer.lines t0) < 2 ^ 62 ->
  scrollRange (GoInt.len (TextViewer.lines t0)) (TextViewer.height t0) (TextViewer.offset t0) ->
  let t1 := TextViewer.Update t0 (KeyMsg key) in
  scrollRange (GoInt.len (TextViewer.lines t1)) (TextViewer.height t1) (TextViewer.offset t1) /\
  TextViewer.lines t1 = TextViewer.lines t0 /\
  TextViewer.height t1 = TextViewer.height t0.
Proof.
  intros Hh Hl Hr t1. subst t1.
  assert (Hscroll : forall d,
    let t1 := TextViewer.scroll t0 d in
    scrollRange (GoInt.len (TextViewer.lines t1)) (TextViewer.height t1) (TextViewer.offset t1) /\
    TextViewer.lines t1 = TextViewer.lines t0 /\
    TextViewer.height t1 = TextViewer.height t0).
  { intros d t1. destruct (TextViewer_scroll_range t0 d Hh Hl) as (H1 & H2 & H3).
    fold t1 in H1, H2, H3. rewrite H2, H3. done. }
  cbn [TextViewer.Update].
  destruct (negb (TextViewer.focused t0)); [done|].
  repeat (match goal with |- context [keyIs key ?l] => destruct (keyIs key l) end;
          [first [apply Hscroll | idtac]|]); try done.
  - unfold scrollRange. simpl. split_and!; [lia|lia|done|done].
  - pose proof (GoInt.len_nonneg (TextViewer.lines t0)).
    unfold scrollRange. simpl. go_arith. split_and!; [lia|lia|done|done].
Qed.

Lemma TextViewer_keys_scroll_range_witness :
  let t0 := TextViewer.mk 80 4 true "/a.txt" "" ["l0"; "l1"; "l2"; "l3"; "l4"] 2 None in
  let t1 := TextViewer.Update t0 (KeyMsg "d") in
  scrollRange (GoInt.len (TextViewer.lines t1)) (TextViewer.height t1) (TextViewer.offset t1) /\
  TextViewer.lines t1 = TextViewer.lines t0 /\
  TextViewer.height t1 = TextViewer.height t0.
Proof.
  apply (TextViewer_keys_scroll_range
           (TextViewer.mk 80 4 true "/a.txt" "" ["l0"; "l1"; "l2"; "l3"; "l4"] 2 None) "d").
  - simpl. lia.
  - unfold GoInt.len. simpl. lia.
  - unfold scrollRange, GoInt.len. simpl. lia.
Defined.

(** X3: No key moves the markdown viewer's offset out of the scroll range. *)
Theorem MarkdownViewer_keys_scroll_range (m : MarkdownViewer.t) (key : string) :
  0 <= MarkdownViewer.height m < 2 ^ 62 ->
  GoInt.len (MarkdownViewer.lines m) < 2 ^ 62 ->
  scrollRange (GoInt.len (MarkdownViewer.lines m)) (MarkdownViewer.height m)
              (MarkdownViewer.offset m) ->
  let m1 := MarkdownViewer.Update m (KeyMsg key) in
  scrollRange (GoInt.len (MarkdownViewer.lines m1)) (MarkdownViewer.height m1)
              (MarkdownViewer.offset m1) /\
  MarkdownViewer.lines m1 = MarkdownViewer.lines m /\
  MarkdownViewer.height m1 = MarkdownViewer.height m.
Proof.
  intros Hh Hl Hr m1. subst m1.
  assert (Hscroll : forall d,
    let m1 := MarkdownViewer.scroll m d in
    scrollRange (GoInt.len (MarkdownViewer.lines m1)) (MarkdownViewer.height m1)
                (MarkdownViewer.offset m1) /\
    MarkdownViewer.lines m1 = MarkdownViewer.lines m /\
    MarkdownViewer.height m1 = MarkdownViewer.height m).
  { intros d m1. destruct (MarkdownViewer_scroll_range m d Hh Hl) as (H1 & H2 & H3).
    fold m1 in H1, H2, H3. rewrite H2, H3. done. }
  cbn [MarkdownViewer.Update].
  destruct (negb (MarkdownViewer.focused m)); [done|].
  repeat (match goal with |- context [keyIs key ?l] => destruct (keyIs key l) end;
          [first [apply Hscroll | idtac]|]); try done.
  - unfold scrollRange. simpl. split_and!; [lia|lia|done|done].
  - pose proof (GoInt.len_nonneg (MarkdownViewer.lines m)).
    unfold scrollRange. simpl. go_arith. split_and!; [lia|lia|done|done].
Qed.

Lemma MarkdownViewer_keys_scroll_range_witness :
  let m := MarkdownViewer.mk 80 4 true "/a.md" "" ["l0"; "l1"; "l2"; "l3"; "l4"] 3 None in
  let m1 := MarkdownViewer.Update m (KeyMsg "j") in
  scrollRange (GoInt.len (MarkdownViewer.lines m1)) (MarkdownViewer.height m1)
              (MarkdownViewer.offset m1) /\
  MarkdownViewer.lines m1 = MarkdownViewer.lines m /\
  MarkdownViewer.height m1 = MarkdownViewer.height m.
Proof.
  apply (MarkdownViewer_keys_scroll_range
           (MarkdownViewer.mk 80 4 true "/a.md" "" ["l0"; "l1"; "l2"; "l3"; "l4"] 3 None) "j").
  - simpl. lia.
  - unfold GoInt.len. simpl. lia.
  - unfold scrollRange, GoInt.len. simpl. lia.
Defined.

(** ** nav.go: what the pane draws *)

(** What [NavPane.View] puts on the screen, before styling: the text for an
    empty listing, or a listing.  [NavListing root rows] stands for the
    header line, which renders [filepath.Base(root)], the empty line below
    it, and one line for each row, a row being the pair of arguments that
    [View] passes to [renderEntry]: the entry, and whether it is the
    selected one. *)
Inductive NavScreen :=
| NavEmptyDirectory
| NavListing (header : string) (rows : list (NavPane.FileEntry * bool)).

(** [func (n *NavPane) View() string]; [None] is the panic of
    [n.entries[i]]. *)
Definition NavPane_View (n : NavPane.t) : option NavScreen :=
  if GoInt.len (NavPane.entries n) =? 0 then Some NavEmptyDirectory
  else
    let visibleHeight := GoInt.sub (NavPane.height n) 2 in
    (* File entries *)
    let end_ := GoInt.add (NavPane.offset n) visibleHeight in
    let end_ := if end_ >? GoInt.len (NavPane.entries n)
                then GoInt.len (NavPane.entries n) else end_ in
    rows ← forEach (fun rows i =>
              entry ← GoInt.index (NavPane.entries n) i;
              Some (rows ++ [(entry, i =? NavPane.cursor n)]))
            (seqZ (NavPane.offset n) (end_ - NavPane.offset n)) [];
    Some (NavListing (NavPane.root n) rows).




(** On a non-empty listing with a negative offset and room for a row, the
    first index [View] uses is the offset: it panics. *)
Lemma NavPane_View_negative (n : NavPane.t) :
  NavPane.entries n <> [] ->
  - 2 ^ 62 < NavPane.offset n < 0 ->
  2 < NavPane.height n < 2 ^ 62 ->
  NavPane_View n = None.
Proof.
  intros Hne Ho Hh. unfold NavPane_View.
  assert (Hl : 0 < GoInt.len (NavPane.entries n)).
  { destruct (NavPane.entries n); [done|]. unfold GoInt.len. simpl. lia. }
  destruct (Z.eqb_spec (GoInt.len (NavPane.entries n)) 0); [lia|].
  cbv zeta. go_arith.
  set (total := GoInt.len (NavPane.entries n)) in *.
  assert (Hend : 0 < (if NavPane.offset n + (NavPane.height n - 2) >? total then total
                      else NavPane.offset n + (NavPane.height n - 2)) - NavPane.offset n).
  { destruct (Z.gtb_spec (NavPane.offset n + (NavPane.height n - 2)) total); lia. }
  rewrite seqZ_cons by done. cbn [forEach].
  rewrite GoInt.index_None by lia. done.
Qed.





(** ** nav.go: reloading the listing *)

(** [findPath] returns the index of the first entry with the path. *)
Lemma findPath_Some path es : forall k i,
  0 <= k -> k + GoInt.len es < 2 ^ 62 ->
  NavPane.findPath path k es = Some i ->
  k <= i < k + GoInt.len es /\
  exists e, es !! Z.to_nat (i - k) = Some e /\ NavPane.Path e = path.
Proof.
  induction es as [|e es IH]; intros k i Hk Hl Hf; [done|].
  assert (Hlen : GoInt.len (e :: es) = 1 + GoInt.len es).
  { unfold GoInt.len. simpl length. lia. }
  pose proof (GoInt.len_nonneg es) as Hes.
  cbn [NavPane.findPath] in Hf.
  destruct (String.eqb_spec (NavPane.Path e) path) as [Heq|Hne].
  - injection Hf as <-. split; [lia|]. exists e. rewrite Z.sub_diag. done.
  - rewrite GoInt_add_small in Hf by (unfold smallInt; lia).
    destruct (IH (k + 1) i) as (Hi & e' & He' & Hp); [lia|lia|done|].
    split; [lia|]. exists e'. split; [|done].
    replace (Z.to_nat (i - k)) with (S (Z.to_nat (i - (k + 1)))) by lia. done.
Qed.

Lemma findPath_None path es : forall k,
  NavPane.findPath path k es = None ->
  Forall (fun e => NavPane.Path e <> path) es.
Proof.
  induction es as [|e es IH]; intros k Hf; [constructor|].
  cbn [NavPane.findPath] in Hf.
  destruct (String.eqb_spec (NavPane.Path e) path) as [Heq|Hne]; [done|].
  constructor; [done|]. by apply (IH (GoInt.add k 1)).
Qed.

(** A pane whose cursor [findPath] has put on the path reports that path. *)
Lemma findPath_selected path (n : NavPane.t) i :
  GoInt.len (NavPane.entries n) < 2 ^ 62 ->
  NavPane.findPath path 0 (NavPane.entries n) = Some i ->
  0 <= i < GoInt.len (NavPane.entries n) /\
  NavPane.SelectedPath (NavPane.set_cursor n i) = Some path.
Proof.
  intros Hl Hf.
  destruct (findPath_Some path (NavPane.entries n) 0 i) as (Hi & e & He & Hp); [lia|lia|done|].
  split; [lia|]. unfold NavPane.SelectedPath. cbn [NavPane.cursor NavPane.entries NavPane.set_cursor].
  destruct (Z.leb_spec 0 i); [|lia].
  destruct (Z.ltb_spec i (GoInt.len (NavPane.entries n))); [|lia].
  simpl. unfold GoInt.index.
  destruct (Z.ltb_spec i 0); [lia|].
  destruct (Z.leb_spec (GoInt.len (NavPane.entries n)) i); [lia|]. simpl.
  rewrite Z.sub_0_r in He. rewrite He. simpl. by rewrite Hp.
Qed.

Lemma findPath_listed path es :
  path ∈ NavPane.Path <$> es -> exists i, NavPane.findPath path 0 es = Some i.
Proof.
  intros Hin. destruct (NavPane.findPath path 0 es) as [i|] eqn:Hf; [by eauto|].
  apply findPath_None in Hf. rewrite Forall_forall in Hf.
  apply list_elem_of_fmap in Hin as (e & -> & He). by destruct (Hf e He).
Qed.

Lemma NavPane_adjustOffset_root n :
  NavPane.root (NavPane.adjustOffset n) = NavPane.root n /\
  NavPane.focused (NavPane.adjustOffset n) = NavPane.focused n.
Proof.
  unfold NavPane.adjustOffset.
  destruct (NavPane.cursor n <? NavPane.offset n); simpl;
    match goal with |- context [if ?b then _ else _] => destruct b end; done.
Qed.

Lemma NavPane_moveCursor_root n delta :
  NavPane.root (NavPane.moveCursor n delta) = NavPane.root n /\
  NavPane.focused (NavPane.moveCursor n delta) = NavPane.focused n.
Proof.
  unfold NavPane.moveCursor. cbv zeta.
  match goal with |- context [NavPane.adjustOffset ?x] =>
    destruct (NavPane_adjustOffset_root x) as (-> & ->) end.
  simpl. destruct (_ <? 0); simpl; destruct (_ >=? _); simpl; done.
Qed.

(** X6: No key takes the pane into a directory: with one level of fuel every
    key returns, the root stays or moves to its parent, and the entries are
    the ones before or the plain listing of the root, children of its
    directories not included. *)
Theorem NavPane_keys_never_descend (env : Env) (fuel : nat) (n : NavPane.t) (key : string) :
  exists n',
    NavPane.Update env (S fuel) n (KeyMsg key) = Some n' /\
    (NavPane.root n' = NavPane.root n \/
     NavPane.root n' = filepath_Dir env (NavPane.root n)) /\
    (NavPane.entries n' = NavPane.entries n \/
     NavPane.entries n' = listed env (NavPane.root n') 0).
Proof.
  unfold NavPane.Update.
  destruct (NavPane.focused n); cbn [negb]; [|by eauto 10].
  destruct (keyIs key ["j"; "down"]).
  { eexists; split; [reflexivity|].
    rewrite (proj1 (NavPane_moveCursor_fields n 1)), (proj1 (NavPane_moveCursor_root n 1)). auto. }
  destruct (keyIs key ["k"; "up"]).
  { eexists; split; [reflexivity|].
    rewrite (proj1 (NavPane_moveCursor_fields n (-1))), (proj1 (NavPane_moveCursor_root n (-1))). auto. }
  destruct (keyIs key ["g"]); [by eauto 10|].
  destruct (keyIs key ["G"]).
  { eexists; split; [reflexivity|].
    match goal with |- context [NavPane.adjustOffset ?x] =>
      rewrite (proj1 (NavPane_adjustOffset_fields x)), (proj1 (NavPane_adjustOffset_root x)) end.
    auto. }
  destruct (keyIs key ["enter"; "l"]).
  { unfold NavPane.toggleOrOpen.
    destruct ((NavPane.cursor n <? 0) || (NavPane.cursor n >=? GoInt.len (NavPane.entries n)))
      eqn:Hguard; [by eauto 10|].
    apply orb_false_iff in Hguard as [H0 H1].
    apply Z.ltb_ge in H0. rewrite Z.geb_leb in H1. apply Z.leb_gt in H1.
    destruct (GoInt.index_Some (NavPane.entries n) (NavPane.cursor n)) as [entry ->]; [lia|].
    destruct (NavPane.IsDir entry); [|by eauto 10].
    unfold NavPane.loadEntries. rewrite loadDir_listed. simpl.
    eexists; split; [reflexivity|].
    destruct (NavPane.findPath _ _ _); simpl; auto. }
  destruct (keyIs key ["h"; "backspace"]); [|by eauto 10].
  unfold NavPane.goToParent. cbv zeta.
  destruct (negb _); [|by eauto 10].
  unfold NavPane.loadEntries. rewrite loadDir_listed. simpl.
  eexists; split; [reflexivity|].
  destruct (NavPane.findPath _ _ _); simpl; [|auto].
  match goal with |- context [NavPane.adjustOffset ?x] =>
    rewrite (proj1 (NavPane_adjustOffset_fields x)), (proj1 (NavPane_adjustOffset_root x)) end.
  simpl. auto.
Qed.

(** X7: Toggling a directory re-reads the root and keeps the selection by path:
    when the directory is still listed, the pane selects it again, wherever
    the new listing has it; the offset is not touched. *)
Theorem toggleOrOpen_keeps_selection (env : Env) (fuel : nat) (n : NavPane.t)
    (e : NavPane.FileEntry) :
  GoInt.index (NavPane.entries n) (NavPane.cursor n) = Some e ->
  NavPane.IsDir e = true ->
  GoInt.len (listed env (NavPane.root n) 0) < 2 ^ 62 ->
  NavPane.Path e ∈ NavPane.Path <$> listed env (NavPane.root n) 0 ->
  exists n',
    NavPane.toggleOrOpen env (S fuel) n = Some n' /\
    NavPane.entries n' = listed env (NavPane.root n) 0 /\
    NavPane.SelectedPath n' = Some (NavPane.Path e) /\
    NavPane.offset n' = NavPane.offset n.
Proof.
  intros He Hd Hl Hin. unfold NavPane.toggleOrOpen. rewrite He.
  assert (Hguard : (NavPane.cursor n <? 0)
                   || (NavPane.cursor n >=? GoInt.len (NavPane.entries n)) = false).
  { unfold GoInt.index in He. rewrite Z.geb_leb. by destruct (_ || _). }
  rewrite Hguard, Hd. cbn [NavPane.Path].
  unfold NavPane.loadEntries. rewrite loadDir_listed. simpl.
  destruct (findPath_listed _ _ Hin) as [i Hi]. rewrite Hi.
  eexists; split; [reflexivity|].
  set (n1 := NavPane.set_entries n (listed env (NavPane.root n) 0)).
  destruct (findPath_selected (NavPane.Path e) n1 i) as [_ Hsel]; [done|done|].
  split_and!; done.
Qed.

Lemma toggleOrOpen_keeps_selection_witness :
  exists n',
    NavPane.toggleOrOpen Sample.env 1 (NavPane.mk 20 24 true "/proj" projEntries 0 0) = Some n' /\
    NavPane.entries n'
      = listed Sample.env (NavPane.root (NavPane.mk 20 24 true "/proj" projEntries 0 0)) 0 /\
    NavPane.SelectedPath n' = Some (NavPane.Path (NavPane.mkFileEntry "sub" "/proj/sub" true false 0)) /\
    NavPane.offset n' = NavPane.offset (NavPane.mk 20 24 true "/proj" projEntries 0 0).
Proof.
  apply (toggleOrOpen_keeps_selection Sample.env 0
           (NavPane.mk 20 24 true "/proj" projEntries 0 0)
           (NavPane.mkFileEntry "sub" "/proj/sub" true false 0)).
  - reflexivity.
  - reflexivity.
  - vm_compute. reflexivity.
  - vm_compute. apply list_elem_of_here.
Defined.

(** X8: Going to the parent re-reads it and selects the directory the pane
    came from, when the parent lists it, and scrolls it into the window. *)
Theorem goToParent_selects_origin (env : Env) (fuel : nat) (n : NavPane.t) :
  filepath_Dir env (NavPane.root n) <> NavPane.root n ->
  GoInt.len (listed env (filepath_Dir env (NavPane.root n)) 0) < 2 ^ 62 ->
  NavPane.root n ∈ NavPane.Path <$> listed env (filepath_Dir env (NavPane.root n)) 0 ->
  0 <= NavPane.height n < 2 ^ 62 ->
  smallInt (NavPane.offset n) ->
  exists n',
    NavPane.goToParent env (S fuel) n = Some n' /\
    NavPane.root n' = filepath_Dir env (NavPane.root n) /\
    NavPane.entries n' = listed env (filepath_Dir env (NavPane.root n)) 0 /\
    NavPane.SelectedPath n' = Some (NavPane.root n) /\
    NavPane.offset n' <= NavPane.cursor n' < NavPane.offset n' + NavPane.visibleHeight n'.
Proof.
  intros Hne Hl Hin Hh Ho. unfold NavPane.goToParent. cbv zeta.
  destruct (String.eqb_spec (filepath_Dir env (NavPane.root n)) (NavPane.root n)); [done|].
  cbn [negb]. unfold NavPane.loadEntries. rewrite loadDir_listed. simpl.
  destruct (findPath_listed _ _ Hin) as [i Hi]. rewrite Hi.
  eexists; split; [reflexivity|].
  set (parent := filepath_Dir env (NavPane.root n)) in *.
  set (n1 := NavPane.set_entries (NavPane.set_root n parent) (listed env parent 0)).
  destruct (findPath_selected (NavPane.root n) n1 i) as [Hi' Hsel]; [done|done|].
  fold n1. set (n2 := NavPane.set_cursor n1 i) in *.
  destruct (NavPane_adjustOffset_fields n2) as (He & Hhe & Hc).
  destruct (NavPane_adjustOffset_root n2) as (Hr & _).
  split; [by rewrite Hr|]. split; [by rewrite He|].
  split; [unfold NavPane.SelectedPath in *; by rewrite He, Hc|].
  - assert (Hvh : NavPane.visibleHeight (NavPane.adjustOffset n2) = NavPane.visibleHeight n2).
    { unfold NavPane.visibleHeight. by rewrite Hhe. }
    rewrite Hvh, Hc.
    pose proof (NavPane_visibleHeight_eq n2 Hh) as Hv.
    unfold smallInt in Ho.
    change (GoInt.len (NavPane.entries n1)) with (GoInt.len (listed env parent 0)) in Hi'.
    change (NavPane.height n2) with (NavPane.height n) in Hv.
    unfold NavPane.adjustOffset. cbv zeta.
    set (vh := NavPane.visibleHeight n2) in *. clearbody vh.
    change (NavPane.cursor n2) with i. change (NavPane.offset n2) with (NavPane.offset n).
    destruct (Z.ltb_spec i (NavPane.offset n));
      cbn [NavPane.cursor NavPane.offset NavPane.set_offset];
      change (NavPane.cursor n2) with i; change (NavPane.offset n2) with (NavPane.offset n);
      go_arith.
    + destruct (Z.geb_spec i (i + vh)); cbn; go_arith; lia.
    + destruct (Z.geb_spec i (NavPane.offset n + vh)); cbn; go_arith; lia.
Qed.

(** A file system as [Sample.env] has it, in which [/proj/sub] is an empty
    directory whose parent is [/proj]. *)
Definition nestedEnv : Env :=
  mkEnv (fun dir =>
           if String.eqb dir "/proj/sub" then Some [] else Sample.readDir dir)
        (@Sample.sortBy DirEntry)
        (fun dir name => dir +:+ "/" +:+ name)
        (fun path => if String.eqb path "/proj/sub" then "/proj" else "/")
        (fun ta _ => (ta, None)).

Lemma goToParent_selects_origin_witness :
  exists n',
    NavPane.goToParent nestedEnv 1 (NavPane.mk 20 24 true "/proj/sub" [] 0 0) = Some n' /\
    NavPane.root n'
      = filepath_Dir nestedEnv (NavPane.root (NavPane.mk 20 24 true "/proj/sub" [] 0 0)) /\
    NavPane.entries n'
      = listed nestedEnv
          (filepath_Dir nestedEnv (NavPane.root (NavPane.mk 20 24 true "/proj/sub" [] 0 0))) 0 /\
    NavPane.SelectedPath n'
      = Some (NavPane.root (NavPane.mk 20 24 true "/proj/sub" [] 0 0)) /\
    NavPane.offset n' <= NavPane.cursor n' < NavPane.offset n' + NavPane.visibleHeight n'.
Proof.
  apply (goToParent_selects_origin nestedEnv 0 (NavPane.mk 20 24 true "/proj/sub" [] 0 0)).
  - vm_compute. discriminate.
  - vm_compute. reflexivity.
  - vm_compute. apply list_elem_of_here.
  - simpl. lia.
  - unfold smallInt. simpl. lia.
Defined.

(** X9: A crash the keys reach: in a pane opened on an empty directory, a
    cursor-down leaves the offset at -1; going to the parent then fills the
    listing and selects the directory left, without moving the offset when
    that directory is among the first rows; and [View] panics on the
    listing that results. *)
Theorem NavPane_View_panics_after_empty_directory (env : Env) (fuel : nat)
    (n : NavPane.t) (i : Z) :
  NavPane.focused n = true ->
  NavPane.entries n = [] -> NavPane.cursor n = 0 -> NavPane.offset n = 0 ->
  3 <= NavPane.height n < 2 ^ 62 ->
  filepath_Dir env (NavPane.root n) <> NavPane.root n ->
  NavPane.findPath (NavPane.root n) 0 (listed env (filepath_Dir env (NavPane.root n)) 0)
    = Some i ->
  0 <= i < NavPane.height n - 3 ->
  exists n1 n2,
    NavPane.Update env (S fuel) n (KeyMsg "j") = Some n1 /\
    NavPane.Update env (S fuel) n1 (KeyMsg "h") = Some n2 /\
    NavPane.root n2 = filepath_Dir env (NavPane.root n) /\
    NavPane_View n2 = None.
Proof.
  intros Hf He Hc Ho Hh Hne Hfind Hi.
  destruct n as [w h f r es c o]. simpl in *. subst f es c o.
  exists (NavPane.mk w h true r [] (-1) (-1)).
  assert (Hvh : NavPane.visibleHeight (NavPane.mk w h true r [] (-1) (-1)) = h - 2).
  { rewrite NavPane_visibleHeight_eq by (simpl; lia). simpl. lia. }
  assert (Hj : NavPane.Update env (S fuel) (NavPane.mk w h true r [] 0 0) (KeyMsg "j")
               = Some (NavPane.mk w h true r [] (-1) (-1))).
  { unfold NavPane.Update. cbn [NavPane.focused negb]. decide_keys.
    f_equal. unfold NavPane.moveCursor. cbv zeta. simpl.
    assert (Hm : GoInt.sub (GoInt.len (@nil NavPane.FileEntry)) 1 = -1)
      by (vm_compute; reflexivity).
    rewrite Hm. unfold NavPane.adjustOffset. cbv zeta.
    change (NavPane.visibleHeight _) with
      (NavPane.visibleHeight (NavPane.mk w h true r [] (-1) (-1))).
    rewrite Hvh. simpl. go_arith.
    destruct (Z.geb_spec (-1) (-1 + (h - 2))); [lia|done]. }
  set (parent := filepath_Dir env r) in *.
  set (es := listed env parent 0) in *.
  assert (Hes : es <> []).
  { intros Heq. rewrite Heq in Hfind. done. }
  exists (NavPane.mk w h true parent es i (-1)).
  split; [done|].
  assert (Hh2 : NavPane.Update env (S fuel) (NavPane.mk w h true r [] (-1) (-1)) (KeyMsg "h")
                = Some (NavPane.mk w h true parent es i (-1))).
  { unfold NavPane.Update. cbn [NavPane.focused negb]. decide_keys.
    unfold NavPane.goToParent. cbv zeta. cbn [NavPane.root]. fold parent.
    destruct (String.eqb_spec parent r); [done|]. cbn [negb].
    unfold NavPane.loadEntries. rewrite loadDir_listed. simpl. fold es.
    rewrite Hfind. f_equal.
    unfold NavPane.adjustOffset. cbv zeta.
    change (NavPane.visibleHeight _) with
      (NavPane.visibleHeight (NavPane.mk w h true r [] (-1) (-1))).
    rewrite Hvh.
    cbn [NavPane.cursor NavPane.offset NavPane.set_cursor NavPane.set_entries
         NavPane.set_root NavPane.set_offset NavPane.width NavPane.height
         NavPane.focused NavPane.root NavPane.entries].
    destruct (Z.ltb_spec i (-1)); [lia|].
    cbn [NavPane.cursor NavPane.offset NavPane.set_cursor NavPane.set_entries
         NavPane.set_root NavPane.set_offset NavPane.width NavPane.height
         NavPane.focused NavPane.root NavPane.entries]. go_arith.
    destruct (Z.geb_spec i (-1 + (h - 2))); [lia|done]. }
  split; [done|]. split; [done|].
  apply NavPane_View_negative; [exact Hes | simpl; lia | simpl; lia].
Qed.

Lemma NavPane_View_panics_after_empty_directory_witness :
  exists n1 n2,
    NavPane.Update nestedEnv 1 (NavPane.mk 20 24 true "/proj/sub" [] 0 0) (KeyMsg "j")
      = Some n1 /\
    NavPane.Update nestedEnv 1 n1 (KeyMsg "h") = Some n2 /\
    NavPane.root n2
      = filepath_Dir nestedEnv (NavPane.root (NavPane.mk 20 24 true "/proj/sub" [] 0 0)) /\
    NavPane_View n2 = None.
Proof.
  apply (NavPane_View_panics_after_empty_directory nestedEnv 0
           (NavPane.mk 20 24 true "/proj/sub" [] 0 0) 0).
  - reflexivity.
  - reflexivity.
  - reflexivity.
  - reflexivity.
  - simpl. lia.
  - vm_compute. discriminate.
  - vm_compute. reflexivity.
  - simpl. lia.
Defined.

(** ** viewer.go, viewer_markdown.go: what the viewers draw *)

(** What a viewer's [View] puts on the screen, before styling: a text that
    [centerText] centres, or rows.  [Rows path body] stands for the header
    line, which renders [filepath.Base(path)], followed by the lines of
    [body]; [View] joins them with newlines. *)
Inductive ViewerScreen :=
| Centered (text : string)
| Rows (header : string) (body : list string).

(** [len(s)] of a string, and [s[:k]]; [None] is the panic of a slice bound
    out of range. *)
Definition strLen (s : string) : Z := Z.of_nat (String.length s).

Definition sliceTo (s : string) (k : Z) : option string :=
  if (k <? 0) || (strLen s <? k) then None
  else Some (String.substring 0 (Z.to_nat k) s).

(** The padding loop [for len(lines) < height] of both viewers, on the
    lines below the header. *)
Definition padToHeight (height : Z) (visible : list string) : list string :=
  visible ++ replicate (Z.to_nat (height - (1 + GoInt.len visible))) "".

(** [func (t *TextViewer) View() string] *)
Definition TextViewer_View (t0 : TextViewer.t) : option ViewerScreen :=
  if String.eqb (TextViewer.path t0) "" then Some (Centered "Select a file to view")
  else
    match TextViewer.err t0 with
    | Some e => Some (Centered ("Error: " +:+ e))
    | None =>
        let end_ := GoInt.sub (GoInt.add (TextViewer.offset t0) (TextViewer.height t0)) 1 in
        let end_ := if end_ >? GoInt.len (TextViewer.lines t0)
                    then GoInt.len (TextViewer.lines t0) else end_ in
        visible ← forEach (fun visible i =>
                     line ← GoInt.index (TextViewer.lines t0) i;
                     (* Truncate long lines *)
                     line ← (if strLen line >? GoInt.sub (TextViewer.width t0) 2
                             then (s ← sliceTo line (GoInt.sub (TextViewer.width t0) 5);
                                   Some (s +:+ "..."))
                             else Some line);
                     Some (visible ++ [line]))
                   (seqZ (TextViewer.offset t0) (end_ - TextViewer.offset t0)) [];
        Some (Rows (TextViewer.path t0) (padToHeight (TextViewer.height t0) visible))
    end.

(** [func (m *MarkdownViewer) View() string] *)
Definition MarkdownViewer_View (m : MarkdownViewer.t) : option ViewerScreen :=
  if String.eqb (MarkdownViewer.path m) "" then Some (Centered "Select a markdown file to view")
  else
    match MarkdownViewer.err m with
    | Some e => Some (Centered ("Error: " +:+ e))
    | None =>
        let end_ := GoInt.sub (GoInt.add (MarkdownViewer.offset m) (MarkdownViewer.height m)) 1 in
        let end_ := if end_ >? GoInt.len (MarkdownViewer.lines m)
                    then GoInt.len (MarkdownViewer.lines m) else end_ in
        visible ← forEach (fun visible i =>
                     line ← GoInt.index (MarkdownViewer.lines m) i;
                     Some (visible ++ [line]))
                   (seqZ (MarkdownViewer.offset m) (end_ - MarkdownViewer.offset m)) [];
        Some (Rows (MarkdownViewer.path m) (padToHeight (MarkdownViewer.height m) visible))
    end.

(** The line the text viewer draws for a line of the file. *)
Definition truncated (width : Z) (line : string) : option string :=
  if strLen line >? GoInt.sub width 2
  then (s ← sliceTo line (GoInt.sub width 5); Some (s +:+ "..."))
  else Some line.

Lemma substring_length s : forall n,
  (n <= String.length s)%nat -> String.length (String.substring 0 n s) = n.
Proof.
  induction s as [|c s IH]; intros [|n] Hn; simpl in *; try done; try lia.
  rewrite IH by lia. done.
Qed.

Lemma append_length (s1 s2 : string) :
  String.length (s1 +:+ s2) = (String.length s1 + String.length s2)%nat.
Proof. induction s1 as [|c s1 IH]; simpl; [done|]. by rewrite IH. Qed.

(** In a pane at least five columns wide a line is drawn, in at most
    [width - 2] bytes. *)
Lemma truncated_fits width line :
  5 <= width < 2 ^ 62 ->
  exists s, truncated width line = Some s /\ strLen s <= width - 2.
Proof.
  intros Hw. unfold truncated. go_arith.
  destruct (Z.gtb_spec (strLen line) (width - 2)) as [Hlong|Hshort]; [|by eauto].
  unfold sliceTo.
  destruct (Z.ltb_spec (width - 5) 0); [lia|].
  destruct (Z.ltb_spec (strLen line) (width - 5)); [lia|]. simpl.
  eexists; split; [reflexivity|].
  unfold strLen in *. rewrite append_length, substring_length by lia. simpl. lia.
Qed.

(** In a narrower pane a line longer than [width - 2] makes the slice
    bound negative. *)
Lemma truncated_panics width line :
  smallInt width -> width < 5 -> width - 2 < strLen line ->
  truncated width line = None.
Proof.
  intros Hs Hw Hl. unfold smallInt in Hs. unfold truncated. go_arith.
  destruct (Z.gtb_spec (strLen line) (width - 2)); [|lia].
  unfold sliceTo. destruct (Z.ltb_spec (width - 5) 0); [done|lia].
Qed.

(** The loop of a viewer's [View] over a window that lies inside the
    lines. *)
Lemma View_loop (draw : string -> option string) (lines : list string) (count : nat) :
  (forall line, line ∈ lines -> is_Some (draw line)) ->
  forall start visible0,
  0 <= start -> start + Z.of_nat count <= GoInt.len lines ->
  exists drawn,
    forEach (fun visible i =>
               line ← GoInt.index lines i;
               line ← draw line;
               Some (visible ++ [line]))
            (seqZ start (Z.of_nat count)) visible0
    = Some (visible0 ++ drawn) /\
    length drawn = count /\
    Forall2 (fun line d => draw line = Some d)
            (take count (drop (Z.to_nat start) lines)) drawn.
Proof.
  intros Hdraw. induction count as [|count IH]; intros start visible0 H0 Hle.
  - rewrite seqZ_nil by lia. exists []. simpl. rewrite app_nil_r. split_and!; [done|done|].
    constructor.
  - rewrite seqZ_cons by lia. cbn [forEach].
    destruct (GoInt.index_Some lines start) as [line Hline]; [lia|].
    rewrite Hline. cbn [mbind option_bind].
    assert (Hlook : lines !! Z.to_nat start = Some line).
    { unfold GoInt.index in Hline. by destruct (_ || _). }
    destruct (Hdraw line) as [d Hd]; [by eapply list_elem_of_lookup_2|].
    rewrite Hd. cbn [mbind option_bind].
    replace (Z.pred (Z.of_nat (S count))) with (Z.of_nat count) by lia.
    destruct (IH (Z.succ start) (visible0 ++ [d])) as (drawn & -> & Hlen & Hall); [lia|lia|].
    exists (d :: drawn). rewrite <- app_assoc. split_and!; [done|simpl; lia|].
    rewrite (drop_S lines line (Z.to_nat start) Hlook). cbn [take].
    constructor; [done|].
    replace (S (Z.to_nat start)) with (Z.to_nat (Z.succ start)) by lia. done.
Qed.

Lemma View_window (draw : string -> option string) (lines : list string) (offset vh : Z) :
  (forall line, line ∈ lines -> is_Some (draw line)) ->
  0 <= offset -> 0 <= vh ->
  exists drawn,
    forEach (fun visible i =>
               line ← GoInt.index lines i;
               line ← draw line;
               Some (visible ++ [line]))
            (seqZ offset ((if offset + vh >? GoInt.len lines then GoInt.len lines
                           else offset + vh) - offset)) []
    = Some drawn /\
    Forall2 (fun line d => draw line = Some d)
            (take (Z.to_nat vh) (drop (Z.to_nat offset) lines)) drawn /\
    GoInt.len drawn <= vh.
Proof.
  intros Hdraw Ho Hv. set (total := GoInt.len lines).
  assert (Hcount : forall c, 0 <= c -> c <= vh -> offset + c <= total ->
    take (Z.to_nat c) (drop (Z.to_nat offset) lines)
      = take (Z.to_nat vh) (drop (Z.to_nat offset) lines) ->
    exists drawn,
      forEach (fun visible i =>
                 line ← GoInt.index lines i;
                 line ← draw line;
                 Some (visible ++ [line]))
              (seqZ offset c) [] = Some drawn /\
      Forall2 (fun line d => draw line = Some d)
              (take (Z.to_nat vh) (drop (Z.to_nat offset) lines)) drawn /\
      GoInt.len drawn <= vh).
  { intros c Hc Hcv Hle Heq.
    destruct (View_loop draw lines (Z.to_nat c) Hdraw offset []) as (drawn & Hrun & Hlen & Hall);
      [lia|fold total; lia|].
    rewrite Z2Nat.id in Hrun by lia.
    exists drawn. rewrite <- Heq. split_and!; [done|done|]. unfold GoInt.len. lia. }
  destruct (Z.gtb_spec (offset + vh) total) as [Hgt|Hgt].
  - destruct (Z.le_gt_cases offset total) as [Hot|Hot].
    + apply Hcount; [lia|lia|lia|].
      rewrite !take_ge; [done| |]; rewrite length_drop; unfold total, GoInt.len in *; lia.
    + rewrite seqZ_nil by lia. exists []. simpl.
      rewrite drop_ge by (unfold total, GoInt.len in *; lia). rewrite take_nil.
      split_and!; [done|constructor|unfold GoInt.len; simpl; lia].
  - replace (offset + vh - offset) with vh by lia. apply Hcount; [lia|lia|lia|done].
Qed.

Lemma View_end_small o h :
  0 <= o < 2 ^ 62 -> 0 <= h < 2 ^ 62 ->
  GoInt.sub (GoInt.add o h) 1 = o + (h - 1).
Proof.
  intros Ho Hh. rewrite GoInt_add_small by (unfold smallInt; lia).
  unfold GoInt.sub. rewrite GoInt.wrap_id; [lia|].
  unfold GoInt.inRange, GoInt.minInt, GoInt.maxInt. lia.
Qed.

Lemma padToHeight_length height visible :
  GoInt.len visible <= height - 1 ->
  1 + GoInt.len (padToHeight height visible) = height.
Proof.
  intros Hl. unfold padToHeight, GoInt.len in *. rewrite length_app, length_replicate. lia.
Qed.

(** X10: The text viewer, at least five columns wide and with an offset that is
    not negative, draws without a panic: the window of the lines from
    [offset], [height - 1] lines long, each cut to at most [width - 2]
    bytes, padded so that header and lines fill the height exactly. *)
Theorem TextViewer_View_fits (t0 : TextViewer.t) :
  TextViewer.path t0 <> "" -> TextViewer.err t0 = None ->
  0 <= TextViewer.offset t0 < 2 ^ 62 ->
  1 <= TextViewer.height t0 < 2 ^ 62 ->
  5 <= TextViewer.width t0 < 2 ^ 62 ->
  exists drawn,
    TextViewer_View t0
      = Some (Rows (TextViewer.path t0) (padToHeight (TextViewer.height t0) drawn)) /\
    Forall2 (fun line d => truncated (TextViewer.width t0) line = Some d)
            (take (Z.to_nat (TextViewer.height t0 - 1))
                  (drop (Z.to_nat (TextViewer.offset t0)) (TextViewer.lines t0)))
            drawn /\
    1 + GoInt.len (padToHeight (TextViewer.height t0) drawn) = TextViewer.height t0 /\
    Forall (fun d => strLen d <= TextViewer.width t0 - 2)
           (padToHeight (TextViewer.height t0) drawn).
Proof.
  intros Hp He Ho Hh Hw. unfold TextViewer_View.
  destruct (String.eqb_spec (TextViewer.path t0) ""); [done|].
  rewrite He. cbv zeta. rewrite View_end_small by lia.
  destruct (View_window (truncated (TextViewer.width t0)) (TextViewer.lines t0)
              (TextViewer.offset t0) (TextViewer.height t0 - 1))
    as (drawn & Hrun & Hall & Hlen); [|lia|lia|].
  { intros line _. destruct (truncated_fits (TextViewer.width t0) line Hw) as (s & -> & _).
    by eexists. }
  exists drawn.
  match goal with |- context [forEach ?f ?l ?a] =>
    change (forEach f l a) with
      (forEach (fun visible i =>
                  line ← GoInt.index (TextViewer.lines t0) i;
                  line ← truncated (TextViewer.width t0) line;
                  Some (visible ++ [line])) l a) end.
  rewrite Hrun. simpl. split_and!; [done|done|by apply padToHeight_length|].
  unfold padToHeight. apply Forall_app. split.
  - clear Hrun Hlen. induction Hall as [|line d ls ds Hd _ IH]; constructor; [|done].
    destruct (truncated_fits (TextViewer.width t0) line Hw) as (s & Hs & Hfit).
    rewrite Hs in Hd. by injection Hd as <-.
  - apply Forall_replicate. unfold strLen. simpl. lia.
Qed.

Lemma TextViewer_View_fits_witness :
  exists drawn,
    TextViewer_View (TextViewer.mk 8 3 true "/a.txt" "" ["0123456789"; "ab"; "cd"] 0 None)
      = Some (Rows "/a.txt" (padToHeight 3 drawn)) /\
    Forall2 (fun line d => truncated 8 line = Some d)
            (take (Z.to_nat (3 - 1)) (drop (Z.to_nat 0) ["0123456789"; "ab"; "cd"]))
            drawn /\
    1 + GoInt.len (padToHeight 3 drawn) = 3 /\
    Forall (fun d => strLen d <= 8 - 2) (padToHeight 3 drawn).
Proof.
  apply (TextViewer_View_fits
           (TextViewer.mk 8 3 true "/a.txt" "" ["0123456789"; "ab"; "cd"] 0 None)).
  - discriminate.
  - reflexivity.
  - simpl. lia.
  - simpl. lia.
  - simpl. lia.
Defined.

(** X11: In a text viewer narrower than five columns, a first visible line of
    more than [width - 2] bytes makes [View] panic. *)
Theorem TextViewer_View_narrow_panics (t0 : TextViewer.t) (line : string) :
  TextViewer.path t0 <> "" -> TextViewer.err t0 = None ->
  GoInt.index (TextViewer.lines t0) (TextViewer.offset t0) = Some line ->
  TextViewer.offset t0 < 2 ^ 62 ->
  2 <= TextViewer.height t0 < 2 ^ 62 ->
  smallInt (TextViewer.width t0) -> TextViewer.width t0 < 5 ->
  TextViewer.width t0 - 2 < strLen line ->
  TextViewer_View t0 = None.
Proof.
  intros Hp He Hline Ho Hh Hs Hw Hl. unfold TextViewer_View.
  destruct (String.eqb_spec (TextViewer.path t0) ""); [done|].
  rewrite He. cbv zeta.
  assert (Hin : 0 <= TextViewer.offset t0 < GoInt.len (TextViewer.lines t0)).
  { unfold GoInt.index in Hline.
    destruct (Z.ltb_spec (TextViewer.offset t0) 0); [done|].
    destruct (Z.leb_spec (GoInt.len (TextViewer.lines t0)) (TextViewer.offset t0)); [done|lia]. }
  rewrite View_end_small by lia.
  set (total := GoInt.len (TextViewer.lines t0)) in *.
  assert (Hend : 0 < (if TextViewer.offset t0 + (TextViewer.height t0 - 1) >? total then total
                      else TextViewer.offset t0 + (TextViewer.height t0 - 1))
                     - TextViewer.offset t0).
  { destruct (Z.gtb_spec (TextViewer.offset t0 + (TextViewer.height t0 - 1)) total); lia. }
  rewrite seqZ_cons by done. cbn [forEach]. rewrite Hline. cbn [mbind option_bind].
  pose proof (truncated_panics _ _ Hs Hw Hl) as Ht. unfold truncated in Ht.
  rewrite Ht. done.
Qed.

Lemma TextViewer_View_narrow_panics_witness :
  TextViewer_View (TextViewer.mk 4 24 true "/a.txt" "abc" ["abc"] 0 None) = None.
Proof.
  apply (TextViewer_View_narrow_panics
           (TextViewer.mk 4 24 true "/a.txt" "abc" ["abc"] 0 None) "abc").
  - discriminate.
  - reflexivity.
  - reflexivity.
  - simpl. lia.
  - simpl. lia.
  - unfold smallInt. simpl. lia.
  - simpl. lia.
  - unfold strLen. simpl. lia.
Defined.

(** X12: The markdown viewer with an offset that is not negative draws without
    a panic: the window of the rendered lines from [offset], [height - 1]
    lines long and uncut, padded so that header and lines fill the height
    exactly. *)
Theorem MarkdownViewer_View_window (m : MarkdownViewer.t) :
  MarkdownViewer.path m <> "" -> MarkdownViewer.err m = None ->
  0 <= MarkdownViewer.offset m < 2 ^ 62 ->
  1 <= MarkdownViewer.height m < 2 ^ 62 ->
  let visible := take (Z.to_nat (MarkdownViewer.height m - 1))
                      (drop (Z.to_nat (MarkdownViewer.offset m)) (MarkdownViewer.lines m)) in
  MarkdownViewer_View m
    = Some (Rows (MarkdownViewer.path m) (padToHeight (MarkdownViewer.height m) visible)) /\
  1 + GoInt.len (padToHeight (MarkdownViewer.height m) visible) = MarkdownViewer.height m.
Proof.
  intros Hp He Ho Hh visible. unfold MarkdownViewer_View.
  destruct (String.eqb_spec (MarkdownViewer.path m) ""); [done|].
  rewrite He. cbv zeta. rewrite View_end_small by lia.
  destruct (View_window Some (MarkdownViewer.lines m)
              (MarkdownViewer.offset m) (MarkdownViewer.height m - 1))
    as (drawn & Hrun & Hall & Hlen); [by eauto|lia|lia|].
  cbn [mbind option_bind] in Hrun.
  assert (Hd : drawn = visible).
  { subst visible. clear Hrun Hlen. induction Hall as [|line d ls ds Hd _ IH]; [done|].
    injection Hd as ->. by rewrite IH. }
  subst drawn.
  rewrite Hrun. simpl. split; [done|]. by apply padToHeight_length.
Qed.

Lemma MarkdownViewer_View_window_witness :
  let m := MarkdownViewer.mk 80 3 true "/a.md" "" ["l0"; "l1"; "l2"; "l3"] 1 None in
  let visible := take (Z.to_nat (MarkdownViewer.height m - 1))
                      (drop (Z.to_nat (MarkdownViewer.offset m)) (MarkdownViewer.lines m)) in
  MarkdownViewer_View m
    = Some (Rows (MarkdownViewer.path m) (padToHeight (MarkdownViewer.height m) visible)) /\
  1 + GoInt.len (padToHeight (MarkdownViewer.height m) visible) = MarkdownViewer.height m.
Proof.
  apply (MarkdownViewer_View_window
           (MarkdownViewer.mk 80 3 true "/a.md" "" ["l0"; "l1"; "l2"; "l3"] 1 None)).
  - discriminate.
  - reflexivity.
  - simpl. lia.
  - simpl. lia.
Defined.

(** X24: Jumping to the end shows the end: after [G] a markdown viewer of at
    least three rows draws every line from the new offset to the last one,
    so the last line of the document is on the screen whenever there is a
    line at all. *)
Theorem MarkdownViewer_G_shows_end (m : MarkdownViewer.t) :
  MarkdownViewer.focused m = true ->
  MarkdownViewer.path m <> "" -> MarkdownViewer.err m = None ->
  3 <= MarkdownViewer.height m < 2 ^ 62 ->
  GoInt.len (MarkdownViewer.lines m) < 2 ^ 62 ->
  let m' := MarkdownViewer.Update m (KeyMsg "G") in
  let tail := drop (Z.to_nat (MarkdownViewer.offset m')) (MarkdownViewer.lines m) in
  MarkdownViewer.offset m'
    = Z.max 0 (GoInt.len (MarkdownViewer.lines m) - MarkdownViewer.height m + 2) /\
  MarkdownViewer_View m'
    = Some (Rows (MarkdownViewer.path m) (padToHeight (MarkdownViewer.height m) tail)) /\
  (forall line, last (MarkdownViewer.lines m) = Some line -> last tail = Some line).
Proof.
  intros Hf Hp He Hh Hl m' tail.
  pose proof (GoInt.len_nonneg (MarkdownViewer.lines m)) as Hl0.
  set (total := GoInt.len (MarkdownViewer.lines m)) in *.
  assert (Hm' : m' = MarkdownViewer.set_offset m
                       (Z.max 0 (total - MarkdownViewer.height m + 2))).
  { subst m'. cbn [MarkdownViewer.Update]. rewrite Hf. cbn [negb]. decide_keys.
    fold total. by go_arith. }
  assert (Ho : MarkdownViewer.offset m' = Z.max 0 (total - MarkdownViewer.height m + 2)).
  { by rewrite Hm'. }
  split; [done|].
  assert (Htail : tail = take (Z.to_nat (MarkdownViewer.height m - 1)) tail).
  { symmetry. apply take_ge. subst tail. rewrite length_drop, Ho.
    unfold total, GoInt.len in *. lia. }
  split.
  - subst total. unfold MarkdownViewer_View. rewrite Hm'.
    cbn [MarkdownViewer.path MarkdownViewer.err MarkdownViewer.offset MarkdownViewer.height
         MarkdownViewer.lines MarkdownViewer.set_offset].
    destruct (String.eqb_spec (MarkdownViewer.path m) ""); [done|].
    rewrite He. cbv zeta. rewrite View_end_small by lia.
    destruct (View_window Some (MarkdownViewer.lines m)
                (Z.max 0 (GoInt.len (MarkdownViewer.lines m) - MarkdownViewer.height m + 2))
                (MarkdownViewer.height m - 1))
      as (drawn & Hrun & Hall & Hlen); [by eauto|lia|lia|].
    cbn [mbind option_bind] in Hrun. rewrite Hrun. simpl. do 3 f_equal.
    rewrite Htail. subst tail. rewrite Ho. clear Hrun Hlen Htail.
    induction Hall as [|line d ls ds Hd _ IH]; [done|].
    injection Hd as ->. by rewrite IH.
  - intros line Hlast. subst tail. rewrite last_lookup in Hlast |- *.
    rewrite length_drop, lookup_drop, Ho.
    assert (Hpos : (0 < length (MarkdownViewer.lines m))%nat).
    { destruct (MarkdownViewer.lines m); [done|]. simpl. lia. }
    rewrite <- Hlast. f_equal. unfold total, GoInt.len in *. lia.
Qed.

Lemma MarkdownViewer_G_shows_end_witness :
  let m := MarkdownViewer.mk 80 4 true "/a.md" "" ["l0"; "l1"; "l2"; "l3"; "l4"] 0 None in
  let m' := MarkdownViewer.Update m (KeyMsg "G") in
  let tail := drop (Z.to_nat (MarkdownViewer.offset m')) (MarkdownViewer.lines m) in
  MarkdownViewer.offset m'
    = Z.max 0 (GoInt.len (MarkdownViewer.lines m) - MarkdownViewer.height m + 2) /\
  MarkdownViewer_View m'
    = Some (Rows (MarkdownViewer.path m) (padToHeight (MarkdownViewer.height m) tail)) /\
  (forall line, last (MarkdownViewer.lines m) = Some line -> last tail = Some line).
Proof.
  apply (MarkdownViewer_G_shows_end
           (MarkdownViewer.mk 80 4 true "/a.md" "" ["l0"; "l1"; "l2"; "l3"; "l4"] 0 None)).
  - reflexivity.
  - discriminate.
  - reflexivity.
  - simpl. lia.
  - unfold GoInt.len. simpl. lia.
Defined.

(** ** The JSON viewer: when a key panics *)

Lemma keyIs_toggle_not_move key :
  (keyIs key ["enter"; "l"; "right"] || keyIs key ["h"; "left"]) = true ->
  keyIs key ["j"; "down"] = false /\ keyIs key ["k"; "up"] = false.
Proof.
  intros H. apply orb_true_iff in H as [H|H]; apply keyIs_In in H; simpl in H;
    repeat (destruct H as [<-|H]; [by vm_compute|]); done.
Qed.

Lemma keyIs_collapse_not_toggle key :
  keyIs key ["h"; "left"] = true -> keyIs key ["enter"; "l"; "right"] = false.
Proof.
  intros H. apply keyIs_In in H; simpl in H;
    repeat (destruct H as [<-|H]; [by vm_compute|]); done.
Qed.

(** X13: [JSONViewer.Update] panics in one situation only: the viewer is
    focused, the cursor is negative, and the key is one of those that read
    [visible[j.cursor]].  Every other message returns. *)
Theorem JSONViewer_Update_panics_iff (j : JSONViewer.t) (msg : Msg) :
  JSONViewer.Update j msg = None <->
  exists key, msg = KeyMsg key /\
    JSONViewer.focused j = true /\ JSONViewer.cursor j < 0 /\
    (keyIs key ["enter"; "l"; "right"] || keyIs key ["h"; "left"]) = true.
Proof.
  destruct msg as [key| | | | |P R E| | | |];
    try (split; [done|by intros (k & [=] & _)]).
  2: { cbn [JSONViewer.Update]. destruct (String.eqb P _); split; try done;
       by intros (k & [=] & _). }
  assert (Hread : forall (cont : Ptr * JSONNode -> option JSONViewer.t),
    (forall pn, is_Some (cont pn)) ->
    (if JSONViewer.cursor j <? GoInt.len (JSONViewer.visibleNodes j)
     then GoInt.index (JSONViewer.visibleNodes j) (JSONViewer.cursor j) ≫= cont
     else Some j) = None <-> JSONViewer.cursor j < 0).
  { intros cont Hcont.
    pose proof (GoInt.len_nonneg (JSONViewer.visibleNodes j)) as Hl.
    destruct (Z.ltb_spec (JSONViewer.cursor j) (GoInt.len (JSONViewer.visibleNodes j))) as [Hlt|Hge].
    - destruct (Z.le_gt_cases 0 (JSONViewer.cursor j)) as [Hpos|Hneg].
      + destruct (GoInt.index_Some (JSONViewer.visibleNodes j) (JSONViewer.cursor j)) as [pn ->];
          [lia|]. simpl. destruct (Hcont pn) as [x ->]. split; [done|lia].
      + rewrite GoInt.index_None by lia. simpl. split; [done|done].
    - split; [done|lia]. }
  cbn [JSONViewer.Update]. destruct (JSONViewer.focused j) eqn:Hf; cbn [negb].
  2: { split; [done|]. by intros (k & _ & [=] & _). }
  cbv zeta.
  destruct (keyIs key ["j"; "down"]) eqn:Hj.
  { split; [by destruct (JSONViewer.cursor j <? GoInt.sub _ 1)|]. intros (k & [= <-] & _ & _ & Hk).
    apply keyIs_toggle_not_move in Hk as [Hk _]. congruence. }
  destruct (keyIs key ["k"; "up"]) eqn:Hk'.
  { split; [by destruct (JSONViewer.cursor j >? 0)|]. intros (k & [= <-] & _ & _ & Hk).
    apply keyIs_toggle_not_move in Hk as [_ Hk]. congruence. }
  destruct (keyIs key ["enter"; "l"; "right"]) eqn:He.
  { match goal with |- (if _ then _ ≫= ?c else _) = None <-> _ => rewrite (Hread c) end.
    - split; [|by intros (k & _ & _ & Hc & _)].
      intros Hc. exists key. by rewrite He.
    - intros [p node]. simpl. destruct (_ >? _); by eexists. }
  destruct (keyIs key ["h"; "left"]) eqn:Hh.
  { match goal with |- (if _ then _ ≫= ?c else _) = None <-> _ => rewrite (Hread c) end.
    - split; [|by intros (k & _ & _ & Hc & _)].
      intros Hc. exists key. by rewrite He, Hh.
    - intros [p node]. simpl. destruct (_ && _); by eexists. }
  split.
  - repeat match goal with |- context [if ?b then _ else _] => destruct b end; done.
  - intros (k & [= <-] & _ & _ & Hk). rewrite He, Hh in Hk. done.
Qed.

(** ** The JSON viewer: what a toggle does to the visible sequence *)

Lemma nodeAt_updateAt f p : forall r,
  nodeAt (JSONViewer.updateAt f p r) p = f <$> nodeAt r p.
Proof.
  induction p as [|i p IH]; intros r; [done|].
  cbn [JSONViewer.updateAt nodeAt Children].
  rewrite list_lookup_alter. destruct (decide (i = i)); [|done].
  destruct (Children r !! i) as [c|]; [|done]. simpl. apply IH.
Qed.

Lemma nodeAt_app p q : forall r,
  nodeAt r (p ++ q) = nodeAt r p ≫= fun m => nodeAt m q.
Proof.
  induction p as [|i p IH]; intros r; [done|].
  cbn [app nodeAt]. destruct (Children r !! i) as [c|]; [|done]. simpl. apply IH.
Qed.

Lemma nodeAt_updateAt_below f p q r :
  nodeAt (JSONViewer.updateAt f p r) (p ++ q) = nodeAt r p ≫= fun m => nodeAt (f m) q.
Proof.
  rewrite nodeAt_app, nodeAt_updateAt. by destruct (nodeAt r p).
Qed.

(** The flags of the proper ancestors of an address are not touched by a
    write at that address. *)
Lemma ancestorsExpanded_updateAt f p : forall r,
  ancestorsExpanded (JSONViewer.updateAt f p r) p = ancestorsExpanded r p.
Proof.
  induction p as [|i p IH]; intros r; [done|].
  cbn [JSONViewer.updateAt ancestorsExpanded Children Expanded].
  rewrite list_lookup_alter. destruct (decide (i = i)); [|done].
  destruct (Children r !! i) as [c|]; [|done]. simpl. by rewrite IH.
Qed.

Lemma ancestorsExpanded_app p i q : forall r m,
  nodeAt r p = Some m ->
  ancestorsExpanded r (p ++ i :: q)
  = ancestorsExpanded r p && ancestorsExpanded m (i :: q).
Proof.
  induction p as [|k p IH]; intros r m Hm.
  - injection Hm as <-. done.
  - cbn [app ancestorsExpanded]. cbn [nodeAt] in Hm.
    destruct (Children r !! k) as [c|]; [|done]. simpl in Hm.
    rewrite (IH c m Hm). by rewrite andb_assoc.
Qed.

Lemma updateAt_updateAt f g p : forall r,
  JSONViewer.updateAt f p (JSONViewer.updateAt g p r)
  = JSONViewer.updateAt (f ∘ g) p r.
Proof.
  induction p as [|i p IH]; intros r; [done|].
  cbn [JSONViewer.updateAt Key Value Children Expanded Depth IsArray].
  f_equal. rewrite list_alter_alter_eq. apply list_alter_ext; [|done].
  intros c _. apply IH.
Qed.

Lemma updateAt_id h p : forall r,
  (forall n, h n = n) -> JSONViewer.updateAt h p r = r.
Proof.
  induction p as [|i p IH]; intros r Hh; [apply Hh|].
  cbn [JSONViewer.updateAt]. rewrite list_alter_id by (intros c; by apply IH).
  by destruct r.
Qed.

(** Flipping the flag of a node twice gives the tree back. *)
Lemma updateAt_flip_twice p r :
  JSONViewer.updateAt (fun n => JSONNode_setExpanded n (negb (Expanded n))) p
    (JSONViewer.updateAt (fun n => JSONNode_setExpanded n (negb (Expanded n))) p r) = r.
Proof.
  rewrite updateAt_updateAt. apply updateAt_id.
  intros [key value children expanded depth isArray]. unfold JSONNode_setExpanded. simpl.
  by rewrite negb_involutive.
Qed.

(** Positions in a concatenation of blocks. *)
Lemma flatMapi_lookup {A B} (g : nat -> A -> list B) (l : list A) : forall i c x,
  flatMapi g i l !! c = Some x ->
  exists k y c', l !! k = Some y /\ g (i + k)%nat y !! c' = Some x /\
                 c = (length (flatMapi g i (take k l)) + c')%nat.
Proof.
  induction l as [|y l IH]; intros i c x Hc; [done|].
  cbn [flatMapi] in Hc. apply lookup_app_Some in Hc as [Hc|[Hlen Hc]].
  - exists 0%nat, y, c. rewrite Nat.add_0_r. done.
  - destruct (IH (S i) _ x Hc) as (k & y' & c' & Hk & Hg & Heq).
    exists (S k), y', c'. split; [done|].
    replace (i + S k)%nat with (S i + k)%nat by lia. split; [done|].
    cbn [take flatMapi]. rewrite length_app. lia.
Qed.

Lemma flatMapi_lookup_at {A B} (g : nat -> A -> list B) (l : list A) : forall i k y c' x,
  l !! k = Some y -> g (i + k)%nat y !! c' = Some x ->
  flatMapi g i l !! (length (flatMapi g i (take k l)) + c')%nat = Some x.
Proof.
  induction l as [|z l IH]; intros i k y c' x Hk Hg; [done|].
  destruct k as [|k]; cbn [take flatMapi].
  - injection Hk as ->. rewrite Nat.add_0_r in Hg. simpl.
    apply lookup_app_Some. by left.
  - rewrite length_app, <- Nat.add_assoc. rewrite lookup_app_r by lia.
    replace (length (g i z) + (length (flatMapi g (S i) (take k l)) + c') - length (g i z))%nat
      with (length (flatMapi g (S i) (take k l)) + c')%nat by lia.
    apply (IH (S i) k y); [done|].
    by replace (S i + k)%nat with (i + S k)%nat by lia.
Qed.

(** A write at a visible address leaves that address where it is in the
    visible sequence. *)
Lemma visibleSpec_lookup_updateAt f r : forall c p m,
  visibleSpec r !! c = Some (p, m) ->
  visibleSpec (JSONViewer.updateAt f p r) !! c = Some (p, f m).
Proof.
  induction r as [key value children expanded depth isArray IH]
    using JSONNode_nested_ind.
  intros c p m Hc. rewrite visibleSpec_unfold in Hc. cbn [Expanded Children] in Hc.
  destruct c as [|c].
  - injection Hc as <- <-. cbn [JSONViewer.updateAt]. by rewrite visibleSpec_unfold.
  - cbn [lookup list_lookup] in Hc. destruct expanded; [|done].
    apply flatMapi_lookup in Hc as (k & child & c' & Hk & Hg & ->).
    simpl in Hg. rewrite list_lookup_fmap in Hg.
    destruct (visibleSpec child !! c') as [[p' m']|] eqn:Hc'; [|done].
    injection Hg as <- <-. cbn [under fst snd].
    rewrite Forall_lookup in IH. specialize (IH k child Hk c' p' m' Hc').
    cbn [JSONViewer.updateAt Key Value Children Expanded Depth IsArray].
    rewrite visibleSpec_unfold. cbn [Expanded Children lookup list_lookup].
    rewrite <- (take_alter_ge (JSONViewer.updateAt f p') children k k) by lia.
    apply (flatMapi_lookup_at _ _ 0 k (JSONViewer.updateAt f p' child)).
    + rewrite list_lookup_alter. destruct (decide (k = k)); [|done]. by rewrite Hk.
    + simpl. rewrite list_lookup_fmap, IH. done.
Qed.

Lemma GoInt_index_lookup {A} (l : list A) i x :
  GoInt.index l i = Some x <-> 0 <= i /\ l !! Z.to_nat i = Some x.
Proof.
  unfold GoInt.index, GoInt.len. split.
  - destruct (Z.ltb_spec i 0); [done|].
    destruct (Z.leb_spec (Z.of_nat (length l)) i); [done|]. simpl. done.
  - intros [Hi Hl]. pose proof (lookup_lt_Some _ _ _ Hl).
    destruct (Z.ltb_spec i 0); [lia|].
    destruct (Z.leb_spec (Z.of_nat (length l)) i); [lia|]. done.
Qed.

(** The toggle keys of a focused viewer whose cursor is on the node at [p]:
    the flag of that node is flipped when it has children, and the cursor
    is on the same node afterwards. *)
Lemma JSONViewer_toggle_at j r key p m :
  JSONViewer.focused j = true ->
  keyIs key ["enter"; "l"; "right"] = true ->
  JSONViewer.root j = Some r ->
  GoInt.index (JSONViewer.visibleNodes j) (JSONViewer.cursor j) = Some (p, m) ->
  Children m <> [] ->
  let flip := fun n => JSONNode_setExpanded n (negb (Expanded n)) in
  let j' := JSONViewer.set_root j (Some (JSONViewer.updateAt flip p r)) in
  JSONViewer.Update j (KeyMsg key) = Some j' /\
  GoInt.index (JSONViewer.visibleNodes j') (JSONViewer.cursor j') = Some (p, flip m).
Proof.
  intros Hf He Hr Hi Hm flip j'.
  destruct (keyIs_toggle_not_move key) as [Hj Hk]; [by rewrite He|].
  split.
  - cbn [JSONViewer.Update]. rewrite Hf. cbn [negb]. cbv zeta. rewrite Hj, Hk, He.
    apply GoInt_index_lookup in Hi as Hi'. destruct Hi' as [H0 Hl].
    pose proof (lookup_lt_Some _ _ _ Hl) as Hlt.
    destruct (Z.ltb_spec (JSONViewer.cursor j) (GoInt.len (JSONViewer.visibleNodes j)));
      [|unfold GoInt.len in *; lia].
    rewrite Hi. simpl.
    destruct (Z.gtb_spec (GoInt.len (Children m)) 0) as [_|Hle].
    + unfold JSONViewer.flipExpanded. by rewrite Hr.
    + destruct (Children m); [done|]. unfold GoInt.len in Hle. simpl in Hle. lia.
  - rewrite visibleNodes_visibleSpec in Hi |- *. rewrite Hr in Hi. simpl in Hi.
    subst j'. cbn [JSONViewer.root JSONViewer.set_root JSONViewer.cursor from_option].
    apply GoInt_index_lookup in Hi as [H0 Hl]. apply GoInt_index_lookup. split; [done|].
    by apply visibleSpec_lookup_updateAt.
Qed.

(** X14: Toggling the same node twice is the identity: two presses of a toggle
    key, from any state with a cursor that is not negative, give back the
    state before them, flags, cursor and offset. *)
Theorem JSONViewer_toggle_twice (j : JSONViewer.t) (key : string) :
  0 <= JSONViewer.cursor j ->
  keyIs key ["enter"; "l"; "right"] = true ->
  exists j1,
    JSONViewer.Update j (KeyMsg key) = Some j1 /\
    JSONViewer.cursor j1 = JSONViewer.cursor j /\
    JSONViewer.Update j1 (KeyMsg key) = Some j.
Proof.
  intros Hc He.
  destruct (keyIs_toggle_not_move key) as [Hj Hk]; [by rewrite He|].
  assert (Hsame : JSONViewer.Update j (KeyMsg key) = Some j ->
                  exists j1, JSONViewer.Update j (KeyMsg key) = Some j1 /\
                             JSONViewer.cursor j1 = JSONViewer.cursor j /\
                             JSONViewer.Update j1 (KeyMsg key) = Some j).
  { intros H. exists j. done. }
  destruct (JSONViewer.focused j) eqn:Hf.
  2: { apply Hsame. cbn [JSONViewer.Update]. by rewrite Hf. }
  destruct (Z.ltb_spec (JSONViewer.cursor j) (GoInt.len (JSONViewer.visibleNodes j)))
    as [Hlt|Hge].
  2: { apply Hsame. cbn [JSONViewer.Update]. rewrite Hf. cbn [negb]. cbv zeta.
       rewrite Hj, Hk, He.
       by destruct (Z.ltb_spec (JSONViewer.cursor j) (GoInt.len (JSONViewer.visibleNodes j)));
         [lia|]. }
  destruct (GoInt.index_Some (JSONViewer.visibleNodes j) (JSONViewer.cursor j))
    as [[p m] Hi]; [lia|].
  destruct (JSONViewer.root j) as [r|] eqn:Hr.
  2: { unfold JSONViewer.visibleNodes in Hlt. rewrite Hr in Hlt. unfold GoInt.len in Hlt.
       simpl in Hlt. lia. }
  destruct (Children m) as [|c0 cs] eqn:Hm.
  { apply Hsame. cbn [JSONViewer.Update]. rewrite Hf. cbn [negb]. cbv zeta.
    rewrite Hj, Hk, He.
    destruct (Z.ltb_spec (JSONViewer.cursor j) (GoInt.len (JSONViewer.visibleNodes j)));
      [|lia].
    rewrite Hi. simpl. by rewrite Hm. }
  destruct (JSONViewer_toggle_at j r key p m Hf He Hr Hi) as [H1 Hi1]; [by rewrite Hm|].
  cbv zeta in H1, Hi1.
  set (flip := fun n => JSONNode_setExpanded n (negb (Expanded n))) in *.
  set (j1 := JSONViewer.set_root j (Some (JSONViewer.updateAt flip p r))) in *.
  exists j1. split; [done|]. split; [done|].
  destruct (JSONViewer_toggle_at j1 (JSONViewer.updateAt flip p r) key p (flip m))
    as [H2 _]; [done|done|done|done|by (simpl; rewrite Hm)|].
  cbv zeta in H2. rewrite H2. f_equal. fold flip.
  unfold flip at 1 2. rewrite updateAt_flip_twice.
  subst j1. destruct j. simpl in *. by subst.
Qed.

Lemma JSONViewer_toggle_twice_witness :
  exists j1,
    JSONViewer.Update (Sample.viewer10 24 0 0) (KeyMsg "enter") = Some j1 /\
    JSONViewer.cursor j1 = JSONViewer.cursor (Sample.viewer10 24 0 0) /\
    JSONViewer.Update j1 (KeyMsg "enter") = Some (Sample.viewer10 24 0 0).
Proof.
  apply (JSONViewer_toggle_twice (Sample.viewer10 24 0 0) "enter").
  - simpl. lia.
  - reflexivity.
Defined.

(** X15: Expanding a collapsed node shows its children: after a toggle key on a
    collapsed node with children, the cursor is still on that node, now
    expanded, and each of its children is in the visible sequence. *)
Theorem JSONViewer_expand_shows_children (j : JSONViewer.t) (key : string)
    (p : Ptr) (m : JSONNode) :
  JSONViewer.focused j = true ->
  keyIs key ["enter"; "l"; "right"] = true ->
  GoInt.index (JSONViewer.visibleNodes j) (JSONViewer.cursor j) = Some (p, m) ->
  Expanded m = false -> Children m <> [] ->
  exists j',
    JSONViewer.Update j (KeyMsg key) = Some j' /\
    JSONViewer.cursor j' = JSONViewer.cursor j /\
    GoInt.index (JSONViewer.visibleNodes j') (JSONViewer.cursor j')
      = Some (p, JSONNode_setExpanded m true) /\
    forall i c, Children m !! i = Some c -> (p ++ [i], c) ∈ JSONViewer.visibleNodes j'.
Proof.
  intros Hf He Hi Hx Hm.
  destruct (JSONViewer.root j) as [r|] eqn:Hr.
  2: { unfold JSONViewer.visibleNodes in Hi. rewrite Hr in Hi.
       by apply GoInt_index_lookup in Hi as [_ Hi]. }
  destruct (JSONViewer_toggle_at j r key p m Hf He Hr Hi Hm) as [H1 Hi1].
  cbv zeta in H1, Hi1. rewrite Hx in Hi1. cbn [negb] in Hi1.
  eexists. split; [exact H1|]. split; [done|]. split; [exact Hi1|].
  intros i c Hc.
  rewrite visibleNodes_visibleSpec. cbn [JSONViewer.root JSONViewer.set_root from_option].
  pose proof (visibleNodes_index j r _ p m Hr Hi) as Hp.
  apply GoInt_index_lookup in Hi as [_ Hl]. apply list_elem_of_lookup_2 in Hl.
  rewrite visibleNodes_visibleSpec, Hr in Hl. simpl in Hl.
  apply visibleSpec_elem in Hl as [_ Ha].
  apply visibleSpec_elem. split.
  - rewrite nodeAt_updateAt_below, Hp. simpl. by rewrite Hc.
  - rewrite (ancestorsExpanded_app p i [] _ (JSONNode_setExpanded m (negb (Expanded m)))).
    + rewrite ancestorsExpanded_updateAt, Ha, Hx. simpl. by rewrite Hc.
    + by rewrite nodeAt_updateAt, Hp.
Qed.

Lemma JSONViewer_expand_shows_children_witness :
  exists j',
    JSONViewer.Update
      (JSONViewer.mk 80 24 true "/d.json"
         (Some (mkJSONNode "" VNil [Sample.leaf 0; Sample.leaf 1] false 0 true)) 0 0 None)
      (KeyMsg "l") = Some j' /\
    JSONViewer.cursor j'
      = JSONViewer.cursor
          (JSONViewer.mk 80 24 true "/d.json"
             (Some (mkJSONNode "" VNil [Sample.leaf 0; Sample.leaf 1] false 0 true)) 0 0 None) /\
    GoInt.index (JSONViewer.visibleNodes j') (JSONViewer.cursor j')
      = Some ([], JSONNode_setExpanded
                    (mkJSONNode "" VNil [Sample.leaf 0; Sample.leaf 1] false 0 true) true) /\
    forall i c,
      Children (mkJSONNode "" VNil [Sample.leaf 0; Sample.leaf 1] false 0 true) !! i = Some c ->
      ([] ++ [i], c) ∈ JSONViewer.visibleNodes j'.
Proof.
  apply (JSONViewer_expand_shows_children
           (JSONViewer.mk 80 24 true "/d.json"
              (Some (mkJSONNode "" VNil [Sample.leaf 0; Sample.leaf 1] false 0 true)) 0 0 None)
           "l" [] (mkJSONNode "" VNil [Sample.leaf 0; Sample.leaf 1] false 0 true)).
  - reflexivity.
  - reflexivity.
  - reflexivity.
  - reflexivity.
  - discriminate.
Defined.

Lemma updateAt_ext_at f g p : forall r m,
  nodeAt r p = Some m -> f m = g m ->
  JSONViewer.updateAt f p r = JSONViewer.updateAt g p r.
Proof.
  induction p as [|i p IH]; intros r m Hm Hfg.
  - injection Hm as <-. done.
  - cbn [JSONViewer.updateAt]. f_equal. apply list_alter_ext; [|done].
    intros c Hc. cbn [nodeAt] in Hm. rewrite Hc in Hm. simpl in Hm. by apply (IH c m).
Qed.

(** X16: Collapsing hides the subtree: after a toggle key or a collapse key on
    an expanded node with children, the cursor is still on that node, now
    collapsed, and no node below it is in the visible sequence. *)
Theorem JSONViewer_collapse_hides_descendants (j : JSONViewer.t) (key : string)
    (p : Ptr) (m : JSONNode) :
  JSONViewer.focused j = true ->
  (keyIs key ["enter"; "l"; "right"] || keyIs key ["h"; "left"]) = true ->
  GoInt.index (JSONViewer.visibleNodes j) (JSONViewer.cursor j) = Some (p, m) ->
  Expanded m = true -> Children m <> [] ->
  exists j',
    JSONViewer.Update j (KeyMsg key) = Some j' /\
    JSONViewer.cursor j' = JSONViewer.cursor j /\
    GoInt.index (JSONViewer.visibleNodes j') (JSONViewer.cursor j')
      = Some (p, JSONNode_setExpanded m false) /\
    forall q n i q', (q, n) ∈ JSONViewer.visibleNodes j' -> q <> p ++ i :: q'.
Proof.
  intros Hf Hkey Hi Hx Hm.
  destruct (JSONViewer.root j) as [r|] eqn:Hr.
  2: { unfold JSONViewer.visibleNodes in Hi. rewrite Hr in Hi.
       by apply GoInt_index_lookup in Hi as [_ Hi]. }
  set (clear := fun n => JSONNode_setExpanded n false).
  pose proof (visibleNodes_index j r _ p m Hr Hi) as Hp.
  destruct (keyIs_toggle_not_move key Hkey) as [Hj Hk].
  assert (Hstep : JSONViewer.Update j (KeyMsg key)
                  = Some (JSONViewer.set_root j (Some (JSONViewer.updateAt clear p r)))).
  { destruct (keyIs key ["enter"; "l"; "right"]) eqn:He.
    - destruct (JSONViewer_toggle_at j r key p m Hf He Hr Hi Hm) as [H1 _].
      cbv zeta in H1. rewrite H1. do 3 f_equal.
      apply (updateAt_ext_at _ _ p r m Hp). subst clear. simpl. by rewrite Hx.
    - simpl in Hkey. cbn [JSONViewer.Update]. rewrite Hf. cbn [negb]. cbv zeta.
      rewrite Hj, Hk, He, Hkey.
      apply GoInt_index_lookup in Hi as Hi'. destruct Hi' as [H0 Hl].
      pose proof (lookup_lt_Some _ _ _ Hl) as Hlt.
      destruct (Z.ltb_spec (JSONViewer.cursor j) (GoInt.len (JSONViewer.visibleNodes j)));
        [|unfold GoInt.len in *; lia].
      rewrite Hi. simpl. rewrite Hx. cbn [andb].
      destruct (Z.gtb_spec (GoInt.len (Children m)) 0) as [_|Hle].
      + unfold JSONViewer.clearExpanded. by rewrite Hr.
      + destruct (Children m); [done|]. unfold GoInt.len in Hle. simpl in Hle. lia. }
  eexists. split; [exact Hstep|]. split; [done|].
  cbn [JSONViewer.cursor JSONViewer.set_root].
  rewrite visibleNodes_visibleSpec. cbn [JSONViewer.root from_option].
  rewrite visibleNodes_visibleSpec, Hr in Hi. simpl in Hi.
  split.
  - apply GoInt_index_lookup in Hi as [H0 Hl]. apply GoInt_index_lookup. split; [done|].
    by apply (visibleSpec_lookup_updateAt clear).
  - intros q n i q' Hq ->. apply visibleSpec_elem in Hq as [_ Ha].
    rewrite (ancestorsExpanded_app p i q' _ (clear m)) in Ha
      by (by rewrite nodeAt_updateAt, Hp).
    cbn [ancestorsExpanded clear JSONNode_setExpanded Expanded andb] in Ha.
    by rewrite andb_false_r in Ha.
Qed.

Lemma JSONViewer_collapse_hides_descendants_witness :
  exists j',
    JSONViewer.Update (Sample.viewer10 24 0 0) (KeyMsg "h") = Some j' /\
    JSONViewer.cursor j' = JSONViewer.cursor (Sample.viewer10 24 0 0) /\
    GoInt.index (JSONViewer.visibleNodes j') (JSONViewer.cursor j')
      = Some ([], JSONNode_setExpanded Sample.root10 false) /\
    forall q n i q', (q, n) ∈ JSONViewer.visibleNodes j' -> q <> [] ++ i :: q'.
Proof.
  apply (JSONViewer_collapse_hides_descendants (Sample.viewer10 24 0 0) "h" [] Sample.root10).
  - reflexivity.
  - reflexivity.
  - reflexivity.
  - reflexivity.
  - discriminate.
Defined.

Lemma JSONViewer_ensureVisible_frame j :
  JSONViewer.width (JSONViewer.ensureVisible j) = JSONViewer.width j /\
  JSONViewer.focused (JSONViewer.ensureVisible j) = JSONViewer.focused j /\
  JSONViewer.path (JSONViewer.ensureVisible j) = JSONViewer.path j /\
  JSONViewer.err (JSONViewer.ensureVisible j) = JSONViewer.err j.
Proof.
  unfold JSONViewer.ensureVisible. cbv zeta.
  destruct (JSONViewer.cursor j <? JSONViewer.offset j); simpl;
    match goal with |- context [if ?b then _ else _] => destruct b end; done.
Qed.

(** X17: With no tree (the load is pending, or it failed), a jump to the end
    followed by a toggle or collapse key panics: [G] leaves the cursor at
    -1, and the next key indexes the empty visible sequence with it. *)
Theorem JSONViewer_no_tree_jump_then_toggle_panics (j : JSONViewer.t) (key : string) :
  JSONViewer.focused j = true -> JSONViewer.root j = None ->
  (keyIs key ["enter"; "l"; "right"] || keyIs key ["h"; "left"]) = true ->
  exists j1,
    JSONViewer.Update j (KeyMsg "G") = Some j1 /\
    JSONViewer.root j1 = None /\ JSONViewer.cursor j1 = -1 /\
    JSONViewer.Update j1 (KeyMsg key) = None.
Proof.
  intros Hf Hr Hkey.
  assert (Hm : GoInt.sub (GoInt.len (@nil (Ptr * JSONNode))) 1 = -1)
    by (vm_compute; reflexivity).
  set (j1 := JSONViewer.ensureVisible (JSONViewer.set_cursor j (-1))).
  destruct (JSONViewer_ensureVisible_fields (JSONViewer.set_cursor j (-1)))
    as (Hr1 & _ & Hc1).
  destruct (JSONViewer_ensureVisible_frame (JSONViewer.set_cursor j (-1)))
    as (_ & Hf1 & _).
  fold j1 in Hr1, Hc1, Hf1. simpl in Hr1, Hc1, Hf1.
  exists j1. split.
  { cbn [JSONViewer.Update]. rewrite Hf. cbn [negb]. decide_keys. cbv zeta.
    unfold JSONViewer.visibleNodes. rewrite Hr, Hm. done. }
  split; [congruence|]. split; [done|].
  destruct (keyIs_toggle_not_move key Hkey) as [Hj Hk].
  cbn [JSONViewer.Update]. rewrite Hf1, Hf. cbn [negb]. cbv zeta. rewrite Hj, Hk.
  unfold JSONViewer.visibleNodes. rewrite Hr1, Hr, Hc1.
  destruct (keyIs key ["enter"; "l"; "right"]); [done|].
  simpl in Hkey. rewrite Hkey. done.
Qed.

Lemma JSONViewer_no_tree_jump_then_toggle_panics_witness :
  exists j1,
    JSONViewer.Update (JSONViewer.mk 80 24 true "/bad.json" None 0 0 (Some "unexpected end"))
                      (KeyMsg "G") = Some j1 /\
    JSONViewer.root j1 = None /\ JSONViewer.cursor j1 = -1 /\
    JSONViewer.Update j1 (KeyMsg "enter") = None.
Proof.
  apply (JSONViewer_no_tree_jump_then_toggle_panics
           (JSONViewer.mk 80 24 true "/bad.json" None 0 0 (Some "unexpected end")) "enter").
  - reflexivity.
  - reflexivity.
  - reflexivity.
Defined.

(** ** viewer.go: size and focus of the viewers *)

(** The [width], [height] and [focused] fields of a viewer object. *)
Definition viewerSize (r : ViewerRouter.t) (v : ViewerRouter.Viewer) : Z * Z :=
  match v with
  | ViewerRouter.Markdown =>
      (MarkdownViewer.width (ViewerRouter.md r), MarkdownViewer.height (ViewerRouter.md r))
  | ViewerRouter.JSON =>
      (JSONViewer.width (ViewerRouter.jsonv r), JSONViewer.height (ViewerRouter.jsonv r))
  | ViewerRouter.Text =>
      (TextViewer.width (ViewerRouter.text r), TextViewer.height (ViewerRouter.text r))
  end.

Definition viewerFocused (r : ViewerRouter.t) (v : ViewerRouter.Viewer) : bool :=
  match v with
  | ViewerRouter.Markdown => MarkdownViewer.focused (ViewerRouter.md r)
  | ViewerRouter.JSON => JSONViewer.focused (ViewerRouter.jsonv r)
  | ViewerRouter.Text => TextViewer.focused (ViewerRouter.text r)
  end.

(** The router and its viewers agree: it was built by [NewViewerRouter],
    it has a current viewer, every viewer has the router's size, and the
    current viewer has the router's focus. *)
Definition routerSynced (r : ViewerRouter.t) : Prop :=
  registered r /\
  (exists v, ViewerRouter.current r = Some v /\
             viewerFocused r v = ViewerRouter.focused r) /\
  forall v, viewerSize r v = (ViewerRouter.width r, ViewerRouter.height r).

Lemma TextViewer_scroll_frame t0 d :
  TextViewer.width (TextViewer.scroll t0 d) = TextViewer.width t0 /\
  TextViewer.height (TextViewer.scroll t0 d) = TextViewer.height t0 /\
  TextViewer.focused (TextViewer.scroll t0 d) = TextViewer.focused t0.
Proof.
  unfold TextViewer.scroll. cbv zeta.
  repeat match goal with |- context [if ?b then _ else _] => destruct b end; done.
Qed.

Lemma TextViewer_Update_frame t0 msg :
  TextViewer.width (TextViewer.Update t0 msg) = TextViewer.width t0 /\
  TextViewer.height (TextViewer.Update t0 msg) = TextViewer.height t0 /\
  TextViewer.focused (TextViewer.Update t0 msg) = TextViewer.focused t0.
Proof.
  destruct msg; cbn [TextViewer.Update]; try done.
  - repeat match goal with
           | |- context [TextViewer.scroll ?a ?b] => apply TextViewer_scroll_frame
           | |- context [if ?b then _ else _] => destruct b
           end; done.
  - by destruct (String.eqb _ _).
Qed.

Lemma MarkdownViewer_scroll_frame m d :
  MarkdownViewer.width (MarkdownViewer.scroll m d) = MarkdownViewer.width m /\
  MarkdownViewer.height (MarkdownViewer.scroll m d) = MarkdownViewer.height m /\
  MarkdownViewer.focused (MarkdownViewer.scroll m d) = MarkdownViewer.focused m.
Proof.
  unfold MarkdownViewer.scroll. cbv zeta.
  repeat match goal with |- context [if ?b then _ else _] => destruct b end; done.
Qed.

Lemma MarkdownViewer_Update_frame m msg :
  MarkdownViewer.width (MarkdownViewer.Update m msg) = MarkdownViewer.width m /\
  MarkdownViewer.height (MarkdownViewer.Update m msg) = MarkdownViewer.height m /\
  MarkdownViewer.focused (MarkdownViewer.Update m msg) = MarkdownViewer.focused m.
Proof.
  destruct msg; cbn [MarkdownViewer.Update]; try done.
  - repeat match goal with
           | |- context [MarkdownViewer.scroll ?a ?b] => apply MarkdownViewer_scroll_frame
           | |- context [if ?b then _ else _] => destruct b
           end; done.
  - by destruct (String.eqb _ _).
Qed.

Lemma JSONViewer_Update_frame j msg j' :
  JSONViewer.Update j msg = Some j' ->
  JSONViewer.width j' = JSONViewer.width j /\
  JSONViewer.height j' = JSONViewer.height j /\
  JSONViewer.focused j' = JSONViewer.focused j.
Proof.
  assert (Hev : forall x, JSONViewer.width (JSONViewer.ensureVisible x) = JSONViewer.width x /\
                          JSONViewer.height (JSONViewer.ensureVisible x) = JSONViewer.height x /\
                          JSONViewer.focused (JSONViewer.ensureVisible x) = JSONViewer.focused x).
  { intros x. destruct (JSONViewer_ensureVisible_fields x) as (_ & ? & _).
    destruct (JSONViewer_ensureVisible_frame x) as (? & ? & _). done. }
  destruct msg; cbn [JSONViewer.Update]; try (by intros [= <-]).
  - destruct (negb (JSONViewer.focused j)); [by intros [= <-]|]. cbv zeta.
    repeat match goal with
           | |- context [GoInt.index ?l ?i] =>
               destruct (GoInt.index l i) as [[? ?]|]; cbn [mbind option_bind]
           | |- (if ?b then _ else _) = _ -> _ => destruct b
           end;
      try (by intros [= <-]); try done;
      intros [= <-];
      repeat match goal with
             | |- context [JSONViewer.ensureVisible ?x] =>
                 destruct (Hev x) as (-> & -> & ->)
             end;
      try done;
      cbn [JSONViewer.set_cursor JSONViewer.width JSONViewer.height JSONViewer.focused];
      repeat match goal with |- context [if ?b then _ else _] => destruct b end; done.
  - destruct (String.eqb _ _); by intros [= <-].
Qed.

Lemma SetSize_synced r w h :
  routerSynced r ->
  routerSynced (ViewerRouter.SetSize r w h) /\
  ViewerRouter.width (ViewerRouter.SetSize r w h) = w /\
  ViewerRouter.height (ViewerRouter.SetSize r w h) = h /\
  ViewerRouter.focused (ViewerRouter.SetSize r w h) = ViewerRouter.focused r /\
  ViewerRouter.current (ViewerRouter.SetSize r w h) = ViewerRouter.current r.
Proof.
  intros (Hreg & (v & Hcur & Hf) & Hsize).
  destruct r as [vs cur rw rh rf m j x]. unfold registered in Hreg. simpl in *. subst vs cur.
  unfold ViewerRouter.SetSize. simpl. split; [|done].
  split; [done|]. split.
  - exists v. split; [done|]. by destruct v.
  - by intros [].
Qed.

Lemma SetFocused_synced r f :
  routerSynced r ->
  routerSynced (ViewerRouter.SetFocused r f) /\
  ViewerRouter.width (ViewerRouter.SetFocused r f) = ViewerRouter.width r /\
  ViewerRouter.height (ViewerRouter.SetFocused r f) = ViewerRouter.height r.
Proof.
  intros (Hreg & (v & Hcur & Hf) & Hsize).
  destruct r as [vs cur rw rh rf m j x]. unfold registered in Hreg. simpl in *. subst vs cur.
  unfold ViewerRouter.SetFocused. cbv zeta. cbn [ViewerRouter.current].
  split; [|by destruct v]. split; [by destruct v|]. split.
  - exists v. by destruct v.
  - intros v'. specialize (Hsize v'). by destruct v, v'.
Qed.

Lemma OpenFile_synced r path :
  routerSynced r ->
  exists r' cmd,
    ViewerRouter.OpenFile r path = Some (r', cmd) /\ routerSynced r' /\
    ViewerRouter.width r' = ViewerRouter.width r /\
    ViewerRouter.height r' = ViewerRouter.height r /\
    ViewerRouter.focused r' = ViewerRouter.focused r.
Proof.
  intros (Hreg & _ & Hsize).
  destruct (firstCanView_registered r path Hreg) as (v & Hv & _).
  unfold ViewerRouter.OpenFile. rewrite Hv. cbv zeta.
  destruct r as [vs cur rw rh rf m j x]. unfold registered in Hreg. simpl in *.
  pose proof (Hsize ViewerRouter.Markdown) as Hm.
  pose proof (Hsize ViewerRouter.JSON) as Hj.
  pose proof (Hsize ViewerRouter.Text) as Hx. simpl in Hm, Hj, Hx.
  destruct v; simpl; eexists _, _; (split; [reflexivity|]); simpl;
    (split; [|done]); (split; [done|]);
    (split; [eexists; split; [reflexivity|done] | by intros []]).
Qed.

Lemma Update_synced r msg r' :
  routerSynced r -> ViewerRouter.Update r msg = Some r' ->
  routerSynced r' /\
  ViewerRouter.width r' = ViewerRouter.width r /\
  ViewerRouter.height r' = ViewerRouter.height r /\
  ViewerRouter.focused r' = ViewerRouter.focused r.
Proof.
  intros (Hreg & (v & Hcur & Hf) & Hsize) Hup.
  unfold ViewerRouter.Update in Hup. rewrite Hcur in Hup.
  pose proof (Hsize ViewerRouter.Markdown) as Hm.
  pose proof (Hsize ViewerRouter.JSON) as Hj.
  pose proof (Hsize ViewerRouter.Text) as Hx.
  destruct r as [vs cur rw rh rf m j x]. unfold registered in Hreg. simpl in *. subst cur.
  destruct v; simpl in Hup, Hf.
  - injection Hup as <-. simpl.
    destruct (MarkdownViewer_Update_frame m msg) as (Hw & Hh & Hfo).
    split; [|done]. split; [done|]. split.
    + exists ViewerRouter.Markdown. simpl. split; [done|]. by rewrite Hfo.
    + intros []; simpl; [|done|done]. rewrite Hw, Hh. done.
  - destruct (JSONViewer.Update j msg) as [j'|] eqn:Hju; [|done].
    injection Hup as <-. simpl.
    destruct (JSONViewer_Update_frame j msg j' Hju) as (Hw & Hh & Hfo).
    split; [|done]. split; [done|]. split.
    + exists ViewerRouter.JSON. simpl. split; [done|]. by rewrite Hfo.
    + intros []; simpl; [done| |done]. rewrite Hw, Hh. done.
  - injection Hup as <-. simpl.
    destruct (TextViewer_Update_frame x msg) as (Hw & Hh & Hfo).
    split; [|done]. split; [done|]. split.
    + exists ViewerRouter.Text. simpl. split; [done|]. by rewrite Hfo.
    + intros []; simpl; [done|done|]. rewrite Hw, Hh. done.
Qed.

Lemma NewViewerRouter_synced : routerSynced ViewerRouter.NewViewerRouter.
Proof.
  split; [done|]. split.
  - by exists ViewerRouter.Text.
  - by intros [].
Qed.

(** X18: Whatever message the application handles, router and viewers stay in
    agreement: the router keeps its registration and a current viewer,
    every viewer has the size the router was given, and the current viewer
    has the router's focus. *)
Theorem App_Update_keeps_router_synced (env : Env) (fuel : nat) (a a' : App.t)
    (msg : Msg) (cmds : list Cmd) :
  routerSynced (App.viewer a) ->
  App.Update env fuel a msg = Some (a', cmds) ->
  routerSynced (App.viewer a').
Proof.
  intros Hs Hup. destruct msg as [key|W H|P|P C E|P C E|P R E|P C E|P E|P|];
    cbn [App.Update] in Hup.
  - destruct (App.Mode_eqb (App.mode a) App.ModeEditor).
    { destruct (keyIs key ["ctrl+c"]); [by injection Hup as <- _|].
      destruct (Editor.Update env (App.editor a) (KeyMsg key)) as [e c].
      by injection Hup as <- _. }
    destruct (keyIs key ["q"; "ctrl+c"]); [by injection Hup as <- _|].
    destruct (keyIs key ["tab"]).
    { injection Hup as <- _. unfold App.cycleFocus. cbv zeta.
      destruct (App.Focus_eqb (App.focus a) App.FocusNav); simpl;
        apply (proj1 (SetFocused_synced (App.viewer a) _ Hs)). }
    destruct (keyIs key ["e"] && _).
    { cbv zeta in Hup. injection Hup as <- _. simpl.
      apply (proj1 (SetFocused_synced (App.viewer a) _ Hs)). }
    unfold App.updateFocusedPane in Hup.
    destruct (App.Focus_eqb (App.focus a) App.FocusNav).
    + destruct (NavPane.Update env fuel (App.nav a) (KeyMsg key)); [|done].
      simpl in Hup. by injection Hup as <- _.
    + destruct (ViewerRouter.Update (App.viewer a) (KeyMsg key)) as [v|] eqn:Hv; [|done].
      simpl in Hup. injection Hup as <- _. simpl. apply (proj1 (Update_synced _ _ _ Hs Hv)).
  - injection Hup as <- _. unfold App.updatePaneSizes. cbv zeta. simpl.
    apply (proj1 (SetSize_synced (App.viewer a) _ _ Hs)).
  - simpl in Hup.
    destruct (OpenFile_synced (App.viewer a) P Hs) as (r' & cmd & Ho & Hs' & _).
    rewrite Ho in Hup. simpl in Hup. by injection Hup as <- _.
  - destruct (ViewerRouter.Update (App.viewer a) _) as [v|] eqn:Hv; [|done].
    simpl in Hup. injection Hup as <- _. simpl. apply (proj1 (Update_synced _ _ _ Hs Hv)).
  - destruct (ViewerRouter.Update (App.viewer a) _) as [v|] eqn:Hv; [|done].
    simpl in Hup. injection Hup as <- _. simpl. apply (proj1 (Update_synced _ _ _ Hs Hv)).
  - destruct (ViewerRouter.Update (App.viewer a) _) as [v|] eqn:Hv; [|done].
    simpl in Hup. injection Hup as <- _. simpl. apply (proj1 (Update_synced _ _ _ Hs Hv)).
  - destruct (Editor.Update env (App.editor a) _) as [e c]. by injection Hup as <- _.
  - cbv zeta in Hup. simpl in Hup.
    destruct (SetFocused_synced (App.viewer a) true Hs) as (Hs1 & _).
    destruct E as [e|].
    + by injection Hup as <- _.
    + destruct (OpenFile_synced _ P Hs1) as (r' & cmd & Ho & Hs' & _).
      rewrite Ho in Hup. simpl in Hup. by injection Hup as <- _.
  - injection Hup as <- _. simpl. apply (proj1 (SetFocused_synced (App.viewer a) _ Hs)).
  - by injection Hup as <- _.
Qed.

Lemma App_Update_keeps_router_synced_witness :
  routerSynced
    (App.viewer
       (App.mk 80 24 true App.FocusNav App.ModeNav projPane
          (ViewerRouter.mk [ViewerRouter.Markdown; ViewerRouter.JSON; ViewerRouter.Text]
             (Some ViewerRouter.JSON) 0 0 false
             MarkdownViewer.NewMarkdownViewer
             (JSONViewer.mk 0 0 false "/proj/data.json" None 0 0 None)
             TextViewer.NewTextViewer)
          Editor.NewEditor "/proj/data.json")).
Proof.
  apply (App_Update_keeps_router_synced Sample.env 1 sampleApp _
           (FileSelectedMsg "/proj/data.json") [JSONLoadCmd "/proj/data.json"]).
  - split; [reflexivity|]. split.
    + exists ViewerRouter.Text. split; reflexivity.
    + intros []; reflexivity.
  - vm_compute. reflexivity.
Defined.

(** ** The application: resizing *)



(** ** The application: entering and leaving the editor *)

(** The condition under which the [e] key opens the editor. *)
Definition editGate (a : App.t) : bool :=
  App.Focus_eqb (App.focus a) App.FocusViewer
  && negb (String.eqb (App.editPath a) "")
  && Editor.isTextFile (App.editPath a).

Lemma TextViewer_Update_e t0 : TextViewer.Update t0 (KeyMsg "e") = t0.
Proof. cbn [TextViewer.Update]. decide_keys. by destruct (negb _). Qed.

Lemma MarkdownViewer_Update_e m : MarkdownViewer.Update m (KeyMsg "e") = m.
Proof. cbn [MarkdownViewer.Update]. decide_keys. by destruct (negb _). Qed.

Lemma JSONViewer_Update_e j : JSONViewer.Update j (KeyMsg "e") = Some j.
Proof. cbn [JSONViewer.Update]. decide_keys. by destruct (negb _). Qed.

(** X20: Outside the editor the [e] key never fails.  With the focus on the
    viewer and a selected path that is a text file it opens the editor on
    that path: editor mode, the editor focused and sized, the viewer
    unfocused, the load of the file issued.  Otherwise it changes nothing
    and issues nothing. *)
Theorem edit_key_gate (env : Env) (fuel : nat) (a : App.t) :
  App.mode a <> App.ModeEditor ->
  if editGate a then
    exists a',
      App.Update env fuel a (KeyMsg "e") = Some (a', [EditorOpenCmd (App.editPath a)]) /\
      App.mode a' = App.ModeEditor /\ App.focus a' = App.focus a /\
      App.nav a' = App.nav a /\ App.editPath a' = App.editPath a /\
      App.viewer a' = ViewerRouter.SetFocused (App.viewer a) false /\
      Editor.focused (App.editor a') = true /\
      Editor.path (App.editor a') = App.editPath a
  else App.Update env fuel a (KeyMsg "e") = Some (a, []).
Proof.
  intros Hmode. unfold editGate. cbn [App.Update].
  assert (Hm : App.Mode_eqb (App.mode a) App.ModeEditor = false).
  { by destruct (App.mode a). }
  rewrite Hm. decide_keys. cbn [andb].
  destruct (App.Focus_eqb (App.focus a) App.FocusViewer
            && negb (String.eqb (App.editPath a) "")
            && Editor.isTextFile (App.editPath a)) eqn:Hgate.
  - cbv zeta. simpl. eexists. split; [reflexivity|]. simpl. done.
  - unfold App.updateFocusedPane.
    destruct (App.Focus_eqb (App.focus a) App.FocusNav).
    + assert (Hn : NavPane.Update env fuel (App.nav a) (KeyMsg "e") = Some (App.nav a)).
      { unfold NavPane.Update. decide_keys. by destruct (negb (NavPane.focused _)). }
      rewrite Hn. simpl. by destruct a.
    + assert (Hv : ViewerRouter.Update (App.viewer a) (KeyMsg "e") = Some (App.viewer a)).
      { unfold ViewerRouter.Update. destruct (ViewerRouter.current (App.viewer a)) as [v|];
          [|done].
        destruct v; cbn [ViewerRouter.viewerUpdate];
          rewrite ?MarkdownViewer_Update_e, ?JSONViewer_Update_e, ?TextViewer_Update_e;
          simpl; by destruct (App.viewer a). }
      rewrite Hv. simpl. by destruct a.
Qed.

Lemma edit_key_gate_witness :
  if editGate (App.mk 80 24 true App.FocusViewer App.ModeNav projPane
                 ViewerRouter.NewViewerRouter Editor.NewEditor "/proj/A.txt") then
    exists a',
      App.Update Sample.env 1
        (App.mk 80 24 true App.FocusViewer App.ModeNav projPane
           ViewerRouter.NewViewerRouter Editor.NewEditor "/proj/A.txt") (KeyMsg "e")
        = Some (a', [EditorOpenCmd "/proj/A.txt"]) /\
      App.mode a' = App.ModeEditor /\ App.focus a' = App.FocusViewer /\
      App.nav a' = projPane /\ App.editPath a' = "/proj/A.txt" /\
      App.viewer a' = ViewerRouter.SetFocused ViewerRouter.NewViewerRouter false /\
      Editor.focused (App.editor a') = true /\
      Editor.path (App.editor a') = "/proj/A.txt"
  else App.Update Sample.env 1
         (App.mk 80 24 true App.FocusViewer App.ModeNav projPane
            ViewerRouter.NewViewerRouter Editor.NewEditor "/proj/A.txt") (KeyMsg "e")
       = Some (App.mk 80 24 true App.FocusViewer App.ModeNav projPane
                 ViewerRouter.NewViewerRouter Editor.NewEditor "/proj/A.txt", []).
Proof.
  apply (edit_key_gate Sample.env 1
           (App.mk 80 24 true App.FocusViewer App.ModeNav projPane
              ViewerRouter.NewViewerRouter Editor.NewEditor "/proj/A.txt")).
  discriminate.
Defined.

Lemma SetFocused_restore r :
  routerSynced r -> ViewerRouter.focused r = true ->
  ViewerRouter.SetFocused (ViewerRouter.SetFocused r false) true = r.
Proof.
  intros (_ & (v & Hcur & Hf) & _) Hrf.
  destruct r as [vs cur rw rh rf m j x]. simpl in *. subst cur rf.
  unfold ViewerRouter.SetFocused. cbv zeta. cbn [ViewerRouter.current].
  destruct v; simpl in *.
  - destruct m; simpl in *; by subst.
  - destruct j; simpl in *; by subst.
  - destruct x; simpl in *; by subst.
Qed.

(** X21: Entering the editor and cancelling is a round trip for the browsing
    panes: after the [e] key, the completion of the editor's load and the
    completion of a cancel, the navigation pane, the router with its
    viewers and the selected path are what they were, the focus is on the
    viewer and the editor is unfocused. *)
Theorem edit_cancel_round_trip (env : Env) (fuel : nat) (a : App.t)
    (content : string) (err : error) (p : string) :
  App.mode a <> App.ModeEditor -> editGate a = true ->
  routerSynced (App.viewer a) -> ViewerRouter.focused (App.viewer a) = true ->
  exists a1 a2 a3,
    App.Update env fuel a (KeyMsg "e") = Some (a1, [EditorOpenCmd (App.editPath a)]) /\
    App.Update env fuel a1 (EditorOpenMsg (App.editPath a) content err) = Some (a2, []) /\
    App.mode a2 = App.ModeEditor /\
    ta_value (Editor.textarea (App.editor a2)) = content /\
    App.Update env fuel a2 (EditorCancelledMsg p) = Some (a3, []) /\
    App.mode a3 = App.ModeViewer /\ App.focus a3 = App.FocusViewer /\
    App.nav a3 = App.nav a /\ App.viewer a3 = App.viewer a /\
    App.editPath a3 = App.editPath a /\
    Editor.focused (App.editor a3) = false.
Proof.
  intros Hmode Hgate Hs Hrf.
  assert (Hm : App.Mode_eqb (App.mode a) App.ModeEditor = false).
  { by destruct (App.mode a). }
  unfold editGate in Hgate.
  eexists _, _, _. split.
  { cbn [App.Update]. rewrite Hm. decide_keys. cbn [andb]. rewrite Hgate.
    cbv zeta. simpl. reflexivity. }
  split; [cbn [App.Update]; simpl; reflexivity|].
  split; [done|]. split; [done|].
  split; [cbn [App.Update]; cbv zeta; simpl; reflexivity|].
  split; [done|]. split; [done|]. split; [done|].
  split; [|done]. simpl. by apply SetFocused_restore.
Qed.

Lemma edit_cancel_round_trip_witness :
  exists a1 a2 a3,
    App.Update Sample.env 1
      (App.mk 80 24 true App.FocusViewer App.ModeNav projPane
         (ViewerRouter.SetFocused ViewerRouter.NewViewerRouter true)
         Editor.NewEditor "/proj/A.txt") (KeyMsg "e")
      = Some (a1, [EditorOpenCmd "/proj/A.txt"]) /\
    App.Update Sample.env 1 a1 (EditorOpenMsg "/proj/A.txt" "first line" None) = Some (a2, []) /\
    App.mode a2 = App.ModeEditor /\
    ta_value (Editor.textarea (App.editor a2)) = "first line" /\
    App.Update Sample.env 1 a2 (EditorCancelledMsg "/proj/A.txt") = Some (a3, []) /\
    App.mode a3 = App.ModeViewer /\ App.focus a3 = App.FocusViewer /\
    App.nav a3 = projPane /\
    App.viewer a3 = ViewerRouter.SetFocused ViewerRouter.NewViewerRouter true /\
    App.editPath a3 = "/proj/A.txt" /\
    Editor.focused (App.editor a3) = false.
Proof.
  apply (edit_cancel_round_trip Sample.env 1
           (App.mk 80 24 true App.FocusViewer App.ModeNav projPane
              (ViewerRouter.SetFocused ViewerRouter.NewViewerRouter true)
              Editor.NewEditor "/proj/A.txt") "first line" None "/proj/A.txt").
  - discriminate.
  - reflexivity.
  - split; [reflexivity|]. split.
    + exists ViewerRouter.Text. split; reflexivity.
    + intros []; reflexivity.
  - reflexivity.
Defined.

(** X22: Every path the markdown viewer or the JSON viewer accepts is a text
    file for the editor: what these viewers show, the [e] key can edit. *)
Theorem viewable_is_editable (path : string) :
  ViewerRouter.CanView ViewerRouter.Markdown path = true \/
  ViewerRouter.CanView ViewerRouter.JSON path = true ->
  Editor.isTextFile path = true.
Proof.
  unfold ViewerRouter.CanView, MarkdownViewer.CanView, JSONViewer.CanView, Editor.isTextFile.
  cbv zeta. generalize (GoString.ToLower (GoString.Ext path)). intros ext [H|H].
  - apply orb_true_iff in H as [H|H]; apply String.eqb_eq in H; by subst.
  - apply String.eqb_eq in H. by subst.
Qed.

Lemma viewable_is_editable_witness : Editor.isTextFile "/proj/README.MD" = true.
Proof.
  apply (viewable_is_editable "/proj/README.MD"). left. reflexivity.
Defined.

(** ** buildTree: every node is the tree of its own value *)

Lemma buildTree_fields ro key value depth :
  Key (buildTree ro key value depth) = key /\
  Value (buildTree ro key value depth) = value /\
  Depth (buildTree ro key value depth) = depth.
Proof. by destruct value. Qed.

(** X23: In the tree built for a document, the node at any address is itself
    what [buildTree] makes of its key and value, at a depth that is the
    depth of the root plus the length of the address. *)
Theorem buildTree_nodes_self_built (ro : list JSONNode -> list JSONNode)
    (value : GoValue) (key : string) (depth : Z) (q : Ptr) (m : JSONNode) :
  validOrder ro ->
  - 2 ^ 62 < depth -> depth + Z.of_nat (length q) < 2 ^ 62 ->
  nodeAt (buildTree ro key value depth) q = Some m ->
  m = buildTree ro (Key m) (Value m) (depth + Z.of_nat (length q)) /\
  Depth m = depth + Z.of_nat (length q).
Proof.
  intros Hro. revert key depth q m.
  assert (Hself : forall key value depth,
    buildTree ro key value depth
    = buildTree ro (Key (buildTree ro key value depth))
                (Value (buildTree ro key value depth)) depth).
  { intros k v d. destruct (buildTree_fields ro k v d) as (-> & -> & _). done. }
  induction value as [| | | |l IH|mp IH] using GoValue_nested_ind;
    intros key depth q m Hd Hq Hm.
  1-4: destruct q as [|i q]; [|done]; injection Hm as <-; simpl;
       rewrite Z.add_0_r; done.
  - destruct q as [|i q].
    { match type of Hm with nodeAt ?t [] = _ => assert (Hm' : t = m) by (by injection Hm) end.
      rewrite <- Hm'. simpl length. rewrite Z.add_0_r.
      split; [apply Hself|]. apply buildTree_fields. }
    rewrite buildTree_VSlice in Hm. cbn [nodeAt Children] in Hm.
    rewrite buildItems_lookup in Hm.
    destruct (l !! i) as [val|] eqn:Hval; [|done]. simpl in Hm.
    rewrite Forall_lookup in IH.
    simpl length in Hq |- *.
    rewrite GoInt_add_small in Hm by (unfold smallInt; lia).
    destruct (IH i val Hval _ (depth + 1) q m ltac:(lia) ltac:(lia) Hm) as [H1 H2].
    replace (depth + Z.of_nat (S (length q))) with (depth + 1 + Z.of_nat (length q)) by lia.
    done.
  - destruct q as [|i q].
    { match type of Hm with nodeAt ?t [] = _ => assert (Hm' : t = m) by (by injection Hm) end.
      rewrite <- Hm'. simpl length. rewrite Z.add_0_r.
      split; [apply Hself|]. apply buildTree_fields. }
    rewrite buildTree_VMap in Hm. cbn [nodeAt Children] in Hm.
    destruct (ro _ !! i) as [child|] eqn:Hchild; [|done]. simpl in Hm.
    apply list_elem_of_lookup_2 in Hchild. rewrite (Hro _), reverse_Permutation in Hchild.
    apply list_elem_of_fmap in Hchild as ([k val] & -> & Hin). simpl in Hm.
    apply elem_of_map_to_list in Hin.
    simpl length in Hq |- *.
    rewrite GoInt_add_small in Hm by (unfold smallInt; lia).
    destruct (IH k val Hin _ (depth + 1) q m ltac:(lia) ltac:(lia) Hm) as [H1 H2].
    replace (depth + Z.of_nat (S (length q))) with (depth + 1 + Z.of_nat (length q)) by lia.
    done.
Qed.

Lemma buildTree_nodes_self_built_witness :
  mkJSONNode "[0]" (VBool true) [] false 2 false
  = buildTree id (Key (mkJSONNode "[0]" (VBool true) [] false 2 false))
              (Value (mkJSONNode "[0]" (VBool true) [] false 2 false))
              (0 + Z.of_nat (length [1%nat; 0%nat])) /\
  Depth (mkJSONNode "[0]" (VBool true) [] false 2 false)
  = 0 + Z.of_nat (length [1%nat; 0%nat]).
Proof.
  apply (buildTree_nodes_self_built id (VSlice [VNil; VSlice [VBool true]]) ""
           0 [1%nat; 0%nat] (mkJSONNode "[0]" (VBool true) [] false 2 false)).
  - intros l. reflexivity.
  - lia.
  - simpl. lia.
  - vm_compute. reflexivity.
Defined.
